(** * ML corrective deformer: a shallow embedding of the pose-to-correction pipeline

    The development follows the Python sources of the repository:

    - [Py]        : Python control effects (exceptions, [try]/[except], bounded loops)
                    as a state-and-exception monad;
    - [Np]        : the binary64 arithmetic the sources obtain from Python floats and
                    NumPy ([deg2rad], [linspace], array subtraction, stacking, the
                    single-precision cast of [torch.FloatTensor]);
    - [Deformer]  : [phase1_python_prototype/_archive/ml_corrective_deformer.py];
    - [Collector] : [utils/data_collector.py];
    - [Model]     : [ml_training/model.py];
    - [Train]     : [ml_training/train.py].

    Scalars are IEEE-754 binary64 values (Rocq's primitive floats), as Python and
    NumPy have them.  The host application (Maya), the file system and the tensor
    library are collaborators: each module states the part of them it models. *)

From Stdlib Require Import ZArith Strings.Ascii.
From Stdlib Require Import Floats.PrimFloat Floats.SpecFloat Floats.FloatOps Floats.FloatAxioms.
From Stdlib Require Import Numbers.Cyclic.Int63.Uint63.
From stdpp Require Import base decidable option list strings gmap pretty numbers.

Local Open Scope Z_scope.
Local Open Scope string_scope.
Local Open Scope list_scope.

(* ===================================================================== *)
(** * Python effects *)
(* ===================================================================== *)

Module Py.

(** The exceptions the sources can meet.  All of them derive from Python's
    [Exception], which is the class every handler of the sources names
    ([except Exception as e]); asynchronous [BaseException] signals are outside
    the model. *)
Inductive exn : Type :=
  | AttributeError (attr : string)
  | KeyError (key : string)
  | ValueError (msg : string)
  | TypeError (msg : string)
  | IndexError (msg : string)
  | ZeroDivisionError
  | FileNotFoundError (path : string)
  | IsADirectoryError (path : string)
  | NotADirectoryError (path : string)
  | FileExistsError (path : string)
  | RuntimeError (msg : string).

(** What running a piece of Python code ends with.  [Timeout] is produced only by
    the bounded unrolling of a [while] loop that is given too little fuel. *)
Inductive outcome (A : Type) : Type :=
  | Returned (a : A)
  | Raised (e : exn)
  | Timeout.
Arguments Returned {A} a.
Arguments Raised {A} e.
Arguments Timeout {A}.

(** A computation over a mutable world [S].  The world that an exception leaves
    behind is kept: Python does not roll mutations back. *)
Definition M (S A : Type) : Type := S -> outcome A * S.

Definition ret {S A} (a : A) : M S A := fun s => (Returned a, s).

Definition bind {S A B} (m : M S A) (k : A -> M S B) : M S B :=
  fun s =>
    match m s with
    | (Returned a, s') => k a s'
    | (Raised e, s') => (Raised e, s')
    | (Timeout, s') => (Timeout, s')
    end.

Definition raise {S A} (e : exn) : M S A := fun s => (Raised e, s).
Definition timeout {S A} : M S A := fun s => (Timeout, s).
Definition get {S} : M S S := fun s => (Returned s, s).
Definition gets {S A} (f : S -> A) : M S A := fun s => (Returned (f s), s).
Definition put {S} (s : S) : M S unit := fun _ => (Returned tt, s).
Definition modify {S} (f : S -> S) : M S unit := fun s => (Returned tt, f s).

(** [try: body except Exception as e: handler e] *)
Definition try_except {S A} (body : M S A) (handler : exn -> M S A) : M S A :=
  fun s =>
    match body s with
    | (Raised e, s') => handler e s'
    | r => r
    end.

(** The result of a call into a library that either raises or returns. *)
Definition lift_result {S A} (r : exn + A) : M S A :=
  match r with
  | inl e => raise e
  | inr a => ret a
  end.

(** A value that must be present, or else the given exception. *)
Definition from_option {S A} (o : option A) (e : exn) : M S A :=
  match o with
  | Some a => ret a
  | None => raise e
  end.

(** [for x in xs: body x] *)
Fixpoint for_each {S A} (xs : list A) (body : A -> M S unit) : M S unit :=
  match xs with
  | [] => ret tt
  | x :: xs' => bind (body x) (fun _ => for_each xs' body)
  end.

(** [for x in xs: acc = body acc x], for a loop that rebinds what it updates. *)
Fixpoint fold_each {S A B} (xs : list A) (acc : B) (body : B -> A -> M S B) : M S B :=
  match xs with
  | [] => ret acc
  | x :: xs' => bind (body acc x) (fun acc' => fold_each xs' acc' body)
  end.

(** [print(...)] writes to the console only; the console is not part of any
    world below. *)
Definition print {S} (_ : string) : M S unit := ret tt.

Declare Scope py_scope.
Delimit Scope py_scope with py.
Notation "x <- c1 ;; c2" := (bind c1 (fun x => c2))
  (at level 100, c1 at next level, right associativity) : py_scope.
Notation "c1 ;; c2" := (bind c1 (fun _ => c2))
  (at level 100, right associativity) : py_scope.

End Py.

Import Py.
Local Open Scope py_scope.

(* ===================================================================== *)
(** * Binary64 arithmetic and the NumPy operations the sources call *)
(* ===================================================================== *)

Module Np.

Definition float : Type := PrimFloat.float.

Definition fadd : float -> float -> float := PrimFloat.add.
Definition fsub : float -> float -> float := PrimFloat.sub.
Definition fmul : float -> float -> float := PrimFloat.mul.
Definition fdiv : float -> float -> float := PrimFloat.div.
Definition fltb : float -> float -> bool := PrimFloat.ltb.
Definition feqb : float -> float -> bool := PrimFloat.eqb.

Definition fzero : float := PrimFloat.zero.
Definition fnan : float := PrimFloat.nan.

(** [float(n)] for a non-negative count [n] below [2^63]. *)
Definition of_nat (n : nat) : float := PrimFloat.of_uint63 (Uint63.of_Z (Z.of_nat n)).
Definition of_Z (n : Z) : float :=
  if (n <? 0)%Z then PrimFloat.opp (PrimFloat.of_uint63 (Uint63.of_Z (- n)))
  else PrimFloat.of_uint63 (Uint63.of_Z n).

(** [np.pi], the binary64 nearest to pi. *)
Definition pi : float := 0x1.921fb54442d18p+1%float.

(** [np.deg2rad(x)], and its alias [np.radians(x)]: [x * (pi / 180)]. *)
Definition deg2rad (x : float) : float := fmul x (fdiv pi (of_Z 180)).
Definition radians (x : float) : float := deg2rad x.

(** The cast to single precision that [torch.FloatTensor] applies to a binary64
    array: round to nearest even on 24 bits of precision, exponents up to 128. *)
Definition to_single (x : float) : float :=
  match Prim2SF x with
  | S754_finite s m e => SF2Prim (binary_round 24 128 s m e)
  | _ => x
  end.


(** A point of a mesh, or a displacement: [[x, y, z]]. *)
Definition point : Type := float * float * float.

Definition point_zip (f : float -> float -> float) (p q : point) : point :=
  let '(px, py, pz) := p in
  let '(qx, qy, qz) := q in
  (f px qx, f py qy, f pz qz).

Definition point_map (f : float -> float) (p : point) : point :=
  let '(px, py, pz) := p in (f px, f py, f pz).

Definition point_list (p : point) : list float :=
  let '(px, py, pz) := p in [px; py; pz].

(** [a - b] on two arrays of shape [[n, 3]] and [[m, 3]], with NumPy's
    broadcasting: equal lengths subtract row by row, a single row is repeated
    against a non-empty array, anything else is a [ValueError]. *)
Definition sub_points {S} (a b : list point) : M S (list point) :=
  if decide (length a = length b) then ret (zip_with (point_zip fsub) a b)
  else
    match a, b with
    | [p], _ :: _ => ret ((fun q => point_zip fsub p q) <$> b)
    | _ :: _, [q] => ret ((fun p => point_zip fsub p q) <$> a)
    | _, _ => raise (ValueError "operands could not be broadcast together")
    end.

(** [np.zeros_like(a)] *)
Definition zeros_like (a : list point) : list point :=
  (fun _ => (fzero, fzero, fzero)) <$> a.

(** [np.linspace(start, stop, num)] with the default [endpoint=True]:
    [arange(0, num) * step + start] with [step = (stop - start) / (num - 1)],
    the last entry overwritten by [stop]; when the step rounds to zero the
    entries are [arange / (num - 1) * delta + start]; [num = 1] gives
    [0 * delta + start]; a negative [num] is a [ValueError]. *)
Definition linspace_values (start stop : float) (num : nat) : list float :=
  let delta := fsub stop start in
  let div := (num - 1)%nat in
  let y := of_nat <$> seq 0 num in
  let scaled :=
    if decide (0 < div)%nat then
      let step := fdiv delta (of_nat div) in
      if feqb step fzero
      then (fun i => fmul (fdiv i (of_nat div)) delta) <$> y
      else (fun i => fmul i step) <$> y
    else (fun i => fmul i delta) <$> y in
  let shifted := (fun v => fadd v start) <$> scaled in
  if decide (1 < num)%nat then <[(num - 1)%nat := stop]> shifted else shifted.

Definition linspace {S} (start stop : float) (num : Z) : M S (list float) :=
  if (num <? 0)%Z
  then raise (ValueError "Number of samples must be non-negative")
  else ret (linspace_values start stop (Z.to_nat num)).

(** An n-dimensional array of binary64 values: its shape and its entries in
    row-major order. *)
Record ndarray : Type := mk_ndarray { shape : list nat; entries : list float }.

(** [np.array(rows)] for a list of rows of floats: a 2-d array when the rows have
    one length, a [ValueError] for a ragged list (NumPy refuses inhomogeneous
    shapes).  An empty list gives the 1-d empty array. *)
Definition array2 {S} (rows : list (list float)) : M S ndarray :=
  match rows with
  | [] => ret (mk_ndarray [0%nat] [])
  | r :: _ =>
      if forallb (fun r' => Nat.eqb (length r') (length r)) rows
      then ret (mk_ndarray [length rows; length r] (concat rows))
      else raise (ValueError "inhomogeneous shape")
  end.

(** [np.array(blocks)] for a list of [[v, 3]] arrays: a 3-d array when all blocks
    have one length.  A block without rows is the 1-d empty array, which stacks
    to shape [[n, 0]]. *)
Definition array3 {S} (blocks : list (list point)) : M S ndarray :=
  match blocks with
  | [] => ret (mk_ndarray [0%nat] [])
  | b :: _ =>
      if forallb (fun b' => Nat.eqb (length b') (length b)) blocks
      then ret (mk_ndarray
                  (match b with
                   | [] => [length blocks; 0%nat]
                   | _ => [length blocks; length b; 3%nat]
                   end)
                  (concat ((fun b' => concat (point_list <$> b')) <$> blocks)))
      else raise (ValueError "inhomogeneous shape")
  end.

(** Elementwise application, as NumPy's universal functions do. *)
Definition map_array (f : float -> float) (a : ndarray) : ndarray :=
  mk_ndarray (shape a) (f <$> entries a).

End Np.


(* ===================================================================== *)
(** * The inference gate: [MLCorrectiveDeformer.deform] *)
(* ===================================================================== *)

Module Deformer.
Import Np.

(** The three node attributes of the deformer, typed by what they hold
    ([kFloat], [kFloat], [kBoolean] in [initialize]). *)
Inductive attribute : Type -> Type :=
  | poseAngle : attribute float
  | correctionWeight : attribute float
  | enableML : attribute bool.

(** The values the data block holds for the attributes in one evaluation. *)
Record data_block : Type := mk_block {
  pose_angle_value : float;
  correction_weight_value : float;
  enable_ml_value : bool
}.

(** A data handle, as returned by [dataBlock.inputValue]. *)
Inductive handle (T : Type) : Type := Handle (a : attribute T).
Arguments Handle {T} a.

(** What Maya hands to [deform], as far as the method uses it.

    - [geometry] is the sequence the geometry iterator runs over: the vertex index
      [geoIter.index()] and the position [geoIter.position()] of each element;
    - [cursor] is where the iterator stands;
    - [calls] counts the calls made into the host so far, and [faults] tells which
      of them raises: call number [k] raises [e] when [faults k = Some e].  Every
      run of the host is some [faults]; the run without faults is [fun _ => None]. *)
Record host : Type := mk_host {
  block : data_block;
  geometry : list (nat * point);
  cursor : nat;
  calls : nat;
  faults : nat -> option exn
}.

Definition set_cursor (c : nat) (h : host) : host :=
  mk_host (block h) (geometry h) c (calls h) (faults h).
Definition set_geometry (g : list (nat * point)) (h : host) : host :=
  mk_host (block h) g (cursor h) (calls h) (faults h).
Definition count_call (h : host) : host :=
  mk_host (block h) (geometry h) (cursor h) (S (calls h)) (faults h).

(** A call into the host: it is counted, and it raises when the host says so. *)
Definition host_call {A} (op : M host A) : M host A :=
  fun h =>
    match faults h (calls h) with
    | Some e => (Raised e, count_call h)
    | None => op (count_call h)
    end.

Definition read_attribute {T} (a : attribute T) (b : data_block) : T :=
  match a in attribute T return T with
  | poseAngle => pose_angle_value b
  | correctionWeight => correction_weight_value b
  | enableML => enable_ml_value b
  end.

(** [dataBlock.inputValue(attr)] *)
Definition inputValue {T} (a : attribute T) : M host (handle T) :=
  host_call (ret (Handle a)).

(** [handle.asFloat()] and [handle.asBool()] *)
Definition asFloat (hd : handle float) : M host float :=
  host_call (let 'Handle a := hd in gets (fun h => read_attribute a (block h))).
Definition asBool (hd : handle bool) : M host bool :=
  host_call (let 'Handle a := hd in gets (fun h => read_attribute a (block h))).

(** The geometry iterator. *)
Definition geo_reset : M host unit := host_call (modify (set_cursor 0)).
Definition geo_isDone : M host bool :=
  host_call (gets (fun h => bool_decide (length (geometry h) <= cursor h)%nat)).
Definition geo_next : M host unit :=
  host_call (modify (fun h => set_cursor (S (cursor h)) h)).
Definition geo_current : M host (nat * point) :=
  h <- get ;;
  from_option (geometry h !! cursor h) (RuntimeError "iterator is done").
Definition geo_index : M host nat := host_call (e <- geo_current ;; ret (fst e)).
Definition geo_position : M host point := host_call (e <- geo_current ;; ret (snd e)).
Definition geo_setPosition (p : point) : M host unit :=
  host_call (e <- geo_current ;;
             modify (fun h => set_geometry (<[cursor h := (fst e, p)]> (geometry h)) h)).

Section WithSine.

(** [np.sin] on binary64 has no counterpart among the primitive float operations;
    the development holds for every function in its place. *)
Variable np_sin : float -> float.

(** The float literals [0.1] and [0.05] of the source. *)
Definition lit_0_1 : float := 0x1.999999999999ap-4%float.
Definition lit_0_05 : float := 0x1.999999999999ap-5%float.

(** [max(0, y)]: Python keeps the first argument unless the second is greater. *)
Definition py_max0 (y : float) : float := if fltb fzero y then y else fzero.

(** The body of the loop of [_compute_simple_correction] for one position. *)
Definition simple_correction (pose_angle : float) (p : point) : point :=
  let '(_, y, _) := p in
  let y_factor := py_max0 y in
  let angle_factor := np_sin (radians pose_angle) in
  let correction_x := fmul (fmul y_factor angle_factor) lit_0_1 in
  let correction_y := fzero in
  let correction_z := fmul (fmul y_factor angle_factor) lit_0_05 in
  (correction_x, correction_y, correction_z).

(** The body of the [while] loop of [_compute_simple_correction]: the correction
    for the position under the iterator is appended, then [geoIter.next()]. *)
Definition correction_iteration (pose_angle : float) (corrections : list point)
  : M host (list point) :=
  p <- geo_position ;;
  let corrections := corrections ++ [simple_correction pose_angle p] in
  geo_next ;;
  ret corrections.

(** The [while] loop of [_compute_simple_correction], unrolled at most [fuel]
    times. *)
Fixpoint correction_loop (fuel : nat) (pose_angle : float) (corrections : list point)
  : M host (list point) :=
  match fuel with
  | O => timeout
  | S fuel' =>
      done <- geo_isDone ;;
      if (done : bool) then ret corrections
      else
        corrections <- correction_iteration pose_angle corrections ;;
        correction_loop fuel' pose_angle corrections
  end.

Definition _compute_simple_correction (fuel : nat) (pose_angle : float)
  : M host (list point) :=
  geo_reset ;;
  correction_loop fuel pose_angle [].

(** [point.x += correction[0] * correction_weight], and so on for [y] and [z]. *)
Definition add_weighted (p correction : point) (correction_weight : float) : point :=
  point_zip (fun a c => fadd a (fmul c correction_weight)) p correction.

(** The body of the [while] loop of [deform]: the guarded assignment for the
    element under the iterator, then [geoIter.next()]. *)
Definition apply_iteration (corrections : list point) (correction_weight : float)
  : M host unit :=
  vertex_index <- geo_index ;;
  (if decide (vertex_index < length corrections)%nat then
     p <- geo_position ;;
     correction <- from_option (corrections !! vertex_index)
                     (IndexError "list index out of range") ;;
     geo_setPosition (add_weighted p correction correction_weight)
   else ret tt) ;;
  geo_next.

(** The [while] loop of [deform], unrolled at most [fuel] times. *)
Fixpoint apply_loop (fuel : nat) (corrections : list point) (correction_weight : float)
  : M host unit :=
  match fuel with
  | O => timeout
  | S fuel' =>
      done <- geo_isDone ;;
      if (done : bool) then ret tt
      else
        apply_iteration corrections correction_weight ;;
        apply_loop fuel' corrections correction_weight
  end.

(** The [try] block of [deform]. *)
Definition deform_body (fuel : nat) : M host unit :=
  pose_angle_handle <- inputValue poseAngle ;;
  pose_angle <- asFloat pose_angle_handle ;;
  correction_weight_handle <- inputValue correctionWeight ;;
  correction_weight <- asFloat correction_weight_handle ;;
  enable_ml_handle <- inputValue enableML ;;
  enable_ml <- asBool enable_ml_handle ;;
  if negb enable_ml then ret tt
  else
    corrections <- _compute_simple_correction fuel pose_angle ;;
    geo_reset ;;
    apply_loop fuel corrections correction_weight.

Definition deform_with_fuel (fuel : nat) : M host unit :=
  try_except (deform_body fuel)
    (fun e => print "MLCorrectiveDeformer error in deform").

(** [MLCorrectiveDeformer.deform].  Each loop runs once per element of the
    iterator and once more to find it done, so one unrolling more than the number
    of elements is enough fuel ([deform_never_times_out] below). *)
Definition deform : M host unit :=
  fun h => deform_with_fuel (S (length (geometry h))) h.

(** What the guarded assignment of [deform] makes of one element, given the
    corrections and the weight. *)
Definition corrected (corrections : list point) (correction_weight : float)
  (e : nat * point) : nat * point :=
  match corrections !! fst e with
  | Some c => (fst e, add_weighted (snd e) c correction_weight)
  | None => e
  end.

End WithSine.

End Deformer.

(* ===================================================================== *)
(** * The regression models: [ml_training/model.py] *)
(* ===================================================================== *)

Module Model.
Import Np.

(** The layers [torch.nn] provides to the three architectures. *)
Inductive layer : Type :=
  | Linear (in_features out_features : Z)
  | ReLU
  | Dropout (p : float)
  | Sequential (layers : list layer).

Inductive net_class : Type :=
  | CorrectiveDeformerNet
  | CompactCorrectiveNet
  | ResidualCorrectiveNet.

(** A constructed [nn.Module]: its class, the integer attributes that [__init__]
    assigned on [self] (reading any other attribute is an [AttributeError]), and
    its submodules in the order of their assignment. *)
Record module : Type := mk_module {
  cls : net_class;
  attributes : gmap string Z;
  submodules : list (string * layer)
}.

(** [self.<name>] for an integer attribute. *)
Definition getattr {S} (m : module) (name : string) : M S Z :=
  from_option (attributes m !! name) (AttributeError name).

(** The keyword arguments [create_model] looks for in [**kwargs]; an absent one
    is [None], and any other keyword is ignored by [kwargs.get]. *)
Record kwargs : Type := mk_kwargs {
  kw_hidden_layers : option (list Z);
  kw_pca_components : option Z;
  kw_hidden_size : option Z;
  kw_num_blocks : option Z
}.

Definition no_kwargs : kwargs := mk_kwargs None None None None.

(** [kwargs.get(key, default)] *)
Definition kwargs_get {A} (o : option A) (default : A) : A :=
  match o with Some a => a | None => default end.

Section Torch.

(** The tensor library decides whether a linear layer of given sizes can be
    built and whether its weight can be initialised: [linear_fault i o] is the
    exception [nn.Linear(i, o)] raises, if any, and [xavier_fault i o] the one
    [nn.init.xavier_normal_] raises on the weight of such a layer.  The sources
    call both and handle neither. *)
Variable linear_fault : Z -> Z -> option exn.
Variable xavier_fault : Z -> Z -> option exn.

Definition nn_Linear {S} (in_features out_features : Z) : M S layer :=
  match linear_fault in_features out_features with
  | Some e => raise e
  | None => ret (Linear in_features out_features)
  end.

(** The [nn.Linear] modules among [self.modules()], in traversal order. *)
Fixpoint linear_modules (l : layer) : list (Z * Z) :=
  match l with
  | Linear i o => [(i, o)]
  | Sequential ls => concat (linear_modules <$> ls)
  | _ => []
  end.

(** [_initialize_weights], the same in the three classes: Xavier-normal weights
    and zero biases for every linear module. *)
Definition _initialize_weights {S} (subs : list (string * layer)) : M S unit :=
  for_each (concat ((fun s => linear_modules (snd s)) <$> subs))
    (fun io => match xavier_fault (fst io) (snd io) with
               | Some e => raise e
               | None => ret tt
               end).

(** [p = 0.1] of [nn.Dropout(0.1)]. *)
Definition dropout_p : float := 0x1.999999999999ap-4%float.

(** The loop [for hidden_size in hidden_layers] of the stacked architectures:
    it extends [layers] and moves [input_size] along. *)
Fixpoint stack_hidden {S} (with_dropout : bool) (hidden_layers : list Z)
  (layers : list layer) (input_size : Z) : M S (list layer * Z) :=
  match hidden_layers with
  | [] => ret (layers, input_size)
  | hidden_size :: rest =>
      lin <- nn_Linear input_size hidden_size ;;
      let layers := layers ++ [lin] in
      let layers := layers ++ [ReLU] in
      let layers := if with_dropout then layers ++ [Dropout dropout_p] else layers in
      stack_hidden with_dropout rest layers hidden_size
  end.

(** [CorrectiveDeformerNet.__init__] *)
Definition CorrectiveDeformerNet_init {S} (num_joints num_vertices : Z)
  (hidden_layers : list Z) : M S module :=
  let output_size := num_vertices * 3 in
  st <- stack_hidden true hidden_layers [] num_joints ;;
  out <- nn_Linear (snd st) output_size ;;
  let layers := fst st ++ [out] in
  let subs := [("network", Sequential layers)] in
  _initialize_weights subs ;;
  ret (mk_module CorrectiveDeformerNet
         (<["output_size" := output_size]>
            (<["num_vertices" := num_vertices]>
               (<["num_joints" := num_joints]> ∅)))
         subs).

(** [CompactCorrectiveNet.__init__] *)
Definition CompactCorrectiveNet_init {S} (num_joints pca_components : Z)
  (hidden_layers : list Z) : M S module :=
  st <- stack_hidden false hidden_layers [] num_joints ;;
  out <- nn_Linear (snd st) pca_components ;;
  let layers := fst st ++ [out] in
  let subs := [("network", Sequential layers)] in
  _initialize_weights subs ;;
  ret (mk_module CompactCorrectiveNet
         (<["pca_components" := pca_components]>
            (<["num_joints" := num_joints]> ∅))
         subs).

(** [_make_residual_block] *)
Definition _make_residual_block {S} (hidden_size : Z) : M S layer :=
  l1 <- nn_Linear hidden_size hidden_size ;;
  l2 <- nn_Linear hidden_size hidden_size ;;
  ret (Sequential [l1; ReLU; l2; ReLU]).

(** [[self._make_residual_block(hidden_size) for _ in range(num_blocks)]] *)
Fixpoint residual_blocks {S} (n : nat) (hidden_size : Z) : M S (list layer) :=
  match n with
  | O => ret []
  | S n' =>
      b <- _make_residual_block hidden_size ;;
      bs <- residual_blocks n' hidden_size ;;
      ret (b :: bs)
  end.

(** [ResidualCorrectiveNet.__init__].  It assigns [num_vertices] and
    [output_size] on [self], and no [num_joints]. *)
Definition ResidualCorrectiveNet_init {S} (num_joints num_vertices hidden_size
  num_blocks : Z) : M S module :=
  let output_size := num_vertices * 3 in
  input_proj <- nn_Linear num_joints hidden_size ;;
  blocks <- residual_blocks (Z.to_nat num_blocks) hidden_size ;;
  output_proj <- nn_Linear hidden_size output_size ;;
  let subs := [("input_proj", input_proj); ("blocks", Sequential blocks);
               ("output_proj", output_proj)] in
  _initialize_weights subs ;;
  ret (mk_module ResidualCorrectiveNet
         (<["output_size" := output_size]>
            (<["num_vertices" := num_vertices]> ∅))
         subs).

(** [count_parameters]: weights and biases of the linear modules. *)
Definition count_parameters (m : module) : Z :=
  foldr (fun io acc => fst io * snd io + snd io + acc) 0
    (concat ((fun s => linear_modules (snd s)) <$> submodules m)).

(** [create_model(model_type, num_joints, num_vertices, **kwargs)] *)
Definition create_model {S} (model_type : string) (num_joints num_vertices : Z)
  (kw : kwargs) : M S module :=
  model <-
    (if decide (model_type = "standard") then
       let hidden_layers := kwargs_get (kw_hidden_layers kw) [256; 512; 512; 256] in
       CorrectiveDeformerNet_init num_joints num_vertices hidden_layers
     else if decide (model_type = "compact") then
       let pca_components := kwargs_get (kw_pca_components kw) 50 in
       let hidden_layers := kwargs_get (kw_hidden_layers kw) [128; 256; 128] in
       CompactCorrectiveNet_init num_joints pca_components hidden_layers
     else if decide (model_type = "residual") then
       let hidden_size := kwargs_get (kw_hidden_size kw) 512 in
       let num_blocks := kwargs_get (kw_num_blocks kw) 4 in
       ResidualCorrectiveNet_init num_joints num_vertices hidden_size num_blocks
     else raise (ValueError ("Unknown model type: " ++ model_type))) ;;
  print "Created model" ;;
  ret model.

End Torch.

End Model.

(* ===================================================================== *)
(** * The world outside the Python process *)
(* ===================================================================== *)

Module World.
Import Np.

(** ** Strings and POSIX paths *)

Definition chars (s : string) : list ascii := String.list_ascii_of_string s.
Definition text (l : list ascii) : string := String.string_of_list_ascii l.

Definition slash : ascii := "/"%char.

Fixpoint is_prefix (p l : list ascii) : bool :=
  match p, l with
  | [], _ => true
  | a :: p', b :: l' => bool_decide (a = b) && is_prefix p' l'
  | _ :: _, [] => false
  end.

(** [s.endswith(suffix)] *)
Definition ends_with (suffix s : string) : bool :=
  is_prefix (reverse (chars suffix)) (reverse (chars s)).

Fixpoint drop_while (f : ascii -> bool) (l : list ascii) : list ascii :=
  match l with
  | [] => []
  | c :: l' => if f c then drop_while f l' else l
  end.

(** [s.replace(old, new)] for a non-empty [old]: the occurrences are replaced
    from the left and do not overlap.  Each step consumes a character, so the
    length of the string is enough fuel. *)
Fixpoint replace_chars (fuel : nat) (old new l : list ascii) : list ascii :=
  match fuel with
  | O => l
  | S fuel' =>
      match l with
      | [] => []
      | c :: l' =>
          if is_prefix old l
          then new ++ replace_chars fuel' old new (drop (length old) l)
          else c :: replace_chars fuel' old new l'
      end
  end.

Definition str_replace (old new s : string) : string :=
  text (replace_chars (length (chars s)) (chars old) (chars new) (chars s)).

(** [os.path.dirname(p)]: everything up to the last slash, without trailing
    slashes unless it consists of slashes only. *)
Definition dirname (p : string) : string :=
  let head := reverse (drop_while (fun c => negb (bool_decide (c = slash)))
                         (reverse (chars p))) in
  if forallb (fun c => bool_decide (c = slash)) head then text head
  else text (reverse (drop_while (fun c => bool_decide (c = slash)) (reverse head))).

(** [os.path.join(a, b)] *)
Definition path_join (a b : string) : string :=
  if is_prefix [slash] (chars b) then b
  else if bool_decide (a = "") || ends_with "/" a then String.append a b
  else String.append a (String.append "/" b).

(** ** Files *)

(** A value [json.dump] writes. *)
Inductive json : Type :=
  | JInt (n : Z)
  | JFloat (x : float)
  | JStr (s : string)
  | JList (l : list json).

(** An entry of an [.npz] archive: an array of floats, an array of strings (the
    joint names) or an integer scalar (the vertex count). *)
Inductive npz_entry : Type :=
  | FloatArray (a : ndarray)
  | StrArray (names : list string)
  | IntScalar (n : Z).

(** [state_dict()] of a model or of an optimizer: named tensors. *)
Definition state_dict : Type := list (string * ndarray).

(** The dictionary [save_checkpoint] hands to [torch.save]. *)
Record checkpoint : Type := mk_checkpoint {
  ck_epoch : Z;
  ck_model_state_dict : state_dict;
  ck_optimizer_state_dict : state_dict;
  ck_val_loss : float;
  ck_train_losses : list float;
  ck_val_losses : list float
}.

Inductive file : Type :=
  | NpzFile (arrays : gmap string npz_entry)
  | JsonFile (obj : list (string * json))
  | CheckpointFile (c : checkpoint)
  | TorchScriptFile (m : Model.module) (params : state_dict)
  | OnnxFile (m : Model.module) (params : state_dict)
  | Directory.

(** ** The Maya scene *)

(** [attrs] holds the value of every attribute by its full name
    ([joint.rotateX]); [meshes] gives, for every mesh, its world-space points as
    the scene evaluates them from the attribute values. *)
Record scene : Type := mk_scene {
  attrs : gmap string float;
  meshes : gmap string (gmap string float -> list point)
}.

(** ** The world *)

(** - [maya]: the scene;
    - [clock]: the reading [datetime.now()] gives next;
    - [files]: what is at every path that exists, as the program spells it: the
      content of a file, or [Directory]; the current directory (the empty
      directory part of a bare file name) and the root are always there;
    - [written]: every write of a file so far, oldest first;
    - [torchscript_fault], [onnx_fault]: the exception that tracing and saving
      a TorchScript module, respectively the ONNX export, raise in this
      environment, if any. *)
Record world : Type := mk_world {
  maya : scene;
  clock : nat;
  files : gmap string file;
  written : list (string * file);
  torchscript_fault : option exn;
  onnx_fault : option exn
}.

Definition set_maya (sc : scene) (w : world) : world :=
  mk_world sc (clock w) (files w) (written w) (torchscript_fault w) (onnx_fault w).
Definition set_clock (t : nat) (w : world) : world :=
  mk_world (maya w) t (files w) (written w) (torchscript_fault w) (onnx_fault w).
Definition add_file (path : string) (f : file) (w : world) : world :=
  mk_world (maya w) (clock w) (<[path := f]> (files w)) (written w ++ [(path, f)])
    (torchscript_fault w) (onnx_fault w).

(** [datetime.now()]: time passes between two readings. *)
Definition datetime_now : M world nat :=
  w <- get ;;
  put (set_clock (S (clock w)) w) ;;
  ret (clock w).

(** [.isoformat()] *)
Definition isoformat (t : nat) : string := pretty t.

(** ** Opening a file for writing, and making directories *)

Definition is_slash (c : ascii) : bool := bool_decide (c = slash).

(** A path of slashes only names the root. *)
Definition is_root (p : string) : bool :=
  negb (bool_decide (p = "")) && forallb is_slash (chars p).

(** The path without its trailing slashes. *)
Definition strip_slashes (p : string) : string :=
  if is_root p then p
  else text (reverse (drop_while is_slash (reverse (chars p)))).

(** The error of opening [path] for writing, if there is one: a path that names
    a directory ([IsADirectoryError]), a directory part that is a file
    ([NotADirectoryError]) or that does not exist ([FileNotFoundError]). *)
Definition write_error (w : world) (path : string) : option exn :=
  if bool_decide (path = "") then Some (FileNotFoundError path)
  else if ends_with "/" path then Some (IsADirectoryError path)
  else
    match files w !! path with
    | Some Directory => Some (IsADirectoryError path)
    | _ =>
        let d := dirname path in
        if bool_decide (d = "") || is_root d then None
        else
          match files w !! d with
          | Some Directory => None
          | Some _ => Some (NotADirectoryError path)
          | None => Some (FileNotFoundError path)
          end
    end.

(** Writing a file: [open(path, 'w')], [np.savez_compressed], [torch.save].
    Nothing is written when the file cannot be opened.  The error is the one
    [open] raises; the class of the error [torch.save] reports for the same
    cause differs between versions of the library, and no statement about a
    checkpoint names it. *)
Definition write_file (path : string) (f : file) : M world unit :=
  w <- get ;;
  match write_error w path with
  | Some e => raise e
  | None => put (add_file path f w)
  end.

Definition add_dir (path : string) (w : world) : world :=
  mk_world (maya w) (clock w) (<[path := Directory]> (files w)) (written w)
    (torchscript_fault w) (onnx_fault w).

(** What [os.makedirs(p, exist_ok=True)] does for a path [p] without trailing
    slashes: a directory that is there is left alone; a file in its place is a
    [FileExistsError]; otherwise the directory part is made first, unless it is
    there, and a file in the place of the directory part is a
    [NotADirectoryError].  Each step up shortens the path, so its length is
    enough fuel. *)
Fixpoint makedirs_from (fuel : nat) (p : string) (w : world) : exn + world :=
  match fuel with
  | O => inr w
  | S fuel' =>
      if is_root p then inr w
      else
        match files w !! p with
        | Some Directory => inr w
        | Some _ => inl (FileExistsError p)
        | None =>
            let head := dirname p in
            if bool_decide (head = "") || is_root head then inr (add_dir p w)
            else
              match makedirs_from fuel' head w with
              | inl (FileExistsError _) => inl (NotADirectoryError p)
              | inl e => inl e
              | inr w' => inr (add_dir p w')
              end
        end
  end.

(** [os.makedirs(path, exist_ok=True)] *)
Definition os_makedirs (path : string) : M world unit :=
  if bool_decide (path = "") then raise (FileNotFoundError path)
  else
    w <- get ;;
    match makedirs_from (S (String.length path)) (strip_slashes path) w with
    | inl e => raise e
    | inr w' => put w'
    end.

(** Where [np.savez_compressed(filepath, ...)] writes: it appends [.npz] to a
    name that does not end with it. *)
Definition npz_path (filepath : string) : string :=
  if ends_with ".npz" filepath then filepath else String.append filepath ".npz".

Definition np_savez_compressed (filepath : string) (arrays : gmap string npz_entry)
  : M world unit :=
  write_file (npz_path filepath) (NpzFile arrays).

(** [np.load(path)]: the archive at exactly that path. *)
Definition np_load (path : string) : M world (gmap string npz_entry) :=
  w <- get ;;
  match files w !! path with
  | None => raise (FileNotFoundError path)
  | Some (NpzFile arrays) => ret arrays
  | Some Directory => raise (IsADirectoryError path)
  | Some _ => raise (ValueError "not an npz archive")
  end.

(** ** [maya.cmds] and the mesh queries of [maya.api.OpenMaya] *)

Definition cmds_getAttr (name : string) : M world float :=
  w <- get ;;
  from_option (attrs (maya w) !! name) (ValueError "No object matches name").

Definition cmds_setAttr (name : string) (value : float) : M world unit :=
  w <- get ;;
  match attrs (maya w) !! name with
  | None => raise (RuntimeError "setAttr: No object matches name")
  | Some _ =>
      put (set_maya (mk_scene (<[name := value]> (attrs (maya w))) (meshes (maya w))) w)
  end.

(** [cmds.refresh()]: the points of a mesh are a function of the attributes, so
    there is nothing to bring up to date. *)
Definition cmds_refresh : M world unit := ret tt.

Definition cmds_objExists (name : string) : M world bool :=
  w <- get ;;
  ret (bool_decide (is_Some (meshes (maya w) !! name))).

(** [MFnMesh(dag_path).getPoints(om.MSpace.kWorld)] on the mesh of that name. *)
Definition mesh_getPoints (mesh : string) : M world (list point) :=
  w <- get ;;
  match meshes (maya w) !! mesh with
  | None => raise (RuntimeError "(kInvalidParameter): Object does not exist")
  | Some evaluate => ret (evaluate (attrs (maya w)))
  end.

(** [cmds.polyEvaluate(mesh, vertex=True)] *)
Definition cmds_polyEvaluate_vertex (mesh : string) : M world nat :=
  points <- mesh_getPoints mesh ;;
  ret (length points).

End World.

(* ===================================================================== *)
(** * The sample store and the pose sampler: [utils/data_collector.py] *)
(* ===================================================================== *)

Module Collector.
Import Np World.

(** One captured sample: the dictionary [capture_sample] builds. *)
Record sample : Type := mk_sample {
  joint_angles : list float;
  vertex_deltas : list point;
  timestamp : string
}.

(** The fields of a [DataCollector]. *)
Record DataCollector : Type := mk_collector {
  base_mesh : string;
  joints : list string;
  corrective_mesh : option string;
  samples : list sample;
  num_vertices : nat
}.

Definition set_samples (l : list sample) (c : DataCollector) : DataCollector :=
  mk_collector (base_mesh c) (joints c) (corrective_mesh c) l (num_vertices c).

(** [_get_vertex_count] *)
Definition _get_vertex_count (mesh : string) : M world nat :=
  cmds_polyEvaluate_vertex mesh.

(** [DataCollector.__init__] *)
Definition DataCollector_init (base_mesh : string) (joints : list string)
  (corrective_mesh : option string) : M world DataCollector :=
  num_vertices <- _get_vertex_count base_mesh ;;
  print "DataCollector initialized:" ;;
  ret (mk_collector base_mesh joints corrective_mesh [] num_vertices).

(** The loop of [_get_joint_angles]: three attribute reads per joint, appended
    to [angles]. *)
Fixpoint joint_angles_loop (joints : list string) (angles : list float)
  : M world (list float) :=
  match joints with
  | [] => ret angles
  | joint :: rest =>
      rx <- cmds_getAttr (String.append joint ".rotateX") ;;
      ry <- cmds_getAttr (String.append joint ".rotateY") ;;
      rz <- cmds_getAttr (String.append joint ".rotateZ") ;;
      joint_angles_loop rest (angles ++ [rx; ry; rz])
  end.

Definition _get_joint_angles (c : DataCollector) : M world (list float) :=
  joint_angles_loop (joints c) [].

(** [_get_vertex_positions] *)
Definition _get_vertex_positions (mesh : string) : M world (list point) :=
  mesh_getPoints mesh.

(** [_calculate_vertex_deltas] *)
Definition _calculate_vertex_deltas (base_positions corrective_positions : list point)
  : M world (list point) :=
  sub_points corrective_positions base_positions.

(** The truth value of an optional mesh name: [None] and the empty string are
    false. *)
Definition truthy (o : option string) : bool :=
  match o with
  | Some s => negb (bool_decide (s = ""))
  | None => false
  end.

(** [a or b] *)
Definition py_or (a b : option string) : option string :=
  if truthy a then a else b.

(** The branch of [capture_sample] that computes the deltas: against the target
    mesh when there is one and it exists, zero otherwise. *)
Definition sample_vertex_deltas (target_mesh : option string)
  (base_positions : list point) : M world (list point) :=
  match target_mesh with
  | Some t =>
      if truthy target_mesh then
        found <- cmds_objExists t ;;
        if (found : bool) then
          corrective_positions <- _get_vertex_positions t ;;
          _calculate_vertex_deltas base_positions corrective_positions
        else ret (zeros_like base_positions)
      else ret (zeros_like base_positions)
  | None => ret (zeros_like base_positions)
  end.

(** [capture_sample].  The updated collector is returned with the sample. *)
Definition capture_sample (c : DataCollector) (corrective_mesh_arg : option string)
  : M world (DataCollector * sample) :=
  joint_angles <- _get_joint_angles c ;;
  base_positions <- _get_vertex_positions (base_mesh c) ;;
  let target_mesh := py_or corrective_mesh_arg (corrective_mesh c) in
  vertex_deltas <- sample_vertex_deltas target_mesh base_positions ;;
  now <- datetime_now ;;
  let sample := mk_sample joint_angles vertex_deltas (isoformat now) in
  let c := set_samples (samples c ++ [sample]) c in
  print "Captured sample" ;;
  ret (c, sample).

(** [capture_pose_range] *)
Definition capture_pose_range (c : DataCollector) (joint axis : string)
  (start stop : float) (steps : Z) : M world DataCollector :=
  print "Capturing pose range" ;;
  let channel := String.append joint (String.append "." axis) in
  original_value <- cmds_getAttr channel ;;
  angles <- linspace start stop steps ;;
  c <- fold_each angles c
         (fun c angle =>
            cmds_setAttr channel angle ;;
            cmds_refresh ;;
            r <- capture_sample c None ;;
            print "Progress" ;;
            ret (fst r)) ;;
  cmds_setAttr channel original_value ;;
  print "Captured samples" ;;
  ret c.


(** [np.array(self.joints)]: an array of strings, or the empty float array for
    an empty list. *)
Definition names_entry (names : list string) : npz_entry :=
  match names with
  | [] => FloatArray (mk_ndarray [0%nat] [])
  | _ => StrArray names
  end.

(** [filepath.replace('.npz', '_metadata.json')] *)
Definition metadata_path (filepath : string) : string :=
  str_replace ".npz" "_metadata.json" filepath.

(** [save_dataset] *)
Definition save_dataset (c : DataCollector) (filepath : string) : M world unit :=
  match samples c with
  | [] => print "No samples to save!"
  | _ :: _ =>
      joint_angles <- array2 (joint_angles <$> samples c) ;;
      vertex_deltas <- array3 (vertex_deltas <$> samples c) ;;
      let joint_angles_normalized := map_array deg2rad joint_angles in
      let joint_angles_normalized :=
        map_array (fun x => fdiv x pi) joint_angles_normalized in
      os_makedirs (dirname filepath) ;;
      np_savez_compressed filepath
        (<["num_vertices" := IntScalar (Z.of_nat (num_vertices c))]>
           (<["joint_names" := names_entry (joints c)]>
              (<["vertex_deltas" := FloatArray vertex_deltas]>
                 (<["joint_angles" := FloatArray joint_angles_normalized]> ∅)))) ;;
      print "Dataset saved" ;;
      now <- datetime_now ;;
      let metadata :=
        [ ("num_samples", JInt (Z.of_nat (length (samples c))));
          ("num_joints", JInt (Z.of_nat (length (joints c))));
          ("joint_names", JList (JStr <$> joints c));
          ("num_vertices", JInt (Z.of_nat (num_vertices c)));
          ("base_mesh", JStr (base_mesh c));
          ("creation_date", JStr (isoformat now)) ] in
      write_file (metadata_path filepath) (JsonFile metadata) ;;
      print "Metadata saved"
  end.

(** [clear_samples] *)
Definition clear_samples (c : DataCollector) : DataCollector := set_samples [] c.

End Collector.

(* ===================================================================== *)
(** * Loading, training and export: [ml_training/train.py] *)
(* ===================================================================== *)

Module Train.
Import Np World Model.

(** ** [CorrectiveDeformerDataset] *)

Record Dataset : Type := mk_dataset {
  ds_joint_angles : ndarray;
  ds_vertex_deltas : ndarray;
  ds_num_samples : nat;
  ds_num_joints : nat;
  ds_num_vertices : nat
}.

(** [data[key]] on a loaded archive. *)
Definition npz_getitem (data : gmap string npz_entry) (key : string)
  : M world npz_entry :=
  from_option (data !! key) (KeyError key).

(** [torch.FloatTensor(array)]: the single-precision tensor of a numeric array;
    anything else is refused. *)
Definition torch_FloatTensor (e : npz_entry) : M world ndarray :=
  match e with
  | FloatArray a => ret (map_array to_single a)
  | _ => raise (TypeError "can't convert np.ndarray of this type")
  end.

(** [len(tensor)] *)
Definition tensor_len (a : ndarray) : M world nat :=
  match shape a with
  | [] => raise (TypeError "len() of a 0-d tensor")
  | n :: _ => ret n
  end.

(** [tensor.shape[i]] *)
Definition shape_at (a : ndarray) (i : nat) : M world nat :=
  from_option (shape a !! i) (IndexError "tuple index out of range").

(** [CorrectiveDeformerDataset.__init__] *)
Definition CorrectiveDeformerDataset_init (data_file : string) : M world Dataset :=
  data <- np_load data_file ;;
  raw_angles <- npz_getitem data "joint_angles" ;;
  joint_angles <- torch_FloatTensor raw_angles ;;
  raw_deltas <- npz_getitem data "vertex_deltas" ;;
  vertex_deltas <- torch_FloatTensor raw_deltas ;;
  num_samples <- tensor_len joint_angles ;;
  num_joints <- shape_at joint_angles 1 ;;
  num_vertices <- shape_at vertex_deltas 1 ;;
  print "Loaded dataset" ;;
  ret (mk_dataset joint_angles vertex_deltas num_samples num_joints num_vertices).

(** ** [Trainer] *)

(** What the tensor library does for the trainer.  A data loader is the list of
    the batches it yields.

    - [initial_state m]: the parameters of a freshly built model and the state
      of a fresh optimizer with its scheduler;
    - [fit_batch]: one optimisation step on a batch ([zero_grad], forward pass,
      loss, [backward], [step]) and the value of [loss.item()];
    - [eval_batch]: the loss of a batch without an update;
    - [scheduler_step]: [ReduceLROnPlateau.step(val_loss)];
    - [make_loaders ds train_size val_size batch_size]: [random_split] and the two
      [DataLoader]s. *)
Record backend : Type := mk_backend {
  batch : Type;
  initial_state : module -> state_dict * state_dict;
  fit_batch : module -> state_dict * state_dict -> batch ->
              exn + (state_dict * state_dict * float);
  eval_batch : module -> state_dict -> batch -> exn + float;
  scheduler_step : state_dict -> float -> state_dict;
  make_loaders : Dataset -> Z -> Z -> Z -> exn + (list batch * list batch)
}.

(** The fields of a [Trainer] that the methods use: the model with its
    parameters, the optimizer with its scheduler, the loss histories and the best
    validation loss. *)
Record Trainer : Type := mk_trainer {
  model : module;
  parameters : state_dict;
  optimizer : state_dict;
  train_losses : list float;
  val_losses : list float;
  best_val_loss : float
}.

Definition set_learner (ps : state_dict * state_dict) (t : Trainer) : Trainer :=
  mk_trainer (model t) (fst ps) (snd ps) (train_losses t) (val_losses t)
    (best_val_loss t).
Definition set_optimizer (o : state_dict) (t : Trainer) : Trainer :=
  mk_trainer (model t) (parameters t) o (train_losses t) (val_losses t)
    (best_val_loss t).
Definition append_train_loss (x : float) (t : Trainer) : Trainer :=
  mk_trainer (model t) (parameters t) (optimizer t) (train_losses t ++ [x])
    (val_losses t) (best_val_loss t).
Definition append_val_loss (x : float) (t : Trainer) : Trainer :=
  mk_trainer (model t) (parameters t) (optimizer t) (train_losses t)
    (val_losses t ++ [x]) (best_val_loss t).
Definition set_best_val_loss (x : float) (t : Trainer) : Trainer :=
  mk_trainer (model t) (parameters t) (optimizer t) (train_losses t)
    (val_losses t) x.

Section WithBackend.
Variable torch : backend.

(** [Trainer.__init__]: empty histories, [best_val_loss = float('inf')]. *)
Definition Trainer_init (m : module) : M world Trainer :=
  let st := initial_state torch m in
  print "Training on device" ;;
  ret (mk_trainer m (fst st) (snd st) [] [] PrimFloat.infinity).

(** [total / len(loader)]: Python refuses to divide by zero. *)
Definition mean_loss (total_loss : float) (n : nat) : M world float :=
  if decide (n = 0%nat) then raise ZeroDivisionError
  else ret (fdiv total_loss (of_nat n)).

(** [train_epoch] *)
Definition train_epoch (t : Trainer) (train_loader : list (batch torch))
  : M world (Trainer * float) :=
  r <- fold_each train_loader (t, fzero)
         (fun acc b =>
            let '(t, total_loss) := acc in
            step <- lift_result (fit_batch torch (model t) (parameters t, optimizer t) b) ;;
            let '(ps, os, loss) := step in
            ret (set_learner (ps, os) t, fadd total_loss loss)) ;;
  avg <- mean_loss (snd r) (length train_loader) ;;
  ret (fst r, avg).

(** [validate] *)
Definition validate (t : Trainer) (val_loader : list (batch torch)) : M world float :=
  total_loss <- fold_each val_loader fzero
         (fun total_loss b =>
            loss <- lift_result (eval_batch torch (model t) (parameters t) b) ;;
            ret (fadd total_loss loss)) ;;
  mean_loss total_loss (length val_loader).

(** [save_checkpoint] *)
Definition save_checkpoint (t : Trainer) (save_dir filename : string) (epoch : Z)
  (val_loss : float) : M world unit :=
  let checkpoint :=
    mk_checkpoint epoch (parameters t) (optimizer t) val_loss
      (train_losses t) (val_losses t) in
  write_file (path_join save_dir filename) (CheckpointFile checkpoint).

(** [f'checkpoint_epoch_{epoch+1}.pth'] *)
Definition periodic_name (epoch : Z) : string :=
  String.append "checkpoint_epoch_" (String.append (pretty (epoch + 1)) ".pth").

(** The body of the loop [for epoch in range(num_epochs)] of [train]. *)
Definition train_one_epoch (train_loader val_loader : list (batch torch))
  (save_dir : string) (t : Trainer) (epoch : Z) : M world Trainer :=
  r <- train_epoch t train_loader ;;
  let t := fst r in
  let train_loss := snd r in
  let t := append_train_loss train_loss t in
  val_loss <- validate t val_loader ;;
  let t := append_val_loss val_loss t in
  let t := set_optimizer (scheduler_step torch (optimizer t) val_loss) t in
  print "Epoch" ;;
  t <- (if fltb val_loss (best_val_loss t) then
          let t := set_best_val_loss val_loss t in
          save_checkpoint t save_dir "best_model.pth" epoch val_loss ;;
          print "Saved best model" ;;
          ret t
        else ret t) ;;
  (if decide ((epoch + 1) mod 10 = 0)
   then save_checkpoint t save_dir (periodic_name epoch) epoch val_loss
   else ret tt) ;;
  ret t.

(** [range(num_epochs)] *)
Definition py_range (n : Z) : list Z := Z.of_nat <$> seq 0 (Z.to_nat n).

(** The loop of [train]. *)
Definition train_epochs (t : Trainer) (train_loader val_loader : list (batch torch))
  (num_epochs : Z) (save_dir : string) : M world Trainer :=
  fold_each (py_range num_epochs) t (train_one_epoch train_loader val_loader save_dir).

(** [torch.randn(1, num_joints)]: a negative size is refused. *)
Definition torch_randn (num_joints : Z) : M world unit :=
  if (num_joints <? 0)%Z
  then raise (RuntimeError "Trying to create tensor with negative dimension")
  else ret tt.

(** [export_for_maya] *)
Definition export_for_maya (t : Trainer) (save_dir : string) : M world unit :=
  num_joints <- getattr (model t) "num_joints" ;;
  torch_randn num_joints ;;
  try_except
    (w <- get ;;
     match torchscript_fault w with
     | Some e => raise e
     | None =>
         write_file (path_join save_dir "model_torchscript.pt")
           (TorchScriptFile (model t) (parameters t)) ;;
         print "Exported TorchScript model"
     end)
    (fun e => print "Failed to export TorchScript") ;;
  try_except
    (w <- get ;;
     match onnx_fault w with
     | Some e => raise e
     | None =>
         write_file (path_join save_dir "model.onnx")
           (OnnxFile (model t) (parameters t)) ;;
         print "Exported ONNX model"
     end)
    (fun e => print "Failed to export ONNX") ;;
  num_vertices <- getattr (model t) "num_vertices" ;;
  now <- datetime_now ;;
  let metadata :=
    [ ("num_joints", JInt num_joints);
      ("num_vertices", JInt num_vertices);
      ("best_val_loss", JFloat (best_val_loss t));
      ("export_date", JStr (isoformat now)) ] in
  write_file (path_join save_dir "model_metadata.json") (JsonFile metadata) ;;
  print "Saved metadata".

(** [train] *)
Definition train (t : Trainer) (train_loader val_loader : list (batch torch))
  (num_epochs : Z) (save_dir : string) : M world Trainer :=
  os_makedirs save_dir ;;
  print "Starting training" ;;
  t <- train_epochs t train_loader val_loader num_epochs save_dir ;;
  print "Training completed!" ;;
  export_for_maya t save_dir ;;
  ret t.

(** [int(x)] for a float: truncation towards zero; infinities and NaN are
    refused. *)
Definition py_int (x : float) : M world Z :=
  match Prim2SF x with
  | S754_zero _ => ret 0
  | S754_finite s m e =>
      let v := if (0 <=? e)%Z then Zpos m * 2 ^ e else Zpos m / 2 ^ (- e) in
      ret (if s then - v else v)
  | S754_infinity _ => raise (ValueError "cannot convert float infinity to integer")
  | S754_nan => raise (ValueError "cannot convert float NaN to integer")
  end.

(** [train_corrective_deformer], with the faults of the layer constructors as
    [Model.create_model] takes them. *)
Definition train_corrective_deformer
  (linear_fault xavier_fault : Z -> Z -> option exn)
  (data_file save_dir model_type : string) (num_epochs batch_size : Z)
  (val_split : float) : M world Trainer :=
  dataset <- CorrectiveDeformerDataset_init data_file ;;
  val_size <- py_int (fmul (of_nat (ds_num_samples dataset)) val_split) ;;
  let train_size := Z.of_nat (ds_num_samples dataset) - val_size in
  loaders <- lift_result (make_loaders torch dataset train_size val_size batch_size) ;;
  m <- create_model linear_fault xavier_fault model_type
         (Z.of_nat (ds_num_joints dataset)) (Z.of_nat (ds_num_vertices dataset))
         no_kwargs ;;
  trainer <- Trainer_init m ;;
  train trainer (fst loaders) (snd loaders) num_epochs save_dir.

End WithBackend.

End Train.

(* ===================================================================== *)
(** * The items of a dataset: [__len__] and [__getitem__] *)
(* ===================================================================== *)

Module DatasetItems.
Import Np World Train.

(** [tensor[idx]] for an integer index: the slice at [idx] along the first
    dimension; a negative index counts from the end, and an index outside the
    dimension is an [IndexError]. *)
Definition tensor_getitem (a : ndarray) (idx : Z) : M world ndarray :=
  match shape a with
  | [] => raise (IndexError "invalid index of a 0-dim tensor")
  | n :: rest =>
      let i := if (idx <? 0)%Z then (idx + Z.of_nat n)%Z else idx in
      if (0 <=? i)%Z && (i <? Z.of_nat n)%Z then
        let size := foldr Nat.mul 1%nat rest in
        ret (mk_ndarray rest (take size (drop (Z.to_nat i * size) (entries a))))
      else raise (IndexError "index is out of bounds for dimension 0")
  end.

(** [CorrectiveDeformerDataset.__len__] *)
Definition Dataset_len (ds : Dataset) : nat := ds_num_samples ds.

(** [CorrectiveDeformerDataset.__getitem__] *)
Definition Dataset_getitem (ds : Dataset) (idx : Z) : M world (ndarray * ndarray) :=
  joint_angles <- tensor_getitem (ds_joint_angles ds) idx ;;
  vertex_deltas <- tensor_getitem (ds_vertex_deltas ds) idx ;;
  ret (joint_angles, vertex_deltas).

End DatasetItems.

Import Py Np.

(* ===================================================================== *)
(** * Reasoning about computations *)
(* ===================================================================== *)

Module PyFacts.

Lemma bind_run {S A B} (m : M S A) (k : A -> M S B) s :
  bind m k s =
    match m s with
    | (Returned a, s1) => k a s1
    | (Raised e, s1) => (Raised e, s1)
    | (Timeout, s1) => (Timeout, s1)
    end.
Proof. done. Qed.

Lemma fold_each_cons {S A B} (x : A) (xs : list A) (acc : B) (body : B -> A -> M S B) :
  fold_each (x :: xs) acc body = bind (body acc x) (fun acc' => fold_each xs acc' body).
Proof. done. Qed.

Lemma fold_each_nil {S A B} (acc : B) (body : B -> A -> M S B) :
  fold_each [] acc body = ret acc.
Proof. done. Qed.

Lemma bind_ret_l {S A B} (a : A) (k : A -> M S B) s : bind (ret a) k s = k a s.
Proof. done. Qed.

Lemma ret_run {S A} (a : A) (s : S) : ret a s = (Returned a, s).
Proof. done. Qed.

Lemma print_run {S} (msg : string) (s : S) : print msg s = (Returned tt, s).
Proof. done. Qed.

Ltac run_py := repeat first [ rewrite bind_run | progress simpl ].

(** [stateless m]: [m] never touches the world and never runs out of fuel. *)
Definition stateless {S A} (m : M S A) : Prop :=
  forall s, (m s).2 = s /\ (m s).1 <> Timeout.

Lemma stateless_ret {S A} (a : A) : stateless (ret a : M S A).
Proof. by intros s. Qed.

Lemma stateless_raise {S A} e : stateless (raise e : M S A).
Proof. by intros s. Qed.

Lemma stateless_get {S} : stateless (get : M S S).
Proof. by intros s. Qed.

Lemma stateless_from_option {S A} (o : option A) e : stateless (from_option o e : M S A).
Proof. destruct o; by intros s. Qed.

Lemma stateless_bind {S A B} (m : M S A) (k : A -> M S B) :
  stateless m -> (forall a, stateless (k a)) -> stateless (bind m k).
Proof.
  intros Hm Hk s. unfold bind. destruct (Hm s) as [Hs Ht].
  destruct (m s) as [[a|e|] s1]; simpl in *; subst; [apply Hk | done | done].
Qed.

(** The three ways a stateless computation ends. *)
Lemma stateless_cases {S A} (m : M S A) s :
  stateless m ->
  (exists a, m s = (Returned a, s)) \/ (exists e, m s = (Raised e, s)).
Proof.
  intros Hm. destruct (Hm s) as [Hs Ht].
  destruct (m s) as [[a|e|] s1]; simpl in *; subst; [left | right | done]; eauto.
Qed.

End PyFacts.

Import PyFacts.

(* ===================================================================== *)
(** * The file system *)
(* ===================================================================== *)

Module FileFacts.
Import World.

Lemma write_file_run (path : string) (f : file) (w : world) :
  write_file path f w =
    match write_error w path with
    | Some e => (Raised e, w)
    | None => (Returned tt, add_file path f w)
    end.
Proof. unfold write_file. rewrite bind_run. simpl. by destruct (write_error w path). Qed.

Lemma write_file_ok (path : string) (f : file) (w : world) :
  write_error w path = None ->
  write_file path f w = (Returned tt, add_file path f w).
Proof. intros H. by rewrite write_file_run, H. Qed.

Lemma write_file_fails (path : string) (f : file) (w : world) (e : exn) :
  write_error w path = Some e ->
  write_file path f w = (Raised e, w).
Proof. intros H. by rewrite write_file_run, H. Qed.

(** Only the files decide whether a path can be written. *)
Lemma write_error_files (w w' : world) (path : string) :
  files w' = files w -> write_error w' path = write_error w path.
Proof. intros H. unfold write_error. by rewrite H. Qed.

(** A path that can be opened is not a directory. *)
Lemma write_error_not_directory (w : world) (path : string) :
  write_error w path = None -> files w !! path <> Some Directory.
Proof.
  unfold write_error. intros H Hd. rewrite Hd in H.
  destruct (bool_decide (path = "")); [done|].
  by destruct (ends_with "/" path).
Qed.

(** Writing a file does not take away the means to write another one. *)
Lemma write_error_add_file (w : world) (p q : string) (f : file) :
  write_error w p = None -> f <> Directory -> write_error w q = None ->
  write_error (add_file p f w) q = None.
Proof.
  intros Hp Hf Hq. pose proof (write_error_not_directory _ _ Hp) as Hnd.
  unfold write_error in *. simpl.
  destruct (bool_decide (q = "")); [done|].
  destruct (ends_with "/" q); [done|].
  assert (Hlook : forall r, files w !! r <> Some Directory ->
            <[p:=f]> (files w) !! r <> Some Directory).
  { intros r Hr. destruct (decide (p = r)) as [->|Hne].
    - rewrite lookup_insert_eq. congruence.
    - by rewrite lookup_insert_ne. }
  destruct (files w !! q) as [fq|] eqn:Eq.
  - assert (Hfq : fq <> Directory) by (intros ->; done).
    assert (H1 : <[p:=f]> (files w) !! q <> Some Directory)
      by (apply Hlook; congruence).
    assert (Hrest :
      (if bool_decide (dirname q = "") || is_root (dirname q) then None
       else match <[p:=f]> (files w) !! dirname q with
            | Some Directory => None
            | Some _ => Some (NotADirectoryError q)
            | None => Some (FileNotFoundError q)
            end) = None).
    { destruct (bool_decide (dirname q = "") || is_root (dirname q)); [done|].
      destruct fq; try done;
        (destruct (files w !! dirname q) as [[]|] eqn:Ed; try done;
         destruct (decide (p = dirname q)) as [->|Hne];
         [congruence | by rewrite lookup_insert_ne, Ed]). }
    destruct (<[p:=f]> (files w) !! q) as [[]|]; done.
  - assert (Hrest :
      (if bool_decide (dirname q = "") || is_root (dirname q) then None
       else match <[p:=f]> (files w) !! dirname q with
            | Some Directory => None
            | Some _ => Some (NotADirectoryError q)
            | None => Some (FileNotFoundError q)
            end) = None).
    { destruct (bool_decide (dirname q = "") || is_root (dirname q)); [done|].
      destruct (files w !! dirname q) as [[]|] eqn:Ed; try done.
      destruct (decide (p = dirname q)) as [->|Hne];
        [congruence | by rewrite lookup_insert_ne, Ed]. }
    assert (H1 : <[p:=f]> (files w) !! q <> Some Directory).
    { apply Hlook. congruence. }
    destruct (<[p:=f]> (files w) !! q) as [[]|]; done.
Qed.

(** Making directories writes no file and leaves the scene, the clock and the
    environment alone. *)
Lemma makedirs_from_frame (fuel : nat) (p : string) (w w' : world) :
  makedirs_from fuel p w = inr w' ->
  maya w' = maya w /\ clock w' = clock w /\ written w' = written w /\
  torchscript_fault w' = torchscript_fault w /\ onnx_fault w' = onnx_fault w /\
  (forall q f, files w !! q = Some f -> files w' !! q = Some f).
Proof.
  revert p w'. induction fuel as [|fuel IH]; intros p w'; simpl.
  { by intros [= <-]. }
  destruct (is_root p); [by intros [= <-]|].
  destruct (files w !! p) as [[]|] eqn:Ep; try done; try by intros [= <-].
  destruct (bool_decide (dirname p = "") || is_root (dirname p)).
  { intros [= <-]. simpl. split_and!; try done.
    intros q f Hq. rewrite lookup_insert_ne; [done|]. intros ->. congruence. }
  destruct (makedirs_from fuel (dirname p) w) as [e|w1] eqn:E.
  { by destruct e. }
  intros [= <-]. destruct (IH _ _ E) as (H1 & H2 & H3 & H4 & H5 & H6).
  simpl. split_and!; try done.
  intros q f Hq. destruct (decide (p = q)) as [->|Hne].
  - congruence.
  - rewrite lookup_insert_ne by done. by apply H6.
Qed.

Lemma datetime_now_run (w : world) :
  datetime_now w = (Returned (clock w), set_clock (S (clock w)) w).
Proof. done. Qed.

Lemma os_makedirs_run (d : string) (w : world) :
  os_makedirs d w =
    if bool_decide (d = "") then (Raised (FileNotFoundError d), w)
    else
      match makedirs_from (S (String.length d)) (strip_slashes d) w with
      | inl e => (Raised e, w)
      | inr w' => (Returned tt, w')
      end.
Proof.
  unfold os_makedirs. destruct (bool_decide (d = "")); [done|].
  rewrite bind_run. change (get w) with (Returned w, w). cbv beta iota.
  by destruct (makedirs_from (S (String.length d)) (strip_slashes d) w).
Qed.

Lemma os_makedirs_frame (d : string) (w w' : world) (o : outcome unit) :
  os_makedirs d w = (o, w') ->
  maya w' = maya w /\ clock w' = clock w /\ written w' = written w /\
  torchscript_fault w' = torchscript_fault w /\ onnx_fault w' = onnx_fault w /\
  (forall q f, files w !! q = Some f -> files w' !! q = Some f).
Proof.
  rewrite os_makedirs_run. destruct (bool_decide (d = "")).
  { by intros [= <- <-]. }
  destruct (makedirs_from _ _ w) as [e|w1] eqn:E.
  { by intros [= <- <-]. }
  intros [= <- <-]. by eapply makedirs_from_frame.
Qed.

Lemma os_makedirs_not_timeout (d : string) (w : world) :
  (os_makedirs d w).1 <> Timeout.
Proof.
  rewrite os_makedirs_run. destruct (bool_decide (d = "")); [done|].
  by destruct (makedirs_from _ _ w).
Qed.

(** A failing [os.makedirs] changes nothing. *)
Lemma os_makedirs_raises (d : string) (w w' : world) (e : exn) :
  os_makedirs d w = (Raised e, w') -> w' = w.
Proof.
  rewrite os_makedirs_run. destruct (bool_decide (d = "")).
  { by intros [= <- <-]. }
  destruct (makedirs_from _ _ w) as [e'|w1] eqn:E; [by intros [= <- <-] | done].
Qed.

Lemma os_makedirs_empty (w : world) :
  os_makedirs "" w = (Raised (FileNotFoundError ""), w).
Proof. done. Qed.

Lemma os_makedirs_returns_nonempty (d : string) (w w' : world) :
  os_makedirs d w = (Returned tt, w') -> d <> "".
Proof. intros H ->. done. Qed.

(** Running a computation up to its next choice. *)
Ltac step_py :=
  repeat first [ rewrite bind_run | rewrite print_run | rewrite ret_run
               | rewrite write_file_run | rewrite datetime_now_run
               | progress cbv beta iota ].

End FileFacts.

Import FileFacts.

(* ===================================================================== *)
(** * The deformer *)
(* ===================================================================== *)

Local Close Scope Z_scope.

Module DeformerFacts.
Import Deformer PyFacts.

(** ** The discipline every piece of [deform] keeps

    A computation is [disciplined] when it leaves the data block, the fault plan
    and the number of elements alone, only adds host calls, and stops at the first
    call that faults: a faulting call is the last one made, and the outcome is the
    exception. *)
Definition disciplined {A} (m : M host A) : Prop :=
  forall h r h', m h = (r, h') ->
    block h' = block h /\ faults h' = faults h /\ (calls h <= calls h')%nat /\
    length (geometry h') = length (geometry h) /\
    forall j, (calls h <= j < calls h')%nat -> is_Some (faults h j) ->
      S j = calls h' /\ exists e, r = Raised e.

(** An operation inside the host: it makes no further host call. *)
Definition internal {A} (op : M host A) : Prop :=
  forall h r h', op h = (r, h') ->
    block h' = block h /\ faults h' = faults h /\ calls h' = calls h /\
    length (geometry h') = length (geometry h).

Lemma disciplined_ret {A} (a : A) : disciplined (ret a : M host A).
Proof.
  intros h r h' [= <- <-]. split_and!; auto. intros j Hj. lia.
Qed.

Lemma disciplined_timeout {A} : disciplined (timeout : M host A).
Proof.
  intros h r h' [= <- <-]. split_and!; auto. intros j Hj. lia.
Qed.

Lemma disciplined_from_option {A} (o : option A) e :
  disciplined (from_option o e : M host A).
Proof.
  destruct o; intros h r h' [= <- <-]; split_and!; auto; intros j Hj; lia.
Qed.

Lemma disciplined_bind {A B} (m : M host A) (k : A -> M host B) :
  disciplined m -> (forall a, disciplined (k a)) -> disciplined (bind m k).
Proof.
  intros Hm Hk h r h'. unfold bind.
  destruct (m h) as [r1 h1] eqn:E1.
  destruct (Hm _ _ _ E1) as (Hb & Hf & Hc & Hl & Hd).
  destruct r1 as [a|e|].
  - intros E2. destruct (Hk a _ _ _ E2) as (Hb' & Hf' & Hc' & Hl' & Hd').
    split_and!; try congruence; try lia.
    intros j Hj Hs.
    destruct (decide (j < calls h1)%nat) as [Hlt|Hge].
    + destruct (Hd j ltac:(lia) Hs) as (_ & e & He). discriminate.
    + rewrite Hf in Hd'. apply (Hd' j); [lia | done].
  - intros [= <- <-]. split_and!; auto.
    intros j Hj Hs. destruct (Hd j Hj Hs) as [? _]. eauto.
  - intros [= <- <-]. split_and!; auto.
    intros j Hj Hs. by destruct (Hd j Hj Hs) as (_ & e & ?).
Qed.

Lemma disciplined_host_call {A} (op : M host A) :
  internal op -> disciplined (host_call op).
Proof.
  intros Hop h r h'. unfold host_call.
  destruct (faults h (calls h)) as [e|] eqn:Ef.
  - intros [= <- <-]. simpl. split_and!; auto.
    intros j Hj _. split; [lia | eauto].
  - intros E. destruct (Hop _ _ _ E) as (Hb & Hf & Hc & Hl). simpl in *.
    split_and!; auto; try lia.
    intros j Hj Hs. assert (j = calls h) as -> by lia.
    rewrite Ef in Hs. by destruct Hs.
Qed.

Lemma internal_ret {A} (a : A) : internal (ret a : M host A).
Proof. by intros h r h' [= <- <-]. Qed.

Lemma internal_gets {A} (f : host -> A) : internal (gets f).
Proof. by intros h r h' [= <- <-]. Qed.

Lemma internal_from_option {A} (o : option A) e : internal (from_option o e : M host A).
Proof. destruct o; by intros h r h' [= <- <-]. Qed.

Lemma internal_bind {A B} (m : M host A) (k : A -> M host B) :
  internal m -> (forall a, internal (k a)) -> internal (bind m k).
Proof.
  intros Hm Hk h r h'. unfold bind.
  destruct (m h) as [r1 h1] eqn:E1.
  destruct (Hm _ _ _ E1) as (Hb & Hf & Hc & Hl).
  destruct r1 as [a|e|].
  - intros E2. destruct (Hk a _ _ _ E2) as (Hb' & Hf' & Hc' & Hl').
    split_and!; congruence.
  - by intros [= <- <-].
  - by intros [= <- <-].
Qed.

Lemma internal_geo_current : internal geo_current.
Proof.
  apply internal_bind; [apply internal_gets | intros; apply internal_from_option].
Qed.

Lemma internal_modify (f : host -> host) :
  (forall h, block (f h) = block h /\ faults (f h) = faults h /\
             calls (f h) = calls h /\ length (geometry (f h)) = length (geometry h)) ->
  internal (modify f).
Proof. intros Hf h r h' [= <- <-]. apply Hf. Qed.

Create HintDb discipline.
#[local] Hint Resolve disciplined_ret disciplined_timeout disciplined_from_option
  disciplined_host_call internal_ret internal_gets internal_from_option
  internal_geo_current : discipline.
#[local] Hint Extern 2 (disciplined (bind _ _)) =>
  apply disciplined_bind; [| intros ?] : discipline.
#[local] Hint Extern 2 (internal (bind _ _)) =>
  apply internal_bind; [| intros ?] : discipline.
#[local] Hint Extern 2 (internal (modify _)) =>
  apply internal_modify; intros ?; simpl; rewrite ?length_insert; done : discipline.

Lemma disciplined_inputValue {T} (a : attribute T) : disciplined (inputValue a).
Proof. unfold inputValue. auto with discipline. Qed.

Lemma disciplined_asFloat hd : disciplined (asFloat hd).
Proof. unfold asFloat. destruct hd. auto with discipline. Qed.

Lemma disciplined_asBool hd : disciplined (asBool hd).
Proof. unfold asBool. destruct hd. auto with discipline. Qed.

Lemma disciplined_geo_reset : disciplined geo_reset.
Proof. unfold geo_reset. auto with discipline. Qed.

Lemma disciplined_geo_isDone : disciplined geo_isDone.
Proof. unfold geo_isDone. auto with discipline. Qed.

Lemma disciplined_geo_next : disciplined geo_next.
Proof. unfold geo_next. auto with discipline. Qed.

Lemma disciplined_geo_index : disciplined geo_index.
Proof. unfold geo_index. auto with discipline. Qed.

Lemma disciplined_geo_position : disciplined geo_position.
Proof. unfold geo_position. auto with discipline. Qed.

Lemma disciplined_geo_setPosition p : disciplined (geo_setPosition p).
Proof. unfold geo_setPosition. auto with discipline. Qed.

#[local] Hint Resolve disciplined_inputValue disciplined_asFloat disciplined_asBool
  disciplined_geo_reset disciplined_geo_isDone disciplined_geo_next
  disciplined_geo_index disciplined_geo_position disciplined_geo_setPosition
  : discipline.

Section WithSine.
Variable np_sin : float -> float.

Lemma disciplined_correction_loop fuel pose cs :
  disciplined (correction_loop np_sin fuel pose cs).
Proof.
  revert cs. induction fuel as [|fuel IH]; intros cs; simpl.
  - auto with discipline.
  - apply disciplined_bind; [auto with discipline|]. intros [|].
    + auto with discipline.
    + unfold correction_iteration. auto 10 with discipline.
Qed.

Lemma disciplined_apply_iteration cs w : disciplined (apply_iteration cs w).
Proof.
  unfold apply_iteration.
  apply disciplined_bind; [auto with discipline|]. intros i.
  apply disciplined_bind; [|auto with discipline].
  case_decide; auto 10 with discipline.
Qed.

Lemma disciplined_apply_loop fuel cs w : disciplined (apply_loop fuel cs w).
Proof.
  induction fuel as [|fuel IH]; simpl.
  - auto with discipline.
  - apply disciplined_bind; [auto with discipline|]. intros [|].
    + auto with discipline.
    + apply disciplined_bind; [apply disciplined_apply_iteration | auto].
Qed.

Lemma disciplined_deform_body fuel : disciplined (deform_body np_sin fuel).
Proof.
  unfold deform_body, _compute_simple_correction.
  repeat (apply disciplined_bind; [auto with discipline|]; intros ?).
  destruct (negb _).
  - auto with discipline.
  - apply disciplined_bind.
    + apply disciplined_bind; [auto with discipline|]. intros _.
      apply disciplined_correction_loop.
    + intros cs. apply disciplined_bind; [auto with discipline|]. intros _.
      apply disciplined_apply_loop.
Qed.

(** ** Running the host calls *)

Lemma geo_isDone_run h :
  geo_isDone h =
    match faults h (calls h) with
    | Some e => (Raised e, count_call h)
    | None => (Returned (bool_decide (length (geometry h) <= cursor h)%nat), count_call h)
    end.
Proof. unfold geo_isDone, host_call. by destruct (faults h (calls h)). Qed.

Lemma geo_next_run h :
  geo_next h =
    match faults h (calls h) with
    | Some e => (Raised e, count_call h)
    | None => (Returned tt, set_cursor (S (cursor h)) (count_call h))
    end.
Proof. unfold geo_next, host_call. by destruct (faults h (calls h)). Qed.

Lemma geo_reset_run h :
  geo_reset h =
    match faults h (calls h) with
    | Some e => (Raised e, count_call h)
    | None => (Returned tt, set_cursor 0 (count_call h))
    end.
Proof. unfold geo_reset, host_call. by destruct (faults h (calls h)). Qed.

Lemma geo_position_run h e :
  geometry h !! cursor h = Some e ->
  geo_position h =
    match faults h (calls h) with
    | Some ex => (Raised ex, count_call h)
    | None => (Returned (snd e), count_call h)
    end.
Proof.
  intros He. unfold geo_position, host_call.
  destruct (faults h (calls h)); [done|].
  destruct h; cbv [bind geo_current get from_option count_call geometry cursor] in *.
  by rewrite He.
Qed.

Lemma geo_index_run h e :
  geometry h !! cursor h = Some e ->
  geo_index h =
    match faults h (calls h) with
    | Some ex => (Raised ex, count_call h)
    | None => (Returned (fst e), count_call h)
    end.
Proof.
  intros He. unfold geo_index, host_call.
  destruct (faults h (calls h)); [done|].
  destruct h; cbv [bind geo_current get from_option count_call geometry cursor] in *.
  by rewrite He.
Qed.

Lemma geo_setPosition_run h e p :
  geometry h !! cursor h = Some e ->
  geo_setPosition p h =
    match faults h (calls h) with
    | Some ex => (Raised ex, count_call h)
    | None => (Returned tt,
               set_geometry (<[cursor h := (fst e, p)]> (geometry h)) (count_call h))
    end.
Proof.
  intros He. unfold geo_setPosition, host_call.
  destruct (faults h (calls h)); [done|].
  destruct h; cbv [bind geo_current get from_option count_call geometry cursor] in *.
  by rewrite He.
Qed.

Lemma correction_iteration_spec pose cs h e r h' :
  geometry h !! cursor h = Some e ->
  correction_iteration np_sin pose cs h = (r, h') ->
  geometry h' = geometry h /\ r <> Timeout /\ faults h' = faults h /\
  (forall ex, r = Raised ex -> exists j, (calls h <= j)%nat /\ faults h j = Some ex) /\
  (forall cs', r = Returned cs' ->
     cs' = cs ++ [simple_correction np_sin pose (snd e)] /\
     cursor h' = S (cursor h) /\ calls h' = (calls h + 2)%nat /\
     faults h (calls h) = None /\ faults h (S (calls h)) = None).
Proof.
  intros He. unfold correction_iteration.
  rewrite bind_run, (geo_position_run _ _ He).
  destruct (faults h (calls h)) as [ex|] eqn:F1.
  { intros [= <- <-]. split_and!; try done. intros ? [= <-]. eauto. }
  rewrite bind_run, geo_next_run. simpl.
  destruct (faults h (S (calls h))) as [ex|] eqn:F2.
  { intros [= <- <-]. split_and!; try done. intros ? [= <-]. eauto. }
  intros [= <- <-]. simpl. split_and!; try done.
  intros cs' [= <-]. split_and!; auto. lia.
Qed.

Lemma correction_loop_spec fuel pose : forall cs h r h',
  correction_loop np_sin fuel pose cs h = (r, h') ->
  (cursor h <= length (geometry h))%nat ->
  geometry h' = geometry h /\
  ((length (geometry h) - cursor h < fuel)%nat -> r <> Timeout) /\
  (forall ex, r = Raised ex -> exists j, (calls h <= j)%nat /\ faults h j = Some ex) /\
  (forall cs', r = Returned cs' ->
     cs' = cs ++ (simple_correction np_sin pose <$> (snd <$> drop (cursor h) (geometry h))) /\
     calls h' = (calls h + (3 * (length (geometry h) - cursor h) + 1))%nat /\
     forall j, (calls h <= j < calls h')%nat -> faults h j = None).
Proof.
  induction fuel as [|fuel IH]; intros cs h r h'; simpl.
  { intros [= <- <-] Hc. split_and!; try done. lia. }
  rewrite bind_run, geo_isDone_run.
  destruct (faults h (calls h)) as [ex|] eqn:F1.
  { intros [= <- <-] Hc. split_and!; try done. intros ? [= <-]. eauto. }
  case_bool_decide as Hdone.
  { intros [= <- <-] Hc. simpl. split_and!; try done.
    intros cs' [= <-]. rewrite drop_ge by lia. simpl. rewrite app_nil_r.
    split_and!; auto; [lia|]. intros j Hj. assert (j = calls h) as -> by lia. done. }
  intros E Hc.
  destruct (lookup_lt_is_Some_2 (geometry h) (cursor h) ltac:(lia)) as [e He].
  rewrite bind_run in E.
  destruct (correction_iteration np_sin pose cs (count_call h)) as [r1 h1] eqn:E1.
  destruct (correction_iteration_spec pose cs (count_call h) e r1 h1 He E1)
    as (Hg1 & Ht1 & Hfe & Hp1 & Hr1).
  simpl in *.
  destruct r1 as [cs1|ex|]; [| |done].
  2:{ injection E as <- <-. split_and!; try done.
      intros ? [= <-]. destruct (Hp1 ex eq_refl) as (j & Hj & Hfj).
      exists j. split; [lia | done]. }
  destruct (Hr1 cs1 eq_refl) as (-> & Hcur & Hcalls & Hf2 & Hf3).
  destruct (IH _ _ _ _ E) as (Hg & Ht & Hp & Hr); [rewrite Hg1, Hcur; lia|].
  rewrite Hg1, Hcur, Hcalls, Hfe in *.
  split_and!.
  - congruence.
  - intros Hlt. apply Ht. lia.
  - intros ex Hex. destruct (Hp ex Hex) as (j & Hj & Hfj). exists j. split; [lia|done].
  - intros cs' Hcs'. destruct (Hr cs' Hcs') as (-> & Hcl & Hnf).
    rewrite (drop_S _ _ _ He). simpl. rewrite <- app_assoc. simpl.
    split_and!; [done | lia |].
    intros j Hj.
    destruct (decide (j = calls h)) as [->|]; [done|].
    destruct (decide (j = S (calls h))) as [->|]; [done|].
    destruct (decide (j = S (S (calls h)))) as [->|]; [done|].
    apply Hnf. lia.
Qed.

Lemma corrected_guard cs w (e : nat * point) :
  corrected cs w e =
    if decide (fst e < length cs)%nat
    then match cs !! fst e with
         | Some c => (fst e, add_weighted (snd e) c w)
         | None => e
         end
    else e.
Proof.
  unfold corrected. case_decide as Hlt; [done|].
  by rewrite lookup_ge_None_2 by lia.
Qed.

Lemma apply_iteration_spec cs w h e r h' :
  geometry h !! cursor h = Some e ->
  apply_iteration cs w h = (r, h') ->
  (geometry h' = geometry h \/
   geometry h' = <[cursor h := corrected cs w e]> (geometry h)) /\
  r <> Timeout /\ faults h' = faults h /\ (calls h <= calls h')%nat /\
  (forall ex, r = Raised ex -> exists j, (calls h <= j)%nat /\ faults h j = Some ex) /\
  (r = Returned tt ->
     geometry h' = <[cursor h := corrected cs w e]> (geometry h) /\
     cursor h' = S (cursor h)).
Proof.
  intros He. unfold apply_iteration.
  rewrite bind_run, (geo_index_run _ _ He).
  destruct (faults h (calls h)) as [ex|] eqn:F1.
  { intros [= <- <-]. simpl. split_and!; auto; try done; try lia. intros ? [= <-]. eexists; split; [|eassumption]; lia. }
  rewrite bind_run. rewrite corrected_guard.
  case_decide as Hlt.
  - rewrite bind_run, (geo_position_run (count_call h) e He). simpl.
    destruct (faults h (S (calls h))) as [ex|] eqn:F2.
    { intros [= <- <-]. simpl. split_and!; auto; try done; try lia. intros ? [= <-]. eexists; split; [|eassumption]; lia. }
    destruct (lookup_lt_is_Some_2 cs (fst e) Hlt) as [c Hc]. rewrite Hc.
    rewrite bind_run. simpl.
    rewrite (geo_setPosition_run (count_call (count_call h)) e _ He). simpl.
    destruct (faults h (S (S (calls h)))) as [ex|] eqn:F3.
    { intros [= <- <-]. simpl. split_and!; auto; try done; try lia. intros ? [= <-]. eexists; split; [|eassumption]; lia. }
    rewrite geo_next_run. simpl.
    destruct (faults h (S (S (S (calls h))))) as [ex|] eqn:F4.
    { intros [= <- <-]. simpl. split_and!; auto; try done; try lia. intros ? [= <-]. eexists; split; [|eassumption]; lia. }
    intros [= <- <-]. simpl. split_and!; auto; try done; try lia.
  - simpl. rewrite geo_next_run. simpl.
    destruct (faults h (S (calls h))) as [ex|] eqn:F2.
    { intros [= <- <-]. simpl. split_and!; auto; try done; try lia. intros ? [= <-]. eexists; split; [|eassumption]; lia. }
    intros [= <- <-]. simpl. rewrite (list_insert_id _ _ _ He).
    split_and!; auto; try done; try lia.
Qed.

Lemma apply_loop_spec fuel cs w : forall h r h',
  apply_loop fuel cs w h = (r, h') ->
  (cursor h <= length (geometry h))%nat ->
  (exists n, (cursor h + n <= length (geometry h))%nat /\
     geometry h' =
       take (cursor h) (geometry h) ++
       (corrected cs w <$> take n (drop (cursor h) (geometry h))) ++
       drop (cursor h + n) (geometry h) /\
     (r = Returned tt -> (cursor h + n)%nat = length (geometry h))) /\
  ((length (geometry h) - cursor h < fuel)%nat -> r <> Timeout) /\
  (forall ex, r = Raised ex -> exists j, (calls h <= j)%nat /\ faults h j = Some ex).
Proof.
  induction fuel as [|fuel IH]; intros h r h'; simpl.
  { intros [= <- <-] Hc. split_and!; try done; [|lia].
    exists 0%nat. rewrite Nat.add_0_r, take_0. simpl. by rewrite take_drop. }
  rewrite bind_run, geo_isDone_run.
  destruct (faults h (calls h)) as [ex|] eqn:F1.
  { intros [= <- <-] Hc. split_and!; try done.
    - exists 0%nat. rewrite Nat.add_0_r, take_0. simpl. by rewrite take_drop.
    - intros ? [= <-]. eauto. }
  case_bool_decide as Hdone.
  { intros [= <- <-] Hc. simpl. split_and!; try done.
    exists 0%nat. rewrite Nat.add_0_r, take_0. simpl. rewrite take_drop.
    split_and!; auto. intros _. lia. }
  intros E Hc.
  destruct (lookup_lt_is_Some_2 (geometry h) (cursor h) ltac:(lia)) as [e He].
  rewrite bind_run in E.
  destruct (apply_iteration cs w (count_call h)) as [r1 h1] eqn:E1.
  destruct (apply_iteration_spec cs w (count_call h) e r1 h1 He E1)
    as (Hg1 & Ht1 & Hfe & Hcl & Hp1 & Hr1).
  simpl in *.
  assert (<[cursor h := corrected cs w e]> (geometry h) =
          take (cursor h) (geometry h) ++
          (corrected cs w <$> take 1 (drop (cursor h) (geometry h))) ++
          drop (cursor h + 1) (geometry h)) as Hins.
  { rewrite (drop_S _ _ _ He). simpl.
    rewrite Nat.add_1_r. apply insert_take_drop. lia. }
  destruct r1 as [[]|ex|]; [| |done].
  2:{ injection E as <- <-. split_and!; try done.
      - destruct Hg1 as [-> | ->].
        + exists 0%nat. rewrite Nat.add_0_r, take_0. simpl. by rewrite take_drop.
        + exists 1%nat. split_and!; [lia | done | done].
      - intros ? [= <-]. destruct (Hp1 ex eq_refl) as (j & Hj & Hfj).
        exists j. split; [lia | done]. }
  destruct (Hr1 eq_refl) as (Hg & Hcur).
  destruct (IH _ _ _ E) as ((n & Hn & Hgeo & Hret) & Ht & Hp).
  { rewrite Hg, Hcur, length_insert. lia. }
  rewrite Hg, Hcur, ?length_insert in *.
  split_and!.
  - exists (S n). split_and!; [lia | | intros Hr; specialize (Hret Hr); lia].
    rewrite Hgeo.
    rewrite (take_S_r _ _ (corrected cs w e))
      by (apply list_lookup_insert_eq; lia).
    rewrite take_insert_ge by lia.
    rewrite !drop_insert_lt by lia.
    rewrite (drop_S _ _ _ He). simpl.
    rewrite <- app_assoc. simpl.
    by replace (cursor h + S n)%nat with (S (cursor h) + n)%nat by lia.
  - intros Hlt. apply Ht. lia.
  - intros ex Hex. destruct (Hp ex Hex) as (j & Hj & Hfj).
    exists j. split; [lia | by rewrite <- Hfe].
Qed.

Lemma inputValue_run {T} (a : attribute T) h :
  inputValue a h =
    match faults h (calls h) with
    | Some e => (Raised e, count_call h)
    | None => (Returned (Handle a), count_call h)
    end.
Proof. unfold inputValue, host_call. by destruct (faults h (calls h)). Qed.

Lemma asFloat_run a h :
  asFloat (Handle a) h =
    match faults h (calls h) with
    | Some e => (Raised e, count_call h)
    | None => (Returned (read_attribute a (block h)), count_call h)
    end.
Proof. unfold asFloat, host_call. by destruct (faults h (calls h)). Qed.

Lemma asBool_run a h :
  asBool (Handle a) h =
    match faults h (calls h) with
    | Some e => (Raised e, count_call h)
    | None => (Returned (read_attribute a (block h)), count_call h)
    end.
Proof. unfold asBool, host_call. by destruct (faults h (calls h)). Qed.

(** The corrections [_compute_simple_correction] returns for a host: one per
    element of the iterator, in iteration order. *)
Definition computed_corrections (h : host) : list point :=
  simple_correction np_sin (pose_angle_value (block h)) <$> (snd <$> geometry h).

Lemma computed_corrections_length h :
  length (computed_corrections h) = length (geometry h).
Proof. unfold computed_corrections. by rewrite !length_fmap. Qed.

(** The geometry after the first [n] elements received the guarded assignment. *)
Definition applied_to_prefix (n : nat) (h : host) : list (nat * point) :=
  (corrected (computed_corrections h) (correction_weight_value (block h))
     <$> take n (geometry h)) ++ drop n (geometry h).

Lemma applied_to_prefix_0 h : applied_to_prefix 0 h = geometry h.
Proof. unfold applied_to_prefix. by rewrite take_0, drop_0. Qed.

(** The number of host calls [deform] makes before its second loop starts: six
    attribute reads, [reset], three calls per element and the closing [isDone] in
    [_compute_simple_correction], and [reset] again. *)
Definition calls_before_apply (h : host) : nat := 3 * length (geometry h) + 9.

Ltac host_simpl :=
  cbn [geometry cursor calls faults block count_call set_cursor set_geometry] in *.

Lemma deform_body_spec fuel h r h' :
  deform_body np_sin fuel h = (r, h') ->
  (length (geometry h) < fuel)%nat ->
  r <> Timeout /\
  (forall ex, r = Raised ex -> exists j, (calls h <= j)%nat /\ faults h j = Some ex) /\
  (exists n, (n <= length (geometry h))%nat /\ geometry h' = applied_to_prefix n h /\
     (r = Returned tt -> enable_ml_value (block h) = true -> n = length (geometry h))) /\
  (enable_ml_value (block h) = false -> geometry h' = geometry h) /\
  (forall k, (calls h <= k < calls h + calls_before_apply h)%nat ->
     is_Some (faults h k) -> geometry h' = geometry h).
Proof.
  unfold deform_body, calls_before_apply. intros E Hfuel.
  assert (forall ex hx, r = Raised ex -> h' = hx -> geometry hx = geometry h ->
            (exists j, (calls h <= j)%nat /\ faults h j = Some ex) ->
            r <> Timeout /\
            (forall ex, r = Raised ex ->
               exists j, (calls h <= j)%nat /\ faults h j = Some ex) /\
            (exists n, (n <= length (geometry h))%nat /\
               geometry h' = applied_to_prefix n h /\
               (r = Returned tt -> enable_ml_value (block h) = true ->
                n = length (geometry h))) /\
            (enable_ml_value (block h) = false -> geometry h' = geometry h) /\
            (forall k, (calls h <= k < calls h + (3 * length (geometry h) + 9))%nat ->
               is_Some (faults h k) -> geometry h' = geometry h)) as Hquiet.
  { intros ex hx -> -> Hg Hj. split_and!; try done.
    - by intros ? [= <-].
    - exists 0%nat. split_and!; [lia | exact Hg | done]. }
  rewrite bind_run, inputValue_run in E.
  destruct (faults h (calls h)) as [ex|] eqn:F0.
  { injection E as <- <-. eapply Hquiet; eauto. }
  rewrite bind_run, asFloat_run in E. simpl in E.
  destruct (faults h (S (calls h))) as [ex|] eqn:F1.
  { injection E as <- <-. eapply Hquiet; eauto. }
  rewrite bind_run, inputValue_run in E. simpl in E.
  destruct (faults h (S (S (calls h)))) as [ex|] eqn:F2.
  { injection E as <- <-. eapply Hquiet; eauto 6. }
  rewrite bind_run, asFloat_run in E. simpl in E.
  destruct (faults h (S (S (S (calls h))))) as [ex|] eqn:F3.
  { injection E as <- <-. eapply Hquiet; eauto 7. }
  rewrite bind_run, inputValue_run in E. simpl in E.
  destruct (faults h (S (S (S (S (calls h)))))) as [ex|] eqn:F4.
  { injection E as <- <-. eapply Hquiet; eauto 8. }
  rewrite bind_run, asBool_run in E. simpl in E.
  destruct (faults h (S (S (S (S (S (calls h))))))) as [ex|] eqn:F5.
  { injection E as <- <-. eapply Hquiet; eauto 9. }
  destruct (enable_ml_value (block h)) eqn:Hen; simpl in E.
  2:{ injection E as <- <-. simpl. split_and!; try done.
      exists 0%nat. split_and!; [lia | reflexivity | done]. }
  unfold _compute_simple_correction in E.
  rewrite !bind_run, geo_reset_run in E. simpl in E.
  destruct (faults h (S (S (S (S (S (S (calls h)))))))) as [ex|] eqn:F6.
  { injection E as <- <-. eapply Hquiet; eauto 10. }
  match type of E with
  | context [correction_loop _ _ ?p ?cs ?hh] =>
      destruct (correction_loop np_sin fuel p cs hh) as [r1 h1] eqn:E1;
      destruct (correction_loop_spec fuel p cs hh r1 h1 E1) as (Hg1 & Ht1 & Hp1 & Hr1);
      [simpl; lia|];
      pose proof (disciplined_correction_loop fuel p cs _ _ _ E1)
        as (Hb1 & Hf1 & _)
  end.
  host_simpl.
  destruct r1 as [cs|ex|]; [| |exfalso; apply Ht1; [lia|done]].
  2:{ injection E as <- <-. destruct (Hp1 ex eq_refl) as (j & Hj & Hfj).
      eapply Hquiet; eauto. exists j. split; [lia|done]. }
  destruct (Hr1 cs eq_refl) as (Hcs & Hcalls1 & Hnf1).
  rewrite drop_0, Nat.sub_0_r in *.
  rewrite bind_run, geo_reset_run in E. rewrite Hf1, Hcalls1 in E.
  assert (forall k, (calls h <= k < S (S (S (S (S (S (S (calls h)))))))
                       + (3 * length (geometry h) + 1))%nat ->
            faults h k = None) as Hnone.
  { intros k Hk.
    destruct (decide (k = calls h)) as [->|]; [done|].
    destruct (decide (k = S (calls h))) as [->|]; [done|].
    destruct (decide (k = S (S (calls h)))) as [->|]; [done|].
    destruct (decide (k = S (S (S (calls h))))) as [->|]; [done|].
    destruct (decide (k = S (S (S (S (calls h)))))) as [->|]; [done|].
    destruct (decide (k = S (S (S (S (S (calls h))))))) as [->|]; [done|].
    destruct (decide (k = S (S (S (S (S (S (calls h)))))))) as [->|]; [done|].
    apply Hnf1. lia. }
  destruct (faults h (S (S (S (S (S (S (S (calls h))))))) +
                      (3 * length (geometry h) + 1))%nat) as [ex|] eqn:F7.
  { injection E as <- <-. split_and!; try done.
    - intros ? [= <-]. eexists; split; [|exact F7]. lia.
    - exists 0%nat. split_and!; [lia | exact Hg1 | done]. }
  match type of E with
  | apply_loop _ ?c ?w ?hh = _ =>
      destruct (apply_loop_spec fuel c w hh r h' E) as ((n & Hn & Hgeo & Hret) & Ht & Hp);
      [simpl; lia|]
  end.
  host_simpl. rewrite Hg1 in *. rewrite take_0, drop_0 in Hgeo. simpl in Hgeo.
  split_and!.
  - apply Ht. lia.
  - intros ex Hex. destruct (Hp ex Hex) as (j & Hj & Hfj).
    rewrite Hf1 in Hfj. exists j. split; [lia|done].
  - exists n. split_and!; [lia | | auto].
    rewrite Hgeo. unfold applied_to_prefix, computed_corrections. by rewrite Hcs.
  - done.
  - intros k Hk [ex Hex].
    destruct (decide (k = (S (S (S (S (S (S (S (calls h))))))) +
                           (3 * length (geometry h) + 1))%nat)) as [->|Hne].
    + congruence.
    + rewrite Hnone in Hex by lia. done.
Qed.

(** ** The three facts about [deform] *)

Lemma deform_run h :
  exists r h', deform_body np_sin (S (length (geometry h))) h = (r, h') /\
    r <> Timeout /\ deform np_sin h = (Returned tt, h').
Proof.
  unfold deform, deform_with_fuel, try_except.
  destruct (deform_body np_sin (S (length (geometry h))) h) as [r h'] eqn:E.
  destruct (deform_body_spec _ _ _ _ E ltac:(lia)) as (Ht & _).
  exists r, h'. split_and!; try done.
  destruct r as [[]|ex|]; done.
Qed.

Lemma applied_to_prefix_lookup n h k e :
  geometry h !! k = Some e ->
  applied_to_prefix n h !! k =
    Some (if decide (k < n)%nat
          then corrected (computed_corrections h) (correction_weight_value (block h)) e
          else e).
Proof.
  intros He. unfold applied_to_prefix.
  pose proof (lookup_lt_Some _ _ _ He) as Hk.
  case_decide as Hlt.
  - rewrite lookup_app_l by (rewrite length_fmap, length_take; lia).
    rewrite list_lookup_fmap, lookup_take_lt by lia. by rewrite He.
  - rewrite lookup_app_r by (rewrite length_fmap, length_take; lia).
    rewrite length_fmap, length_take, lookup_drop.
    by replace (n + (k - n `min` length (geometry h)))%nat with k by lia.
Qed.

(** In a run without faults [_compute_simple_correction] returns one correction
    per element of the iterator. *)
Lemma compute_simple_correction_returns fuel h :
  (forall j, (calls h <= j)%nat -> faults h j = None) ->
  (length (geometry h) < fuel)%nat ->
  exists h', _compute_simple_correction np_sin fuel (pose_angle_value (block h)) h
             = (Returned (computed_corrections h), h').
Proof.
  intros Hnf Hfuel. unfold _compute_simple_correction.
  rewrite bind_run, geo_reset_run, Hnf by lia.
  match goal with
  | |- context [correction_loop _ _ ?p ?cs ?hh] =>
      destruct (correction_loop np_sin fuel p cs hh) as [r1 h1] eqn:E1;
      destruct (correction_loop_spec fuel p cs hh r1 h1 E1) as (Hg1 & Ht1 & Hp1 & Hr1);
      [simpl; lia|]
  end.
  host_simpl. exists h1.
  destruct r1 as [cs|ex|].
  - destruct (Hr1 cs eq_refl) as (-> & _). by rewrite drop_0.
  - destruct (Hp1 ex eq_refl) as (j & Hj & Hfj). rewrite Hnf in Hfj by lia. done.
  - exfalso. apply Ht1; [lia | done].
Qed.


(** C2.  With [enableML] false [deform] sets no position: for every pose angle,
    correction weight, geometry, iterator state and behaviour of the host, the
    geometry after the evaluation is the geometry before it. *)
Theorem deform_disabled_leaves_mesh
  (pose_angle correction_weight : float) (g : list (nat * point))
  (c n : nat) (f : nat -> option exn) :
  geometry (deform np_sin (mk_host (mk_block pose_angle correction_weight false) g c n f)).2
  = g.
Proof.
  set (h := mk_host _ g c n f).
  destruct (deform_run h) as (r & h' & E & Ht & Hd).
  destruct (deform_body_spec _ _ _ _ E ltac:(lia)) as (_ & _ & _ & Hoff & _).
  rewrite Hd. simpl. by rewrite Hoff.
Qed.

(** C10.  The guard [vertex_index < len(corrections)] of [deform].  An element
    whose vertex index is not below the number of corrections keeps its position,
    whatever the host does; in an evaluation with [enableML] true and no fault, an
    element whose index [i] is in range ends at its position plus
    [corrections[i] * correctionWeight]. *)
Theorem deform_guards_vertex_index (h : host) (k i : nat) (p : point) :
  geometry h !! k = Some (i, p) ->
  ((length (computed_corrections h) <= i)%nat ->
     geometry (deform np_sin h).2 !! k = Some (i, p)) /\
  ((i < length (computed_corrections h))%nat ->
   enable_ml_value (block h) = true ->
   (forall j, (calls h <= j)%nat -> faults h j = None) ->
     exists c, computed_corrections h !! i = Some c /\
       geometry (deform np_sin h).2 !! k =
         Some (i, add_weighted p c (correction_weight_value (block h)))).
Proof.
  intros He.
  destruct (deform_run h) as (r & h' & E & Ht & Hd).
  destruct (deform_body_spec _ _ _ _ E ltac:(lia))
    as (_ & Hp & (n & Hn & Hg & Hfull) & _ & _).
  rewrite Hd. simpl. rewrite Hg, (applied_to_prefix_lookup _ _ _ _ He).
  split.
  - intros Hge. case_decide; [|done].
    unfold corrected. simpl. by rewrite lookup_ge_None_2.
  - intros Hlt Hen Hnf.
    destruct (lookup_lt_is_Some_2 _ _ Hlt) as [c Hc]. exists c. split; [done|].
    assert (r = Returned tt) as Hr.
    { destruct r as [[]|ex|]; [done| |done].
      destruct (Hp ex eq_refl) as (j & Hj & Hfj). rewrite Hnf in Hfj by done. done. }
    rewrite (Hfull Hr Hen).
    rewrite decide_True by (eapply lookup_lt_Some; eauto).
    unfold corrected. simpl. by rewrite Hc.
Qed.

End WithSine.

(** ** A run of [deform]

    To run [deform] a function must stand for [np.sin]; the small-angle
    approximation serves.  No theorem above depends on the choice. *)
Definition small_angle_sine (x : float) : float := x.

(** Two vertices above the origin and one below, a third element whose vertex
    index (7) is beyond the three corrections, pose angle 90, weight 1. *)
Definition demo_geometry : list (nat * point) :=
  [ (0%nat, (1, 2, 3)%float); (1%nat, (0, 4, 0)%float); (7%nat, (5, 6, 7)%float) ].

Definition demo_host (faults : nat -> option exn) : host :=
  mk_host (mk_block 90%float 1%float true) demo_geometry 0 0 faults.

Definition no_fault : nat -> option exn := fun _ => None.

(** The host call number 23 is [geoIter.isDone()] at the start of the second
    iteration of the loop of [deform] over [demo_geometry]. *)
Definition fault_at (k : nat) : nat -> option exn :=
  fun j => if decide (j = k) then Some (RuntimeError "kFailure") else None.

Example deform_demo_fault_mid_loop :
  exists h', deform small_angle_sine (demo_host (fault_at 23)) = (Returned tt, h') /\
    calls h' = 24%nat /\
    geometry h' = applied_to_prefix small_angle_sine 1 (demo_host (fault_at 23)) /\
    geometry h' !! 1%nat = Some (1%nat, (0, 4, 0)%float).
Proof. eexists. split; [vm_compute; reflexivity|]. vm_compute. done. Qed.



Lemma deform_guards_vertex_index_witness :
  geometry (deform small_angle_sine (demo_host no_fault)).2 !! 2%nat
    = Some (7%nat, (5, 6, 7)%float) /\
  exists c, computed_corrections small_angle_sine (demo_host no_fault) !! 1%nat = Some c /\
    geometry (deform small_angle_sine (demo_host no_fault)).2 !! 1%nat
      = Some (1%nat, add_weighted (0, 4, 0)%float c 1%float).
Proof.
  split.
  - apply (deform_guards_vertex_index small_angle_sine (demo_host no_fault) 2 7
             (5, 6, 7)%float eq_refl).
    vm_compute. lia.
  - apply (deform_guards_vertex_index small_angle_sine (demo_host no_fault) 1 1
             (0, 4, 0)%float eq_refl).
    + vm_compute. lia.
    + reflexivity.
    + reflexivity.
Defined.

End DeformerFacts.

(* ===================================================================== *)
(** * Models, the loader and the export *)
(* ===================================================================== *)

Local Open Scope Z_scope.

Module ModelFacts.
Import Model.

(** The exceptions the tensor library raises for some layer. *)
Definition library_refuses (linear_fault xavier_fault : Z -> Z -> option exn)
  (e : exn) : Prop :=
  exists i o, linear_fault i o = Some e \/ xavier_fault i o = Some e.

(** [only_library lf xf m]: whatever [m] raises, the library raised it. *)
Definition only_library {S A} (lf xf : Z -> Z -> option exn) (m : M S A) : Prop :=
  forall s e, (m s).1 = Raised e -> library_refuses lf xf e.

Lemma only_library_ret {S A} lf xf (a : A) : only_library lf xf (ret a : M S A).
Proof. by intros s e. Qed.

Lemma only_library_bind {S A B} lf xf (m : M S A) (k : A -> M S B) :
  only_library lf xf m -> (forall a, only_library lf xf (k a)) ->
  only_library lf xf (bind m k).
Proof.
  intros Hm Hk s e. unfold bind. specialize (Hm s).
  destruct (m s) as [[a|e'|] s1]; simpl in *; [apply Hk | | done].
  intros [= ->]. by apply Hm.
Qed.

Section Torch.
Variables linear_fault xavier_fault : Z -> Z -> option exn.
Context {S : Type}.

Definition ok (A : Type) (m : M S A) : Prop :=
  stateless m /\ only_library linear_fault xavier_fault m.

Lemma nn_Linear_ok i o : ok _ (nn_Linear linear_fault i o).
Proof.
  unfold nn_Linear. destruct (linear_fault i o) as [e|] eqn:E; split.
  - apply stateless_raise.
  - intros s e' [= <-]. exists i, o. by left.
  - apply stateless_ret.
  - apply only_library_ret.
Qed.

Lemma bind_ok {A B} (m : M S A) (k : A -> M S B) :
  ok _ m -> (forall a, ok _ (k a)) -> ok _ (bind m k).
Proof.
  intros [Hm1 Hm2] Hk. split.
  - apply stateless_bind; [done | intros a; apply Hk].
  - apply only_library_bind; [done | intros a; apply Hk].
Qed.

Lemma ret_ok {A} (a : A) : ok _ (ret a).
Proof. split; [apply stateless_ret | apply only_library_ret]. Qed.

Lemma stack_hidden_ok with_dropout hidden layers input_size :
  ok _ (stack_hidden linear_fault with_dropout hidden layers input_size).
Proof.
  revert layers input_size. induction hidden as [|h hidden IH]; intros; simpl.
  - apply ret_ok.
  - apply bind_ok; [apply nn_Linear_ok | intros lin; apply IH].
Qed.

Lemma initialize_weights_ok subs : ok _ (_initialize_weights xavier_fault subs).
Proof.
  unfold _initialize_weights.
  induction (concat _) as [|[i o] l IH]; simpl.
  - apply ret_ok.
  - apply bind_ok; [|intros _; apply IH].
    destruct (xavier_fault i o) as [e|] eqn:E; [|apply ret_ok]. split.
    + apply stateless_raise.
    + intros s e' [= <-]. exists i, o. by right.
Qed.

Lemma residual_blocks_ok n hidden_size :
  ok _ (residual_blocks linear_fault n hidden_size).
Proof.
  induction n as [|n IH]; simpl; [apply ret_ok|].
  apply bind_ok.
  - unfold _make_residual_block.
    apply bind_ok; [apply nn_Linear_ok|]. intros l1.
    apply bind_ok; [apply nn_Linear_ok|]. intros l2. apply ret_ok.
  - intros b. apply bind_ok; [apply IH | intros bs; apply ret_ok].
Qed.

Lemma CorrectiveDeformerNet_init_ok nj nv hidden :
  ok _ (CorrectiveDeformerNet_init linear_fault xavier_fault nj nv hidden).
Proof.
  unfold CorrectiveDeformerNet_init.
  apply bind_ok; [apply stack_hidden_ok|]. intros st.
  apply bind_ok; [apply nn_Linear_ok|]. intros out.
  apply bind_ok; [apply initialize_weights_ok|]. intros _. apply ret_ok.
Qed.

Lemma CompactCorrectiveNet_init_ok nj pca hidden :
  ok _ (CompactCorrectiveNet_init linear_fault xavier_fault nj pca hidden).
Proof.
  unfold CompactCorrectiveNet_init.
  apply bind_ok; [apply stack_hidden_ok|]. intros st.
  apply bind_ok; [apply nn_Linear_ok|]. intros out.
  apply bind_ok; [apply initialize_weights_ok|]. intros _. apply ret_ok.
Qed.

Lemma ResidualCorrectiveNet_init_ok nj nv hs nb :
  ok _ (ResidualCorrectiveNet_init linear_fault xavier_fault nj nv hs nb).
Proof.
  unfold ResidualCorrectiveNet_init.
  apply bind_ok; [apply nn_Linear_ok|]. intros ip.
  apply bind_ok; [apply residual_blocks_ok|]. intros bs.
  apply bind_ok; [apply nn_Linear_ok|]. intros op.
  apply bind_ok; [apply initialize_weights_ok|]. intros _. apply ret_ok.
Qed.

End Torch.

(** The three architecture kinds of the factory. *)
Definition known_kinds : list string := ["standard"; "compact"; "residual"].

(** A tensor library at its strictest: it refuses every layer that has a size
    that is not positive. *)
Definition positive_sizes_only (i o : Z) : option exn :=
  if (0 <? i) && (0 <? o) then None
  else Some (RuntimeError "Trying to create tensor with negative dimension").

(** Against C8 as stated: an empty hidden-layer list is accepted.  Even with the
    strictest tensor library, [create_model('standard', 6, 100, hidden_layers=[])]
    succeeds and returns the network that consists of the output layer alone. *)
Lemma create_model_accepts_empty_hidden_layers :
  create_model positive_sizes_only positive_sizes_only "standard" 6 100
    (mk_kwargs (Some []) None None None) tt
  = (Returned
       (mk_module CorrectiveDeformerNet
          (<["output_size" := 300]>
             (<["num_vertices" := 100]> (<["num_joints" := 6]> ∅)))
          [("network", Sequential [Linear 6 300])]),
     tt).
Proof. reflexivity. Qed.

(** C8, as the code has it.  [create_model] validates the architecture kind and
    nothing else.  For every number of joints, number of vertices and keyword
    arguments: the call returns a model or raises, without touching the world;
    it returns only for one of the three kinds; for another kind it raises
    [ValueError]; and for one of the three kinds it raises only what the tensor
    library raised for one of the layers.  With an empty hidden-layer list the
    standard model is the output layer alone, whenever the library accepts that
    layer. *)
Theorem create_model_validates_only_the_kind {S : Type}
  (linear_fault xavier_fault : Z -> Z -> option exn)
  (model_type : string) (num_joints num_vertices : Z) (kw : kwargs) (s : S) :
  match create_model linear_fault xavier_fault model_type num_joints num_vertices kw s with
  | (Returned m, s') => s' = s /\ model_type ∈ known_kinds
  | (Raised e, s') =>
      s' = s /\
      if decide (model_type ∈ known_kinds)
      then library_refuses linear_fault xavier_fault e
      else e = ValueError (String.append "Unknown model type: " model_type)
  | (Timeout, _) => False
  end /\
  (linear_fault num_joints (num_vertices * 3) = None ->
   xavier_fault num_joints (num_vertices * 3) = None ->
   create_model linear_fault xavier_fault "standard" num_joints num_vertices
     (mk_kwargs (Some []) (kw_pca_components kw) (kw_hidden_size kw) (kw_num_blocks kw)) s
   = (Returned
        (mk_module CorrectiveDeformerNet
           (<["output_size" := num_vertices * 3]>
              (<["num_vertices" := num_vertices]> (<["num_joints" := num_joints]> ∅)))
           [("network", Sequential [Linear num_joints (num_vertices * 3)])]),
      s)).
Proof.
  split.
  - unfold create_model, known_kinds.
    destruct (decide (model_type = "standard")) as [->|N1];
      [|destruct (decide (model_type = "compact")) as [->|N2];
        [|destruct (decide (model_type = "residual")) as [->|N3]]].
    + pose proof (CorrectiveDeformerNet_init_ok linear_fault xavier_fault (S:=S)
        num_joints num_vertices (kwargs_get (kw_hidden_layers kw) [256; 512; 512; 256]))
        as [Hs Hl].
      unfold bind. specialize (Hs s). specialize (Hl s).
      destruct (CorrectiveDeformerNet_init _ _ _ _ _ s) as [[m|e|] s1]; simpl in *.
      * destruct Hs as [-> _]. split; [done | set_solver].
      * destruct Hs as [-> _]. split; [done|].
        by apply Hl.
      * by destruct Hs.
    + pose proof (CompactCorrectiveNet_init_ok linear_fault xavier_fault (S:=S)
        num_joints (kwargs_get (kw_pca_components kw) 50)
        (kwargs_get (kw_hidden_layers kw) [128; 256; 128])) as [Hs Hl].
      unfold bind. specialize (Hs s). specialize (Hl s).
      destruct (CompactCorrectiveNet_init _ _ _ _ _ s) as [[m|e|] s1]; simpl in *.
      * destruct Hs as [-> _]. split; [done | set_solver].
      * destruct Hs as [-> _]. split; [done|].
        by apply Hl.
      * by destruct Hs.
    + pose proof (ResidualCorrectiveNet_init_ok linear_fault xavier_fault (S:=S)
        num_joints num_vertices (kwargs_get (kw_hidden_size kw) 512)
        (kwargs_get (kw_num_blocks kw) 4)) as [Hs Hl].
      unfold bind. specialize (Hs s). specialize (Hl s).
      destruct (ResidualCorrectiveNet_init _ _ _ _ _ _ s) as [[m|e|] s1]; simpl in *.
      * destruct Hs as [-> _]. split; [done | set_solver].
      * destruct Hs as [-> _]. split; [done|].
        by apply Hl.
      * by destruct Hs.
    + simpl. split; [done|]. rewrite decide_False; [done|].
      intros Hin. rewrite !elem_of_cons, elem_of_nil in Hin.
      destruct Hin as [?|[?|[?|[]]]]; done.
  - intros Hl Hx. unfold create_model. rewrite decide_True by done.
    unfold CorrectiveDeformerNet_init, bind, nn_Linear, _initialize_weights. simpl.
    rewrite Hl. simpl. rewrite Hx. done.
Qed.

End ModelFacts.

Module LoaderFacts.
Import World Train.

(** What the loader finds in a file it accepts: an archive whose [joint_angles]
    and [vertex_deltas] entries are numeric arrays of at least two dimensions.
    Nothing relates the two arrays, or the stored [num_vertices], to each
    other. *)
Definition loadable (w : world) (path : string) (a d : ndarray) (n k v : nat) : Prop :=
  exists arrays rest_a m rest_d,
    files w !! path = Some (NpzFile arrays) /\
    arrays !! "joint_angles" = Some (FloatArray a) /\
    arrays !! "vertex_deltas" = Some (FloatArray d) /\
    shape a = n :: k :: rest_a /\
    shape d = m :: v :: rest_d.

Lemma loader_accepts w path a d n k v :
  loadable w path a d n k v ->
  CorrectiveDeformerDataset_init path w
  = (Returned (mk_dataset (map_array to_single a) (map_array to_single d) n k v), w).
Proof.
  intros (arrays & ra & m & rd & Hf & Ha & Hd & Hsa & Hsd).
  unfold CorrectiveDeformerDataset_init, np_load, npz_getitem, tensor_len, shape_at.
  repeat first [ rewrite bind_run | progress simpl
               | rewrite Hf | rewrite Ha | rewrite Hd | rewrite Hsa | rewrite Hsd ].
  done.
Qed.

Lemma loader_returns_only_loadable w path ds w' :
  CorrectiveDeformerDataset_init path w = (Returned ds, w') ->
  w' = w /\
  exists a d,
    loadable w path a d (ds_num_samples ds) (ds_num_joints ds) (ds_num_vertices ds) /\
    ds_joint_angles ds = map_array to_single a /\
    ds_vertex_deltas ds = map_array to_single d.
Proof.
  unfold CorrectiveDeformerDataset_init, np_load, npz_getitem, tensor_len, shape_at.
  run_py.
  destruct (files w !! path) as [[arrays| | | | |]|] eqn:Hf; run_py; try done.
  destruct (arrays !! "joint_angles") as [[a| |]|] eqn:Ha; run_py; try done.
  destruct (arrays !! "vertex_deltas") as [[d| |]|] eqn:Hd; run_py; try done.
  destruct (shape a) as [|n [|k ra]] eqn:Hsa; run_py; try done.
  destruct (shape d) as [|m [|v rd]] eqn:Hsd; run_py; try done.
  intros [= <- <-]. simpl. split; [done|].
  exists a, d. split; [|done]. by exists arrays, ra, m, rd.
Qed.

(** ** A file whose arrays disagree *)

(** Three pose vectors of two channels, two delta fields of one vertex, and a
    stored vertex count of five. *)
Definition inconsistent_arrays : gmap string npz_entry :=
  <["num_vertices" := IntScalar 5]>
    (<["joint_names" := StrArray ["elbow"]]>
       (<["vertex_deltas" := FloatArray (mk_ndarray [2; 1; 3]%nat
                                           [0; 0; 0; 1; 1; 1]%float)]>
          (<["joint_angles" := FloatArray (mk_ndarray [3; 2]%nat
                                             [0; 0.5; 0; 0.25; 0; 1]%float)]> ∅))).

Definition empty_scene : scene := mk_scene ∅ ∅.

Definition inconsistent_world : world :=
  mk_world empty_scene 0
    (<["data/bad.npz" := NpzFile inconsistent_arrays]> (<["data" := Directory]> ∅))
    [] None None.

(** Against C9 as stated: the loader constructs a Dataset from a file whose
    arrays are mutually inconsistent.  There are three pose vectors and two delta
    fields, and the stored vertex count (5) is not the vertex dimension of the
    deltas (1); the Dataset reports three samples and one vertex. *)
Lemma loader_accepts_inconsistent_file :
  CorrectiveDeformerDataset_init "data/bad.npz" inconsistent_world
  = (Returned (mk_dataset (mk_ndarray [3; 2]%nat [0; 0.5; 0; 0.25; 0; 1]%float)
                 (mk_ndarray [2; 1; 3]%nat [0; 0; 0; 1; 1; 1]%float) 3 2 1),
     inconsistent_world).
Proof. vm_compute. reflexivity. Qed.

(** C9, as the code has it.  The loader constructs a Dataset exactly from the
    files that are archives holding numeric [joint_angles] and [vertex_deltas]
    arrays of at least two dimensions each; every other file or path makes it
    raise.  The Dataset takes the number of samples and of channels from the
    shape of [joint_angles] and the number of vertices from the second dimension
    of [vertex_deltas]; the two arrays are not compared with each other, and the
    stored [num_vertices] is not read.  Loading does not change the world. *)
Theorem loader_checks_each_array_alone (w : world) (path : string) :
  (forall ds w', CorrectiveDeformerDataset_init path w = (Returned ds, w') <->
     w' = w /\
     exists a d,
       loadable w path a d (ds_num_samples ds) (ds_num_joints ds) (ds_num_vertices ds) /\
       ds_joint_angles ds = map_array to_single a /\
       ds_vertex_deltas ds = map_array to_single d) /\
  (CorrectiveDeformerDataset_init path w).1 <> Timeout.
Proof.
  split.
  - intros ds w'. split.
    + apply loader_returns_only_loadable.
    + intros (-> & a & d & Hl & Ha & Hd).
      rewrite (loader_accepts _ _ _ _ _ _ _ Hl). destruct ds; simpl in *. by subst.
  - unfold CorrectiveDeformerDataset_init, np_load, npz_getitem, tensor_len, shape_at.
    run_py.
    destruct (files w !! path) as [[arrays| | | | |]|] eqn:Hf; run_py; try done.
    destruct (arrays !! "joint_angles") as [[a| |]|] eqn:Ha; run_py; try done.
    destruct (arrays !! "vertex_deltas") as [[d| |]|] eqn:Hd; run_py; try done.
    destruct (shape a) as [|n [|k ra]] eqn:Hsa; run_py; try done.
    destruct (shape d) as [|m [|v rd]] eqn:Hsd; run_py; try done.
Qed.

End LoaderFacts.

Module ExportFacts.
Import World Model Train.
Import LoaderFacts.

(** [export_for_maya] reads [self.model.num_joints] before anything else: on a
    model without that attribute it raises at once and writes nothing. *)
Lemma export_for_maya_needs_num_joints (t : Trainer) (save_dir : string) (w : world) :
  attributes (model t) !! "num_joints" = None ->
  export_for_maya t save_dir w = (Raised (AttributeError "num_joints"), w).
Proof.
  intros Hn. unfold export_for_maya, getattr. rewrite bind_run, Hn. done.
Qed.

(** The metadata that [export_for_maya] writes for a trainer, given the two
    attributes of the model and the reading of the clock. *)
Definition export_metadata (t : Trainer) (num_joints num_vertices : Z) (now : nat)
  : file :=
  JsonFile [ ("num_joints", JInt num_joints);
             ("num_vertices", JInt num_vertices);
             ("best_val_loss", JFloat (best_val_loss t));
             ("export_date", JStr (isoformat now)) ].

(** What one format export writes: nothing when tracing or conversion fails in
    this environment, and nothing when the file cannot be opened. *)
Definition format_export (fault : option exn) (w : world) (path : string) (f : file)
  : list (string * file) :=
  match fault, write_error w path with
  | None, None => [(path, f)]
  | _, _ => []
  end.

Definition write_all (l : list (string * file)) (w : world) : world :=
  foldl (fun w pf => add_file pf.1 pf.2 w) w l.

(** The files the two format exports write, in order, in a given environment. *)
Definition exported_formats (t : Trainer) (save_dir : string) (w : world)
  : list (string * file) :=
  let first :=
    format_export (torchscript_fault w) w (path_join save_dir "model_torchscript.pt")
      (TorchScriptFile (model t) (parameters t)) in
  first ++
  format_export (onnx_fault w) (write_all first w) (path_join save_dir "model.onnx")
    (OnnxFile (model t) (parameters t)).

(** One format export, as [export_for_maya] wraps it: it never raises. *)
Lemma format_export_run (fault : world -> option exn) (path : string) (f : file)
  (done_msg failed_msg : string) (w : world) :
  try_except
    (w <- get ;;
     match fault w with
     | Some e => raise e
     | None => write_file path f ;; print done_msg
     end)
    (fun e => print failed_msg) w
  = (Returned tt, write_all (format_export (fault w) w path f) w).
Proof.
  unfold try_except, format_export. rewrite bind_run.
  change (get w) with (Returned w, w). cbv beta iota.
  destruct (fault w) as [e|]; [done|].
  rewrite bind_run, write_file_run.
  by destruct (write_error w path).
Qed.

Lemma write_all_frame (l : list (string * file)) (w : world) :
  maya (write_all l w) = maya w /\ clock (write_all l w) = clock w /\
  written (write_all l w) = written w ++ l /\
  torchscript_fault (write_all l w) = torchscript_fault w /\
  onnx_fault (write_all l w) = onnx_fault w.
Proof.
  revert w. induction l as [|[q f] l IH]; intros w; simpl.
  { by rewrite app_nil_r. }
  destruct (IH (add_file q f w)) as (H1 & H2 & H3 & H4 & H5).
  unfold write_all in *. simpl. rewrite H1, H2, H3, H4, H5. simpl.
  by rewrite <- app_assoc.
Qed.

(** A format export leaves what can be written writable. *)
Lemma format_export_keeps_writable (fault : option exn) (w : world) (path : string)
  (f : file) (q : string) :
  f <> Directory ->
  write_error w q = None ->
  write_error (write_all (format_export fault w path f) w) q = None.
Proof.
  intros Hf Hq. unfold format_export.
  destruct fault; [done|].
  destruct (write_error w path) eqn:E; [done|].
  by apply write_error_add_file.
Qed.

(** The world after both format exports. *)
Lemma exported_formats_world (t : Trainer) (save_dir : string) (w : world) :
  write_all
    (format_export (onnx_fault w)
       (write_all
          (format_export (torchscript_fault w) w
             (path_join save_dir "model_torchscript.pt")
             (TorchScriptFile (model t) (parameters t))) w)
       (path_join save_dir "model.onnx") (OnnxFile (model t) (parameters t)))
    (write_all
       (format_export (torchscript_fault w) w
          (path_join save_dir "model_torchscript.pt")
          (TorchScriptFile (model t) (parameters t))) w)
  = write_all (exported_formats t save_dir w) w.
Proof. unfold exported_formats, write_all. by rewrite foldl_app. Qed.

(** [export_for_maya] on a model that has [num_joints]: both formats are
    attempted, then [num_vertices] is read. *)
Lemma export_for_maya_formats (t : Trainer) (save_dir : string) (w : world)
  (num_joints : Z) :
  attributes (model t) !! "num_joints" = Some num_joints ->
  0 <= num_joints ->
  export_for_maya t save_dir w =
    (num_vertices <- getattr (model t) "num_vertices" ;;
     now <- datetime_now ;;
     write_file (path_join save_dir "model_metadata.json")
       (JsonFile [ ("num_joints", JInt num_joints);
                   ("num_vertices", JInt num_vertices);
                   ("best_val_loss", JFloat (best_val_loss t));
                   ("export_date", JStr (isoformat now)) ]) ;;
     print "Saved metadata") (write_all (exported_formats t save_dir w) w).
Proof.
  intros Hj Hpos.
  pose proof (proj2 (Z.ltb_ge _ _) Hpos) as Hltb.
  unfold export_for_maya at 1. unfold getattr at 1. rewrite bind_run, Hj.
  change (from_option (Some num_joints) (AttributeError "num_joints") w)
    with (Returned num_joints, w). cbv beta iota.
  unfold torch_randn. rewrite Hltb, bind_ret_l.
  rewrite bind_run, (format_export_run torchscript_fault).
  rewrite bind_run, (format_export_run onnx_fault).
  destruct (write_all_frame
              (format_export (torchscript_fault w) w
                 (path_join save_dir "model_torchscript.pt")
                 (TorchScriptFile (model t) (parameters t))) w)
    as (_ & _ & _ & _ & ->).
  by rewrite exported_formats_world.
Qed.

(** On a model that has both attributes (as [CorrectiveDeformerNet] does) the
    export is what the specification says, provided the metadata file can be
    opened in [save_dir]: each format is attempted, a format that fails is
    skipped without stopping the other, and the metadata is written whichever
    formats succeeded. *)
Lemma export_for_maya_with_attributes (t : Trainer) (save_dir : string) (w : world)
  (num_joints num_vertices : Z) :
  attributes (model t) !! "num_joints" = Some num_joints ->
  attributes (model t) !! "num_vertices" = Some num_vertices ->
  0 <= num_joints ->
  write_error w (path_join save_dir "model_metadata.json") = None ->
  exists w',
    export_for_maya t save_dir w = (Returned tt, w') /\
    written w' =
      written w ++ exported_formats t save_dir w ++
      [(path_join save_dir "model_metadata.json",
        export_metadata t num_joints num_vertices (clock w))] /\
    files w' !! path_join save_dir "model_metadata.json"
      = Some (export_metadata t num_joints num_vertices (clock w)).
Proof.
  intros Hj Hv Hpos Hmeta.
  rewrite (export_for_maya_formats _ _ _ _ Hj Hpos).
  set (w2 := write_all (exported_formats t save_dir w) w).
  assert (Hw2 : write_error w2 (path_join save_dir "model_metadata.json") = None).
  { subst w2. rewrite <- exported_formats_world.
    apply format_export_keeps_writable; [done|].
    by apply format_export_keeps_writable. }
  destruct (write_all_frame (exported_formats t save_dir w) w)
    as (_ & Hck & Hwr & _ & _). fold w2 in Hck, Hwr.
  unfold getattr. rewrite bind_run, Hv.
  change (from_option (Some num_vertices) (AttributeError "num_vertices") w2)
    with (Returned num_vertices, w2). cbv beta iota.
  rewrite bind_run, datetime_now_run. cbv beta iota.
  rewrite bind_run, write_file_ok
    by (by rewrite (write_error_files w2)).
  rewrite print_run. eexists. split; [reflexivity|].
  unfold export_metadata. simpl. rewrite Hck, Hwr, <- app_assoc.
  split; [done|]. apply lookup_insert_eq.
Qed.

(** When the metadata file cannot be opened ([save_dir] is not there, or the
    path is a directory) the error of [open] leaves [export_for_maya], after
    the format exports were attempted: that [open] is outside both [try]
    blocks. *)
Lemma export_for_maya_metadata_error (t : Trainer) (save_dir : string) (w : world)
  (num_joints num_vertices : Z) (e : exn) :
  attributes (model t) !! "num_joints" = Some num_joints ->
  attributes (model t) !! "num_vertices" = Some num_vertices ->
  0 <= num_joints ->
  write_error (write_all (exported_formats t save_dir w) w)
    (path_join save_dir "model_metadata.json") = Some e ->
  export_for_maya t save_dir w
  = (Raised e,
     set_clock (S (clock w)) (write_all (exported_formats t save_dir w) w)).
Proof.
  intros Hj Hv Hpos Hmeta.
  rewrite (export_for_maya_formats _ _ _ _ Hj Hpos).
  set (w2 := write_all (exported_formats t save_dir w) w) in *.
  destruct (write_all_frame (exported_formats t save_dir w) w)
    as (_ & Hck & _ & _ & _). fold w2 in Hck.
  unfold getattr. rewrite bind_run, Hv.
  change (from_option (Some num_vertices) (AttributeError "num_vertices") w2)
    with (Returned num_vertices, w2). cbv beta iota.
  rewrite bind_run, datetime_now_run. cbv beta iota.
  rewrite bind_run, (write_file_fails _ _ _ e)
    by (by rewrite (write_error_files w2)).
  by rewrite Hck.
Qed.

(** ** The residual model *)

Definition no_layer_fault : Z -> Z -> option exn := fun _ _ => None.

(** [ResidualCorrectiveNet.__init__] assigns no [num_joints]. *)
Lemma residual_model_has_no_num_joints {S : Type} lf xf nj nv hs nb (s s' : S) m :
  ResidualCorrectiveNet_init lf xf nj nv hs nb s = (Returned m, s') ->
  attributes m !! "num_joints" = None.
Proof.
  unfold ResidualCorrectiveNet_init. rewrite !bind_run.
  destruct (nn_Linear lf nj hs s) as [[ip|?|] s1]; try done.
  rewrite !bind_run.
  destruct (residual_blocks lf (Z.to_nat nb) hs s1) as [[bs|?|] s2]; try done.
  rewrite !bind_run.
  destruct (nn_Linear lf hs (nv * 3) s2) as [[op|?|] s3]; try done.
  rewrite !bind_run.
  destruct (_initialize_weights xf _ s3) as [[[]|?|] s4]; try done.
  intros [= <- <-]. done.
Qed.

(** [CompactCorrectiveNet.__init__] assigns no [num_vertices]. *)
Lemma compact_model_has_no_num_vertices {S : Type} lf xf nj pca hidden (s s' : S) m :
  CompactCorrectiveNet_init lf xf nj pca hidden s = (Returned m, s') ->
  attributes m !! "num_vertices" = None.
Proof.
  unfold CompactCorrectiveNet_init. rewrite !bind_run.
  destruct (stack_hidden lf false hidden [] nj s) as [[st|?|] s1]; try done.
  rewrite !bind_run.
  destruct (nn_Linear lf st.2 pca s1) as [[op|?|] s3]; try done.
  rewrite !bind_run.
  destruct (_initialize_weights xf _ s3) as [[[]|?|] s4]; try done.
  intros [= <- <-]. done.
Qed.

(** C7 on the residual architecture.  Whatever the tensor library and the
    environment are, [export_for_maya] on a trainer whose model was built by
    [create_model('residual', ...)] raises [AttributeError] for [num_joints]
    before either format is attempted: nothing is written, the metadata
    included, and the exception leaves the method. *)
Theorem export_for_maya_residual_raises
  (lf xf : Z -> Z -> option exn) (num_joints num_vertices : Z) (kw : kwargs)
  (params opt : state_dict) (train_hist val_hist : list float) (best : float)
  (save_dir : string) (w : world) :
  match create_model lf xf "residual" num_joints num_vertices kw w with
  | (Returned m, w1) =>
      export_for_maya (mk_trainer m params opt train_hist val_hist best) save_dir w1
      = (Raised (AttributeError "num_joints"), w1)
  | _ => True
  end.
Proof.
  unfold create_model. rewrite decide_False by done. rewrite decide_False by done.
  rewrite decide_True by done. rewrite bind_run.
  destruct (ResidualCorrectiveNet_init lf xf num_joints num_vertices _ _ w)
    as [[m|?|] w1] eqn:E; try done.
  simpl. apply export_for_maya_needs_num_joints. simpl.
  by eapply residual_model_has_no_num_joints.
Qed.

(** ** The failing run, from the entry point *)

(** [len(DataLoader(d, batch_size))] for a dataset of [n] items: the batches,
    the last of which may be short. *)
Definition batches_of (n batch_size : Z) : list unit :=
  replicate (Z.to_nat ((n + batch_size - 1) / batch_size)) tt.

(** A tensor library that accepts every layer, learns nothing and reports a loss
    of one for every batch.  It splits a dataset as asked: [random_split]
    refuses a negative size, the shuffling loader refuses an empty training
    set, and a loader has as many batches as its items need. *)
Definition idle_backend : backend :=
  mk_backend unit
    (fun _ => ([], []))
    (fun _ ps _ => inr (ps.1, ps.2, 1%float))
    (fun _ _ _ => inr 1%float)
    (fun o _ => o)
    (fun _ train_size val_size batch_size =>
       if (train_size <? 0) || (val_size <? 0)
       then inl (ValueError "random_split: negative length")
       else if batch_size <=? 0
       then inl (ValueError "batch_size should be a positive integer value")
       else if train_size =? 0
       then inl (ValueError "num_samples should be a positive integer value")
       else inr (batches_of train_size batch_size, batches_of val_size batch_size)).

(** Five samples of one joint (three angles) and one vertex. *)
Definition small_arrays : gmap string npz_entry :=
  <["num_vertices" := IntScalar 1]>
    (<["joint_names" := StrArray ["elbow"]]>
       (<["vertex_deltas" :=
            FloatArray (mk_ndarray [5; 1; 3]%nat
                          [0; 0; 0; 1; 1; 1; 0; 0; 0; 1; 1; 1; 0; 0; 0]%float)]>
          (<["joint_angles" :=
               FloatArray (mk_ndarray [5; 3]%nat
                             [0; 0; 0; 0; 0; 0.5; 0; 0; 1; 0; 0; 1.5; 0; 0; 2]%float)]>
             ∅))).

(** The data directory holds the archive; there is no [models] directory yet. *)
Definition small_world : world :=
  mk_world empty_scene 0
    (<["data/poses.npz" := NpzFile small_arrays]> (<["data" := Directory]> ∅))
    [] None None.

(** [train_corrective_deformer(data, 'models', model_type='residual',
    num_epochs=1)] on the five samples: one of them is held out for validation,
    the epoch is trained and its checkpoint saved, then the export raises; no
    exported model and no metadata exist afterwards. *)
Example residual_training_run_ends_in_AttributeError :
  exists w',
    train_corrective_deformer idle_backend no_layer_fault no_layer_fault
      "data/poses.npz" "models" "residual" 1 32 0x1.999999999999ap-3%float small_world
    = (Raised (AttributeError "num_joints"), w') /\
    fst <$> written w' = ["models/best_model.pth"] /\
    files w' !! "models" = Some Directory /\
    files w' !! "models/model_metadata.json" = None /\
    files w' !! "models/model_torchscript.pt" = None /\
    files w' !! "models/model.onnx" = None.
Proof. eexists. split; [vm_compute; reflexivity|]. vm_compute. done. Qed.

(** The same run with [model_type='standard'] exports both formats and the
    metadata. *)
Example standard_training_run_exports :
  exists t w',
    train_corrective_deformer idle_backend no_layer_fault no_layer_fault
      "data/poses.npz" "models" "standard" 1 32 0x1.999999999999ap-3%float small_world
    = (Returned t, w') /\
    fst <$> written w' =
      ["models/best_model.pth"; "models/model_torchscript.pt"; "models/model.onnx";
       "models/model_metadata.json"].
Proof. eexists _, _. split; [vm_compute; reflexivity|]. vm_compute. done. Qed.

(** Two samples only: [int(2 * 0.2)] is zero, the validation loader is empty,
    and the first epoch ends in the division by [len(val_loader)]: the
    directory was made, nothing was written. *)
Definition two_sample_world : world :=
  mk_world empty_scene 0
    (<["data/poses.npz" :=
         NpzFile
           (<["num_vertices" := IntScalar 1]>
              (<["joint_names" := StrArray ["elbow"]]>
                 (<["vertex_deltas" :=
                      FloatArray (mk_ndarray [2; 1; 3]%nat [0; 0; 0; 1; 1; 1]%float)]>
                    (<["joint_angles" :=
                         FloatArray (mk_ndarray [2; 3]%nat
                                       [0; 0; 0; 0; 0; 0.5]%float)]> ∅))))]>
       (<["data" := Directory]> ∅))
    [] None None.

Example two_sample_run_divides_by_zero :
  exists w',
    train_corrective_deformer idle_backend no_layer_fault no_layer_fault
      "data/poses.npz" "models" "residual" 1 32 0x1.999999999999ap-3%float
      two_sample_world
    = (Raised ZeroDivisionError, w') /\
    written w' = [] /\
    files w' !! "models" = Some Directory.
Proof. eexists. split; [vm_compute; reflexivity|]. vm_compute. done. Qed.

End ExportFacts.

(* ===================================================================== *)
(** * The collector and the dataset file *)
(* ===================================================================== *)

Local Close Scope Z_scope.

Module PathFacts.
Import World.

Lemma text_chars s : text (chars s) = s.
Proof. apply String.string_of_list_ascii_of_string. Qed.


Lemma chars_inj s1 s2 : chars s1 = chars s2 -> s1 = s2.
Proof. intros H. by rewrite <- (text_chars s1), <- (text_chars s2), H. Qed.

Lemma chars_append a b : chars (String.append a b) = chars a ++ chars b.
Proof. induction a as [|c a IH]; simpl; [done|]. unfold chars in *. simpl. by f_equal. Qed.







End PathFacts.

Module CollectorFacts.
Import World Collector PathFacts.

(** ** The scene queries *)

Lemma stateless_getAttr name : stateless (cmds_getAttr name).
Proof.
  unfold cmds_getAttr. apply stateless_bind; [apply stateless_get|].
  intros w. apply stateless_from_option.
Qed.

Lemma stateless_objExists name : stateless (cmds_objExists name).
Proof.
  unfold cmds_objExists. apply stateless_bind; [apply stateless_get|].
  intros w. apply stateless_ret.
Qed.

Lemma stateless_getPoints mesh : stateless (mesh_getPoints mesh).
Proof.
  unfold mesh_getPoints. apply stateless_bind; [apply stateless_get|].
  intros w. destruct (meshes (maya w) !! mesh); [apply stateless_ret | apply stateless_raise].
Qed.

Lemma stateless_sub_points a b : stateless (sub_points a b : M world (list point)).
Proof.
  unfold sub_points. case_decide; [apply stateless_ret|].
  destruct a as [|p [|p' a]], b as [|q [|q' b]];
    first [apply stateless_ret | apply stateless_raise].
Qed.

Lemma stateless_joint_angles_loop joints angles :
  stateless (joint_angles_loop joints angles).
Proof.
  revert angles. induction joints as [|j joints IH]; intros angles; simpl.
  - apply stateless_ret.
  - repeat (apply stateless_bind; [apply stateless_getAttr|]; intros ?). apply IH.
Qed.

Lemma stateless_sample_vertex_deltas target base :
  stateless (sample_vertex_deltas target base).
Proof.
  unfold sample_vertex_deltas. destruct target as [t|]; [|apply stateless_ret].
  destruct (truthy (Some t)); [|apply stateless_ret].
  apply stateless_bind; [apply stateless_objExists|]. intros [|]; [|apply stateless_ret].
  apply stateless_bind; [apply stateless_getPoints|]. intros cp.
  apply stateless_sub_points.
Qed.

(** ** [capture_sample] *)

(** The angles [_get_joint_angles] reads in a scene where the attributes exist:
    three per joint, in the order of the joints. *)
Definition attr_value (a : gmap string float) (name : string) : float :=
  default fzero (a !! name).

Definition angles_of (a : gmap string float) (joints : list string) : list float :=
  joints ≫= (fun j => [ attr_value a (String.append j ".rotateX");
                         attr_value a (String.append j ".rotateY");
                         attr_value a (String.append j ".rotateZ") ]).

Lemma angles_of_length a joints : length (angles_of a joints) = (3 * length joints)%nat.
Proof.
  unfold angles_of. induction joints as [|j joints IH]; [done|].
  rewrite bind_cons, length_app, IH. simpl. lia.
Qed.

Lemma joint_angles_loop_returns joints angles w l :
  joint_angles_loop joints angles w = (Returned l, w) ->
  l = angles ++ angles_of (attrs (maya w)) joints.
Proof.
  revert angles. induction joints as [|j joints IH]; intros angles; simpl.
  - intros [= <-]. by rewrite app_nil_r.
  - unfold cmds_getAttr. run_py. unfold attr_value.
    destruct (attrs (maya w) !! String.append j ".rotateX") as [rx|]; run_py; [|done].
    destruct (attrs (maya w) !! String.append j ".rotateY") as [ry|]; run_py; [|done].
    destruct (attrs (maya w) !! String.append j ".rotateZ") as [rz|]; run_py; [|done].
    intros E. rewrite (IH _ E). by rewrite <- app_assoc.
Qed.

(** What [capture_sample] does, for every collector, argument and world.  The
    samples already stored play no part in it: with any other list [l] of stored
    samples the same sample is captured and appended, or the same exception
    raised.  A capture that returns has read the clock once; one that raises
    leaves the world as it was. *)
Lemma capture_sample_cases (c : DataCollector) (arg : option string) (w : world) :
  (exists s,
     joint_angles s = angles_of (attrs (maya w)) (joints c) /\
     timestamp s = isoformat (clock w) /\
     forall l, capture_sample (set_samples l c) arg w
               = (Returned (set_samples (l ++ [s]) c, s), set_clock (S (clock w)) w)) \/
  (exists e, forall l, capture_sample (set_samples l c) arg w = (Raised e, w)).
Proof.
  unfold capture_sample, _get_joint_angles, _get_vertex_positions. simpl.
  destruct (stateless_cases (joint_angles_loop (joints c) []) w
              (stateless_joint_angles_loop _ _)) as [[ja Hja]|[e He]].
  2:{ right. exists e. intros l. by rewrite bind_run, He. }
  destruct (stateless_cases (mesh_getPoints (base_mesh c)) w
              (stateless_getPoints _)) as [[bp Hbp]|[e He]].
  2:{ right. exists e. intros l. by rewrite bind_run, Hja, bind_run, He. }
  destruct (stateless_cases
              (sample_vertex_deltas (py_or arg (corrective_mesh c)) bp) w
              (stateless_sample_vertex_deltas _ _)) as [[vd Hvd]|[e He]].
  2:{ right. exists e. intros l.
      by rewrite bind_run, Hja, bind_run, Hbp, bind_run, He. }
  left. exists (mk_sample ja vd (isoformat (clock w))). split_and!.
  - simpl. by rewrite (joint_angles_loop_returns _ _ _ _ Hja).
  - done.
  - intros l. rewrite bind_run, Hja, bind_run, Hbp, bind_run, Hvd. done.
Qed.

Lemma set_samples_id c : set_samples (samples c) c = c.
Proof. by destruct c. Qed.

(** ** A scene to run the collector in *)

(** A mesh [arm] whose points do not depend on the pose, and a joint [elbow]
    with its three rotation attributes. *)
Definition arm_scene (points : list point) : scene :=
  mk_scene
    (<["elbow.rotateX" := 0%float]>
       (<["elbow.rotateY" := 0%float]> (<["elbow.rotateZ" := 45%float]> ∅)))
    (<["arm" := fun _ => points]> ∅).

Definition studio (points : list point) (now : nat) : world :=
  mk_world (arm_scene points) now ∅ [] None None.

Definition two_points : list point := [ (0, 0, 0)%float; (1, 0, 0)%float ].
Definition three_points : list point := two_points ++ [ (2, 0, 0)%float ].

(** The store after [DataCollector('arm', ['elbow'])] and one [capture_sample()]
    on the mesh of two points: the vertex count is two, and the first sample has
    three angles and two deltas. *)
Definition first_store : DataCollector :=
  mk_collector "arm" ["elbow"] None
    [ mk_sample [0; 0; 45]%float [ (0, 0, 0)%float; (0, 0, 0)%float ] "0" ] 2.

Example first_store_is_captured :
  (c <- DataCollector_init "arm" ["elbow"] None ;;
   r <- capture_sample c None ;;
   ret (fst r)) (studio two_points 0)
  = (Returned first_store, studio two_points 1).
Proof. vm_compute. reflexivity. Qed.

(** Against C4 as stated: the store is not empty, its first sample fixed three
    channels and two vertices, the mesh has gained a vertex since, and
    [capture_sample] appends a sample of three deltas without any error. *)
Lemma capture_sample_appends_mismatched_sample :
  exists c' s w',
    capture_sample first_store None (studio three_points 1) = (Returned (c', s), w') /\
    length <$> (vertex_deltas <$> samples first_store) = [2%nat] /\
    num_vertices first_store = 2%nat /\
    length (vertex_deltas s) = 3%nat /\
    samples c' = samples first_store ++ [s].
Proof. eexists _, _, _. split; [vm_compute; reflexivity|]. vm_compute. done. Qed.

(** ** [capture_pose_range] *)

(** The scene with one attribute set. *)
Definition with_attr (name : string) (value : float) (sc : scene) : scene :=
  mk_scene (<[name := value]> (attrs sc)) (meshes sc).

(** The world after [n] readings of the clock, in scene [sc]. *)
Definition advance (n : nat) (sc : scene) (w : world) : world :=
  mk_world sc (clock w + n) (files w) (written w) (torchscript_fault w) (onnx_fault w).

(** A capture succeeds in a scene, whatever the clock and the files are. *)
Definition capturable (c : DataCollector) (sc : scene) : Prop :=
  forall w, maya w = sc -> exists r, (capture_sample c None w).1 = Returned r.

Lemma with_attr_twice name v1 v2 sc :
  with_attr name v2 (with_attr name v1 sc) = with_attr name v2 sc.
Proof. unfold with_attr. simpl. by rewrite insert_insert_eq. Qed.

Lemma with_attr_same name v sc : attrs sc !! name = Some v -> with_attr name v sc = sc.
Proof. intros H. unfold with_attr. rewrite insert_id by done. by destruct sc. Qed.

Lemma setAttr_run name value w :
  is_Some (attrs (maya w) !! name) ->
  cmds_setAttr name value w = (Returned tt, set_maya (with_attr name value (maya w)) w).
Proof. intros [v Hv]. unfold cmds_setAttr. run_py. by rewrite Hv. Qed.

Lemma capturable_run c sc w l :
  capturable c sc -> maya w = sc ->
  exists s,
    joint_angles s = angles_of (attrs sc) (joints c) /\
    capture_sample (set_samples l c) None w
    = (Returned (set_samples (l ++ [s]) c, s), set_clock (S (clock w)) w).
Proof.
  intros Hc Hw. destruct (Hc w Hw) as [r Hr].
  destruct (capture_sample_cases c None w) as [(s & Hja & _ & Hs)|[e He]].
  - exists s. rewrite <- Hw. split; [done | apply Hs].
  - pose proof (He (samples c)) as H. rewrite set_samples_id in H.
    rewrite H in Hr. done.
Qed.

Section Range.
Variables (c : DataCollector) (channel : string) (w : world).
Hypothesis channel_exists : is_Some (attrs (maya w) !! channel).

(** The loop of [capture_pose_range], started after [n] captures in a scene
    that differs from the scene of [w] in [channel] at most. *)
Lemma range_loop (angles : list float) : forall (l : list sample) (n : nat) (sc : scene),
  (sc = maya w \/ exists v, sc = with_attr channel v (maya w)) ->
  (forall angle, angle ∈ angles -> capturable c (with_attr channel angle (maya w))) ->
  exists new sc',
    fold_each angles (set_samples l c)
      (fun c angle =>
         cmds_setAttr channel angle ;;
         cmds_refresh ;;
         r <- capture_sample c None ;;
         print "Progress" ;;
         ret (fst r)) (advance n sc w)
    = (Returned (set_samples (l ++ new) c), advance (n + length angles) sc' w) /\
    (sc' = maya w \/ exists v, sc' = with_attr channel v (maya w)) /\
    length new = length angles /\
    forall i s, new !! i = Some s ->
      exists angle, angles !! i = Some angle /\
        joint_angles s = angles_of (<[channel := angle]> (attrs (maya w))) (joints c).
Proof.
  induction angles as [|angle angles IH]; intros l n sc Hsc Hcap.
  - exists [], sc. simpl. rewrite app_nil_r, Nat.add_0_r. split_and!; try done.
  - rewrite fold_each_cons, !bind_run.
    assert (is_Some (attrs (maya (advance n sc w)) !! channel)) as Hch.
    { simpl. destruct Hsc as [->|[v ->]]; [done|]. simpl.
      rewrite lookup_insert_eq. eauto. }
    rewrite (setAttr_run _ _ _ Hch). cbn [maya advance].
    assert (with_attr channel angle sc = with_attr channel angle (maya w)) as Hsc'.
    { destruct Hsc as [->|[v ->]]; [done | apply with_attr_twice]. }
    rewrite Hsc'.
    destruct (capturable_run c (with_attr channel angle (maya w))
                (set_maya (with_attr channel angle (maya w)) (advance n sc w)) l)
      as (s & Hja & Hs).
    { apply Hcap. left. }
    { done. }
    rewrite (bind_run cmds_refresh). unfold cmds_refresh at 1. rewrite ret_run.
    rewrite bind_run, Hs, bind_run, print_run, ret_run. cbn [fst].
    destruct (IH (l ++ [s]) (S n) (with_attr channel angle (maya w)))
      as (new & sc' & Hrun & Hsc'' & Hlen & Hnew).
    { right. eauto. }
    { intros a Ha. apply Hcap. by right. }
    exists (s :: new), sc'.
    unfold set_clock, set_maya, advance in *. simpl in *.
    replace (clock w + n + 1)%nat with (clock w + S n)%nat by lia.
    replace (S (clock w + n)) with (clock w + S n)%nat by lia.
    rewrite Hrun. rewrite <- app_assoc. simpl.
    replace (n + S (length angles))%nat with (S (n + length angles)) by lia.
    split_and!; [done | done | by rewrite Hlen |].
    intros [|i] s' Hi; simpl in *.
    + injection Hi as <-. exists angle. done.
    + by apply Hnew.
Qed.

End Range.

(** The three rotation channels of a joint, in the order [_get_joint_angles]
    reads them. *)
Definition rotate_axes : list string := ["rotateX"; "rotateY"; "rotateZ"].

Lemma angles_of_lookup a joints k o joint axis :
  joints !! k = Some joint ->
  rotate_axes !! o = Some axis ->
  angles_of a joints !! (3 * k + o)%nat
  = Some (attr_value a (String.append joint (String.append "." axis))).
Proof.
  revert k. induction joints as [|j joints IH]; intros k Hk Ho; [done|].
  unfold angles_of. rewrite bind_cons.
  destruct k as [|k]; simpl in Hk.
  - injection Hk as ->.
    destruct o as [|[|[|o]]]; simpl in Ho; try done; by injection Ho as <-.
  - rewrite lookup_app_r by (simpl; lia). simpl length.
    replace (3 * S k + o - 3)%nat with (3 * k + o)%nat by lia.
    by apply IH.
Qed.

Lemma linspace_values_length start stop num :
  length (linspace_values start stop num) = num.
Proof.
  unfold linspace_values.
  repeat case_decide; repeat case_match;
    rewrite ?length_insert, !length_fmap, length_seq; done.
Qed.

Lemma linspace_run {S} start stop (steps : Z) (s : S) :
  (0 <= steps)%Z ->
  linspace start stop steps s = (Returned (linspace_values start stop (Z.to_nat steps)), s).
Proof. intros H. unfold linspace. by rewrite (proj2 (Z.ltb_ge _ _) H). Qed.

(** The run of [capture_pose_range] on a channel that exists, for [steps >= 0]
    and a scene in which each capture succeeds: sample [i] is captured with the
    channel at entry [i] of [np.linspace(start, end, steps)], and afterwards the
    scene is the scene before the call. *)
Lemma capture_pose_range_run
  (c : DataCollector) (joint axis : string) (start stop : float) (steps : Z)
  (w : world) (original_value : float) :
  attrs (maya w) !! String.append joint (String.append "." axis) = Some original_value ->
  (0 <= steps)%Z ->
  (forall angle, angle ∈ linspace_values start stop (Z.to_nat steps) ->
     capturable c (with_attr (String.append joint (String.append "." axis)) angle (maya w))) ->
  exists new,
    capture_pose_range c joint axis start stop steps w
    = (Returned (set_samples (samples c ++ new) c),
       advance (Z.to_nat steps) (maya w) w) /\
    length new = Z.to_nat steps /\
    (forall i s, new !! i = Some s ->
       exists angle,
         linspace_values start stop (Z.to_nat steps) !! i = Some angle /\
         joint_angles s
         = angles_of (<[String.append joint (String.append "." axis) := angle]>
                        (attrs (maya w))) (joints c)) /\
    (forall k o, joints c !! k = Some joint -> rotate_axes !! o = Some axis ->
       forall i s, new !! i = Some s ->
         joint_angles s !! (3 * k + o)%nat
         = linspace_values start stop (Z.to_nat steps) !! i).
Proof.
  intros Hch Hsteps Hcap.
  set (channel := String.append joint (String.append "." axis)) in *.
  set (angles := linspace_values start stop (Z.to_nat steps)) in *.
  destruct (range_loop c channel w (mk_is_Some _ _ Hch) angles (samples c) 0 (maya w))
    as (new & sc' & Hrun & Hsc' & Hlen & Hnew); [by left | done |].
  assert (advance 0 (maya w) w = w) as Hw0.
  { unfold advance. rewrite Nat.add_0_r. by destruct w. }
  rewrite Hw0, set_samples_id in Hrun.
  exists new. split_and!.
  - unfold capture_pose_range. fold channel.
    rewrite bind_run, print_run. unfold cmds_getAttr at 1.
    rewrite !bind_run. simpl. rewrite Hch. simpl.
    rewrite bind_run, (linspace_run _ _ _ _ Hsteps). fold angles.
    rewrite bind_run, Hrun.
    assert (is_Some (attrs (maya (advance (0 + length angles) sc' w)) !! channel)) as Hch'.
    { simpl. destruct Hsc' as [->|[v ->]]; [eauto|]. simpl.
      rewrite lookup_insert_eq. eauto. }
    rewrite bind_run, (setAttr_run _ _ _ Hch'), bind_run, print_run, ret_run.
    f_equal. unfold set_maya, advance. simpl.
    assert (with_attr channel original_value sc' = maya w) as ->.
    { destruct Hsc' as [->|[v ->]]; rewrite ?with_attr_twice; by apply with_attr_same. }
    unfold angles. by rewrite linspace_values_length.
  - rewrite Hlen. apply linspace_values_length.
  - done.
  - intros k o Hk Ho i s Hi.
    destruct (Hnew i s Hi) as (angle & Ha & Hja).
    rewrite Hja, Ha, (angles_of_lookup _ _ _ _ _ _ Hk Ho).
    fold channel. unfold attr_value. by rewrite lookup_insert_eq.
Qed.

(** ** When a capture succeeds *)

(** The rotation attributes of every tracked joint exist, the base mesh exists,
    and the collector has no corrective mesh. *)
Definition capture_ready (c : DataCollector) (sc : scene) : Prop :=
  Forall (fun j => Forall (fun ax => is_Some (attrs sc !! String.append j ax))
                     [".rotateX"; ".rotateY"; ".rotateZ"]) (joints c) /\
  is_Some (meshes sc !! base_mesh c) /\
  truthy (corrective_mesh c) = false.

Lemma joint_angles_loop_ready joints angles w :
  Forall (fun j => Forall (fun ax => is_Some (attrs (maya w) !! String.append j ax))
                     [".rotateX"; ".rotateY"; ".rotateZ"]) joints ->
  exists l, joint_angles_loop joints angles w = (Returned l, w).
Proof.
  revert angles. induction joints as [|j joints IH]; intros angles Hall.
  - by exists angles.
  - inversion Hall as [|? ? Hj Hall']; subst.
    inversion Hj as [|? ? [rx Hx] Hj1]; subst.
    inversion Hj1 as [|? ? [ry Hy] Hj2]; subst.
    inversion Hj2 as [|? ? [rz Hz] _]; subst.
    simpl. unfold cmds_getAttr. run_py. rewrite Hx. run_py. rewrite Hy. run_py.
    rewrite Hz. run_py. by apply IH.
Qed.

Lemma capture_ready_capturable c sc : capture_ready c sc -> capturable c sc.
Proof.
  intros (Hj & [ev Hev] & Hcm) w <-.
  destruct (joint_angles_loop_ready (joints c) [] w Hj) as [l Hl].
  unfold capture_sample, _get_joint_angles, _get_vertex_positions.
  rewrite bind_run, Hl. unfold mesh_getPoints at 1. rewrite !bind_run. simpl.
  rewrite Hev. simpl. rewrite !bind_run.
  unfold py_or. simpl. unfold sample_vertex_deltas.
  destruct (corrective_mesh c) as [t|]; [rewrite Hcm|]; simpl; eauto.
Qed.

Lemma capture_ready_with_attr c sc name v :
  capture_ready c sc -> capture_ready c (with_attr name v sc).
Proof.
  intros (Hj & Hm & Hcm). split_and!; [|done|done].
  rewrite Forall_forall in Hj |- *. intros j Hjin. specialize (Hj j Hjin).
  rewrite Forall_forall in Hj |- *. intros ax Hax. destruct (Hj ax Hax) as [x Hx].
  simpl.
  destruct (decide (name = String.append j ax)) as [->|Hne].
  - rewrite lookup_insert_eq. eauto.
  - rewrite lookup_insert_ne by done. eauto.
Qed.

(** ** The range of the specification: 0 to 120 in five steps *)

Definition elbow_collector : DataCollector := mk_collector "arm" ["elbow"] None [] 2.

Example linspace_0_120_5 :
  linspace_values 0%float 120%float 5 = [0; 30; 60; 90; 120]%float.
Proof. vm_compute. reflexivity. Qed.

Example capture_pose_range_0_120_5 :
  exists c' w',
    capture_pose_range elbow_collector "elbow" "rotateZ" 0%float 120%float 5
      (studio two_points 0) = (Returned c', w') /\
    joint_angles <$> samples c' =
      [ [0; 0; 0]; [0; 0; 30]; [0; 0; 60]; [0; 0; 90]; [0; 0; 120] ]%float /\
    maya w' = arm_scene two_points.
Proof. eexists _, _. split; [vm_compute; reflexivity|]. vm_compute. done. Qed.

Lemma elbow_collector_ready : capture_ready elbow_collector (arm_scene two_points).
Proof.
  split_and!; [|by eexists|done].
  repeat constructor; by eexists.
Qed.

End CollectorFacts.

Module RoundTripFacts.
Import World Collector Train PathFacts CollectorFacts LoaderFacts.

(** The captured arrays, flattened in the order [np.array] stacks them. *)
Definition flat_angles (l : list sample) : list float := concat (joint_angles <$> l).
Definition flat_deltas (l : list sample) : list float :=
  concat ((fun s => concat (point_list <$> vertex_deltas s)) <$> l).

(** Every sample has [k] angles and [v] deltas. *)
Definition uniform (l : list sample) (k v : nat) : Prop :=
  Forall (fun s => length (joint_angles s) = k /\ length (vertex_deltas s) = v) l.

Lemma forallb_same_length {A} (rows : list (list A)) (k : nat) :
  Forall (fun r => length r = k) rows ->
  forallb (fun r' => Nat.eqb (length r') k) rows = true.
Proof.
  induction 1 as [|r rows Hr _ IH]; simpl; [done|].
  rewrite IH, andb_true_r. by apply Nat.eqb_eq.
Qed.

Lemma array2_uniform {S} (rows : list (list float)) (k : nat) (s : S) :
  rows <> [] -> Forall (fun r => length r = k) rows ->
  array2 rows s = (Returned (mk_ndarray [length rows; k] (concat rows)), s).
Proof.
  intros Hne Hall. destruct rows as [|r rows]; [done|].
  unfold array2. inversion Hall as [|? ? Hr _]; subst.
  by rewrite (forallb_same_length _ _ Hall).
Qed.

Lemma array3_uniform {S} (blocks : list (list point)) (v : nat) (s : S) :
  blocks <> [] -> Forall (fun b => length b = v) blocks ->
  exists rest,
    array3 blocks s
    = (Returned (mk_ndarray (length blocks :: v :: rest)
                   (concat ((fun b' => concat (point_list <$> b')) <$> blocks))), s).
Proof.
  intros Hne Hall. destruct blocks as [|b blocks]; [done|].
  unfold array3. inversion Hall as [|? ? Hb _]; subst.
  rewrite (forallb_same_length _ _ Hall).
  destruct b; [by exists [] | by exists [3%nat]].
Qed.



Lemma uniform_angles l k v :
  uniform l k v -> Forall (fun r => length r = k) (joint_angles <$> l).
Proof.
  intros Hu. apply Forall_fmap. induction Hu as [|s l [H1 _] _ IH]; by constructor.
Qed.

Lemma uniform_deltas l k v :
  uniform l k v -> Forall (fun b => length b = v) (vertex_deltas <$> l).
Proof.
  intros Hu. apply Forall_fmap. induction Hu as [|s l [_ H2] _ IH]; by constructor.
Qed.







(** ** The round trip as the specification states it *)



(** A store with one sample: the elbow at 90 degrees, and a delta of one tenth
    on the first vertex. *)
Definition bent_store : DataCollector :=
  mk_collector "arm" ["elbow"] None
    [ mk_sample [0; 0; 90]%float
        [ (0x1.999999999999ap-4, 0, 0)%float; (0, 0, 0)%float ] "0" ] 2.

(** What the round trip makes of [bent_store]: the angle of 90 degrees comes
    back as 0.5, and the delta of one tenth as its nearest single-precision
    value. *)
Example round_trip_of_bent_store :
  exists w1 ds,
    save_dataset bent_store "data/poses.npz" (studio two_points 1) = (Returned tt, w1) /\
    CorrectiveDeformerDataset_init "data/poses.npz" w1 = (Returned ds, w1) /\
    flat_angles (samples bent_store) = [0; 0; 90]%float /\
    entries (ds_joint_angles ds) = [0; 0; 0.5]%float /\
    flat_deltas (samples bent_store)
      = [0x1.999999999999ap-4; 0; 0; 0; 0; 0]%float /\
    entries (ds_vertex_deltas ds) = [0x1.99999ap-4; 0; 0; 0; 0; 0]%float.
Proof. eexists _, _. split; [vm_compute; reflexivity|]. vm_compute. done. Qed.



(** ** Paths that cannot be saved to *)

(** A path that ends with a slash: the archive is written as [data/.npz], then
    opening the metadata file, which is the path itself, fails. *)
Example save_dataset_to_a_directory :
  exists w',
    save_dataset bent_store "data/" (studio two_points 1)
    = (Raised (IsADirectoryError "data/"), w') /\
    (written w').*1 = ["data/.npz"].
Proof. eexists. split; [vm_compute; reflexivity|]. vm_compute. done. Qed.

(** A directory whose name contains [.npz]: the replacement rewrites the
    directory part as well, and the metadata file is opened in a directory that
    nothing has made. *)
Example save_dataset_under_npz_directory :
  exists w',
    save_dataset bent_store "run.npz/poses.npz" (studio two_points 1)
    = (Raised (FileNotFoundError "run_metadata.json/poses_metadata.json"), w') /\
    (written w').*1 = ["run.npz/poses.npz"].
Proof. eexists. split; [vm_compute; reflexivity|]. vm_compute. done. Qed.

End RoundTripFacts.

Local Open Scope Z_scope.
Local Open Scope py_scope.

(* ===================================================================== *)
(** * The order of floats *)
(* ===================================================================== *)

Module FloatOrder.

Ltac compare_cases :=
  repeat match goal with
  | H : context [Z.compare ?a ?b] |- _ => destruct (Z.compare_spec a b); simpl in H
  | |- context [Z.compare ?a ?b] => destruct (Z.compare_spec a b); simpl
  | H : context [Pos.compare_cont Eq ?a ?b] |- _ =>
      change (Pos.compare_cont Eq a b) with (Pos.compare a b) in H;
      destruct (Pos.compare_spec a b); simpl in H
  | |- context [Pos.compare_cont Eq ?a ?b] =>
      change (Pos.compare_cont Eq a b) with (Pos.compare a b);
      destruct (Pos.compare_spec a b); simpl
  end.

Ltac spec_float_cases :=
  unfold SFltb, SFeqb, SFcompare;
  repeat match goal with
  | x : spec_float |- _ => destruct x as [[]|[]| |[] ? ?]
  end;
  simpl; intros; try done; compare_cases; subst; try done; try lia.

Lemma SFltb_trans (a b c : spec_float) :
  SFltb a b = true -> SFltb b c = true -> SFltb a c = true.
Proof. revert a b c. intros a b c. spec_float_cases. Qed.

Lemma SFltb_irrefl (a : spec_float) : SFltb a a = false.
Proof. spec_float_cases. Qed.

Lemma SFltb_not_nan (a b : spec_float) : SFltb a b = true -> SFeqb a a = true.
Proof. spec_float_cases. Qed.

Lemma SFltb_equivalent (a b v : spec_float) :
  SFeqb a a = true -> SFeqb b b = true ->
  SFltb a b = false -> SFltb b a = false -> SFltb v a = SFltb v b.
Proof. spec_float_cases. Qed.

Lemma fltb_trans (a b c : float) : fltb a b = true -> fltb b c = true -> fltb a c = true.
Proof. unfold fltb. rewrite !FloatAxioms.ltb_spec. apply SFltb_trans. Qed.

Lemma fltb_irrefl (a : float) : fltb a a = false.
Proof. unfold fltb. rewrite FloatAxioms.ltb_spec. apply SFltb_irrefl. Qed.

Lemma fltb_not_nan (a b : float) : fltb a b = true -> feqb a a = true.
Proof. unfold fltb, feqb. rewrite FloatAxioms.ltb_spec, FloatAxioms.eqb_spec. apply SFltb_not_nan. Qed.

Lemma fltb_equivalent (a b v : float) :
  feqb a a = true -> feqb b b = true ->
  fltb a b = false -> fltb b a = false -> fltb v a = fltb v b.
Proof. unfold fltb, feqb. rewrite !FloatAxioms.ltb_spec, !FloatAxioms.eqb_spec. apply SFltb_equivalent. Qed.

Lemma fltb_infinity (a : float) : fltb PrimFloat.infinity a = false.
Proof.
  unfold fltb. rewrite FloatAxioms.ltb_spec.
  change (Prim2SF PrimFloat.infinity) with (S754_infinity false).
  by destruct (Prim2SF a) as [[]|[]| |[] ? ?].
Qed.

End FloatOrder.

(* ===================================================================== *)
(** * The training loop *)
(* ===================================================================== *)

Module TrainerFacts.
Import World Model Train FloatOrder.

(** ** The lowest validation loss seen so far *)

(** [b] is the lowest loss among [seen]: it is a number, no loss of [seen] is
    strictly below it, and it is one of them, or infinity, the value a run starts
    from.  A loss that is not a number is below nothing. *)
Definition lowest_seen (seen : list float) (b : float) : Prop :=
  (b = PrimFloat.infinity \/ b ∈ seen) /\
  feqb b b = true /\
  forall x, x ∈ seen -> fltb x b = false.

Lemma lowest_seen_nil : lowest_seen [] PrimFloat.infinity.
Proof. split_and!; [by left | done | by intros x ?%elem_of_nil]. Qed.

Lemma lowest_seen_snoc seen b v :
  lowest_seen seen b ->
  lowest_seen (seen ++ [v]) (if fltb v b then v else b).
Proof.
  intros (Hb & Hn & Hl). destruct (fltb v b) eqn:Hv.
  - split_and!.
    + right. apply elem_of_app. right. by apply list_elem_of_singleton.
    + by apply fltb_not_nan with b.
    + intros x [Hx | ->%list_elem_of_singleton]%elem_of_app; [|apply fltb_irrefl].
      destruct (fltb x v) eqn:Hxv; [|done].
      by rewrite <- (Hl x Hx), (fltb_trans x v b).
  - split_and!; [| done |].
    + destruct Hb as [-> | Hb]; [by left | right; apply elem_of_app; by left].
    + intros x [Hx | ->%list_elem_of_singleton]%elem_of_app; [by apply Hl | done].
Qed.

(** Two lowest losses of the same list compare alike with every loss. *)
Lemma lowest_seen_unique seen b b' v :
  lowest_seen seen b -> lowest_seen seen b' -> fltb v b = fltb v b'.
Proof.
  intros (Hb & Hn & Hl) (Hb' & Hn' & Hl'). apply fltb_equivalent; try done.
  - destruct Hb as [-> | Hb]; [apply fltb_infinity | by apply Hl'].
  - destruct Hb' as [-> | Hb']; [apply fltb_infinity | by apply Hl].
Qed.

(** ** Paths of the checkpoints *)

Lemma append_inj_l (p a b : string) : String.append p a = String.append p b -> a = b.
Proof. induction p as [|c p IH]; simpl; [done|]. intros [=]. by apply IH. Qed.

Lemma best_path_not_periodic (save_dir : string) (epoch : Z) :
  path_join save_dir "best_model.pth" <> path_join save_dir (periodic_name epoch).
Proof.
  unfold path_join, periodic_name. simpl.
  destruct (bool_decide (save_dir = "") || ends_with "/" save_dir);
    intros H%append_inj_l; discriminate.
Qed.

(** ** One epoch *)

Lemma stateless_lift_result {S A} (r : exn + A) : stateless (lift_result r : M S A).
Proof. destruct r; by intros s. Qed.

Lemma stateless_fold_each {S A B} (xs : list A) (body : B -> A -> M S B) :
  (forall acc x, stateless (body acc x)) ->
  forall acc, stateless (fold_each xs acc body).
Proof.
  intros Hbody. induction xs as [|x xs IH]; intros acc; simpl.
  - apply stateless_ret.
  - apply stateless_bind; [apply Hbody | apply IH].
Qed.

Section Loop.
Variable torch : backend.
Variables train_loader val_loader : list (batch torch).
Variable save_dir : string.

Lemma stateless_mean_loss total n : stateless (mean_loss total n).
Proof. unfold mean_loss. case_decide; [apply stateless_raise | apply stateless_ret]. Qed.

Lemma stateless_train_epoch t : stateless (train_epoch torch t train_loader).
Proof.
  unfold train_epoch. apply stateless_bind.
  - apply stateless_fold_each. intros [t' total] b.
    apply stateless_bind; [apply stateless_lift_result|].
    intros [[ps os] loss]. apply stateless_ret.
  - intros r. apply stateless_bind; [apply stateless_mean_loss|].
    intros avg. apply stateless_ret.
Qed.

Lemma stateless_validate t : stateless (validate torch t val_loader).
Proof.
  unfold validate. apply stateless_bind.
  - apply stateless_fold_each. intros total b.
    apply stateless_bind; [apply stateless_lift_result|].
    intros loss. apply stateless_ret.
  - intros total. apply stateless_mean_loss.
Qed.

(** The optimisation steps of an epoch leave the histories and the best loss
    alone. *)
Definition same_record (t t' : Trainer) : Prop :=
  train_losses t' = train_losses t /\
  val_losses t' = val_losses t /\
  best_val_loss t' = best_val_loss t.

Lemma fit_batches_keep_record (loader : list (batch torch)) t total r w w' :
  fold_each loader (t, total)
    (fun (acc : Trainer * float) (b : batch torch) =>
       let '(t, total_loss) := acc in
       step <- lift_result (fit_batch torch (model t) (parameters t, optimizer t) b) ;;
       let '(ps, os, loss) := step in
       (ret (set_learner (ps, os) t, fadd total_loss loss) : M world (Trainer * float)))
    w = (Returned r, w') ->
  same_record t r.1.
Proof.
  revert t total w. induction loader as [|b loader IH]; intros t total w.
  - intros [= <- _]. done.
  - rewrite fold_each_cons, bind_run, bind_run.
    destruct (fit_batch torch (model t) (parameters t, optimizer t) b)
      as [e | [[ps os] loss]]; simpl; [done|].
    intros Hrun. apply IH in Hrun. exact Hrun.
Qed.

Lemma train_epoch_keeps_record t r w w' :
  train_epoch torch t train_loader w = (Returned r, w') -> same_record t r.1.
Proof.
  unfold train_epoch. rewrite bind_run.
  destruct (fold_each train_loader (t, fzero) _ w) as [[r0| |] w0] eqn:Hfold; try done.
  apply fit_batches_keep_record in Hfold.
  rewrite bind_run.
  destruct (mean_loss r0.2 (length train_loader) w0) as [[avg| |] w1]; try done.
  by intros [= <- _].
Qed.

(** What one epoch writes: the best checkpoint if the loss improved, then the
    periodic checkpoint if the epoch number asks for it. *)
Definition epoch_writes (epoch : Z) (improved : bool) (c1 c2 : checkpoint)
  : list (string * file) :=
  (if improved then [(path_join save_dir "best_model.pth", CheckpointFile c1)] else []) ++
  (if decide ((epoch + 1) mod 10 = 0)
   then [(path_join save_dir (periodic_name epoch), CheckpointFile c2)] else []).

Lemma train_one_epoch_spec t epoch w :
  match train_one_epoch torch train_loader val_loader save_dir t epoch w with
  | (Returned t', w') =>
      exists v c1 c2,
        val_losses t' = val_losses t ++ [v] /\
        length (train_losses t') = S (length (train_losses t)) /\
        best_val_loss t' = (if fltb v (best_val_loss t) then v else best_val_loss t) /\
        ck_epoch c1 = epoch /\ ck_epoch c2 = epoch /\
        written w' = written w ++ epoch_writes epoch (fltb v (best_val_loss t)) c1 c2
  | (Raised _, w') =>
      w' = w \/
      exists v c1,
        fltb v (best_val_loss t) = true /\ (epoch + 1) mod 10 = 0 /\
        ck_epoch c1 = epoch /\
        w' = add_file (path_join save_dir "best_model.pth") (CheckpointFile c1) w
  | (Timeout, _) => False
  end.
Proof.
  unfold train_one_epoch. rewrite bind_run.
  destruct (stateless_cases (train_epoch torch t train_loader) w
              (stateless_train_epoch t)) as [[r Hr] | [e Hr]]; rewrite Hr; [|by left].
  destruct (train_epoch_keeps_record _ _ _ _ Hr) as (Htl & Hvl & Hbest).
  destruct r as [t1 train_loss]. simpl in Htl, Hvl, Hbest. cbn [fst snd].
  rewrite bind_run.
  destruct (stateless_cases
              (validate torch (append_train_loss train_loss t1) val_loader) w
              (stateless_validate _)) as [[v Hv] | [e Hv]]; rewrite Hv; [|by left].
  rewrite bind_run, print_run.
  change (best_val_loss (set_optimizer _ (append_val_loss v (append_train_loss train_loss t1))))
    with (best_val_loss t1).
  rewrite Hbest.
  set (c := mk_checkpoint epoch (parameters t1) (scheduler_step torch (optimizer t1) v) v
              (train_losses t1 ++ [train_loss]) (val_losses t1 ++ [v])).
  unfold save_checkpoint.
  destruct (fltb v (best_val_loss t)) eqn:Hlt; unfold epoch_writes.
  - step_py. destruct (write_error w (path_join save_dir "best_model.pth")); [by left|].
    step_py. case_decide.
    + step_py.
      destruct (write_error _ (path_join save_dir (periodic_name epoch))).
      * right. by exists v, c.
      * exists v, c, c. rewrite Hlt. simpl. split_and!;
          [ by rewrite <- Hvl
          | rewrite <- Htl, length_app; simpl; lia
          | done | done | done
          | by rewrite <- ?app_assoc ].
    + step_py.
      exists v, c, c. rewrite Hlt. simpl. split_and!;
        [ by rewrite <- Hvl
        | rewrite <- Htl, length_app; simpl; lia
        | done | done | done | done ].
  - step_py. case_decide.
    + step_py.
      destruct (write_error _ (path_join save_dir (periodic_name epoch))); [by left|].
      exists v, c, c. rewrite Hlt. simpl. split_and!;
        [ by rewrite <- Hvl
        | rewrite <- Htl, length_app; simpl; lia
        | done | done | done | done ].
    + step_py.
      exists v, c, c. rewrite Hlt. simpl. split_and!;
        [ by rewrite <- Hvl
        | rewrite <- Htl, length_app; simpl; lia
        | done | done | done
        | by rewrite ?app_nil_r ].
Qed.

(** ** The policy *)

(** Among the writes of one epoch: the best checkpoint, the periodic
    checkpoint. *)
Definition best_written (seg : list (string * file)) : Prop :=
  exists c, (path_join save_dir "best_model.pth", CheckpointFile c) ∈ seg.

Definition periodic_written (epoch : Z) (seg : list (string * file)) : Prop :=
  exists c, (path_join save_dir (periodic_name epoch), CheckpointFile c) ∈ seg.

(** Epoch [e] (counted from zero) with validation loss [v], after the losses
    [seen], wrote [seg] as the policy asks: only checkpoints stamped with [e]; the
    best checkpoint exactly when [v] is strictly below the lowest loss seen; the
    periodic checkpoint exactly when [e + 1] is a multiple of ten. *)
Definition epoch_ok (e : nat) (seen : list float) (v : float)
  (seg : list (string * file)) : Prop :=
  Forall (fun pf => exists c, pf.2 = CheckpointFile c /\ ck_epoch c = Z.of_nat e) seg /\
  (exists b, lowest_seen seen b) /\
  (forall b, lowest_seen seen b -> (best_written seg <-> fltb v b = true)) /\
  (periodic_written (Z.of_nat e) seg <-> (Z.of_nat e + 1) mod 10 = 0).

(** [segs] lists what each epoch wrote, [vals] the validation loss of each
    epoch. *)
Definition policy_followed (vals : list float) (segs : list (list (string * file)))
  : Prop :=
  length segs = length vals /\
  forall e v seg,
    vals !! e = Some v -> segs !! e = Some seg -> epoch_ok e (take e vals) v seg.

(** What an epoch [e] that did not complete may have written: nothing, unless
    it is the write of its periodic checkpoint that failed; then its best
    checkpoint is there, stamped with [e], and the policy asked for it, since the
    loss of the epoch was strictly below the lowest loss seen. *)
Definition epoch_cut_short (e : nat) (seen : list float)
  (seg : list (string * file)) : Prop :=
  seg = [] \/
  exists v c,
    seg = [(path_join save_dir "best_model.pth", CheckpointFile c)] /\
    ck_epoch c = Z.of_nat e /\
    (forall b, lowest_seen seen b -> fltb v b = true) /\
    (Z.of_nat e + 1) mod 10 = 0.

Lemma epoch_writes_ok e seen b0 v c1 c2 :
  lowest_seen seen b0 -> ck_epoch c1 = Z.of_nat e -> ck_epoch c2 = Z.of_nat e ->
  epoch_ok e seen v (epoch_writes (Z.of_nat e) (fltb v b0) c1 c2).
Proof.
  intros Hb0 H1 H2. split_and!.
  - unfold epoch_writes. destruct (fltb v b0); case_decide; repeat constructor; eauto.
  - by exists b0.
  - intros b Hb. rewrite (lowest_seen_unique seen b b0 v Hb Hb0).
    unfold best_written, epoch_writes.
    destruct (fltb v b0); case_decide; simpl; split; try done.
    + intros _. exists c1. by left.
    + intros _. exists c1. by left.
    + intros [c [[= Hp _]|[]%elem_of_nil]%elem_of_cons].
      by apply best_path_not_periodic in Hp.
    + by intros [c Hin%elem_of_nil].
  - unfold periodic_written, epoch_writes.
    destruct (fltb v b0); case_decide; simpl; split; try done.
    + intros _. exists c2. right. by left.
    + intros [c [[= Hp _]|[]%elem_of_nil]%elem_of_cons].
      symmetry in Hp. by apply best_path_not_periodic in Hp.
    + intros _. exists c2. by left.
    + by intros [c Hin%elem_of_nil].
Qed.

Lemma policy_followed_nil : policy_followed [] [].
Proof. split; [done|]. by intros e v seg ?. Qed.

Lemma policy_followed_snoc vals segs v seg :
  policy_followed vals segs -> epoch_ok (length vals) vals v seg ->
  policy_followed (vals ++ [v]) (segs ++ [seg]).
Proof.
  intros [Hlen Hall] Hok. split; [rewrite !length_app; simpl; lia|].
  intros e v' seg' Hv Hs.
  destruct (decide (e < length vals)%nat) as [Hlt|Hge].
  - rewrite lookup_app_l in Hv by done. rewrite lookup_app_l in Hs by lia.
    rewrite take_app_le by lia. by apply Hall.
  - pose proof (lookup_lt_Some _ _ _ Hv) as Hlt. rewrite length_app in Hlt; simpl in Hlt.
    assert (e = length vals) as -> by lia.
    rewrite take_app_length.
    rewrite lookup_app_r, Nat.sub_diag in Hv by lia.
    rewrite <- Hlen, lookup_app_r, Nat.sub_diag in Hs by lia.
    simpl in Hv, Hs. by simplify_eq.
Qed.

(** The loop, from any epoch on. *)
Lemma train_loop_spec (n : nat) :
  forall t w segs0,
    length (train_losses t) = length (val_losses t) ->
    lowest_seen (val_losses t) (best_val_loss t) ->
    policy_followed (val_losses t) segs0 ->
    match fold_each (Z.of_nat <$> seq (length (val_losses t)) n) t
            (train_one_epoch torch train_loader val_loader save_dir) w with
    | (Returned t', w') =>
        exists segs,
          written w' = written w ++ concat segs /\
          policy_followed (val_losses t') (segs0 ++ segs) /\
          length (val_losses t') = (length (val_losses t) + n)%nat /\
          length (train_losses t') = length (val_losses t')
    | (Raised _, w') =>
        exists vals segs rest,
          (length vals < length (val_losses t) + n)%nat /\
          written w' = written w ++ concat segs ++ rest /\
          policy_followed vals (segs0 ++ segs) /\
          epoch_cut_short (length vals) vals rest
    | (Timeout, _) => False
    end.
Proof.
  induction n as [|n IH]; intros t w segs0 Hlen Hlow Hpol.
  - simpl. exists []. simpl. rewrite !app_nil_r. split_and!; [done | done | lia | done].
  - cbn [seq fmap list_fmap]. rewrite fold_each_cons, bind_run.
    pose proof (train_one_epoch_spec t (Z.of_nat (length (val_losses t))) w) as Hstep.
    destruct (train_one_epoch torch train_loader val_loader save_dir t
                (Z.of_nat (length (val_losses t))) w) as [[t1|e|] w1]; [| |done].
    + destruct Hstep as (v & c1 & c2 & Hvl & Htl & Hbest & H1 & H2 & Hw).
      set (seg := epoch_writes (Z.of_nat (length (val_losses t)))
                    (fltb v (best_val_loss t)) c1 c2) in *.
      assert (length (val_losses t1) = S (length (val_losses t))) as Hlen1.
      { rewrite Hvl, length_app. simpl. lia. }
      specialize (IH t1 w1 (segs0 ++ [seg])). rewrite Hlen1 in IH.
      assert (policy_followed (val_losses t1) (segs0 ++ [seg])) as Hpol1.
      { rewrite Hvl. apply policy_followed_snoc; [done|].
        by apply epoch_writes_ok. }
      assert (lowest_seen (val_losses t1) (best_val_loss t1)) as Hlow1.
      { rewrite Hvl, Hbest. by apply lowest_seen_snoc. }
      specialize (IH ltac:(lia) Hlow1 Hpol1).
      destruct (fold_each (Z.of_nat <$> seq (S (length (val_losses t))) n) t1
                  (train_one_epoch torch train_loader val_loader save_dir) w1)
        as [[t2|e|] w2]; [| |done].
      * destruct IH as (segs & Hw2 & Hpol2 & Hl2 & Hl2').
        exists (seg :: segs). rewrite <- app_assoc in Hpol2.
        split_and!; [|done|lia|done].
        rewrite Hw2, Hw. simpl. by rewrite <- app_assoc.
      * destruct IH as (vals & segs & rest & Hl & Hw2 & Hpol2 & Hcut).
        exists vals, (seg :: segs), rest. rewrite <- app_assoc in Hpol2.
        split_and!; [lia| |done|done].
        rewrite Hw2, Hw. simpl. by rewrite <- !app_assoc.
    + destruct Hstep as [-> | (v & c1 & Hlt & Hmod & Hck & ->)].
      * exists (val_losses t), [], []. simpl. rewrite !app_nil_r.
        split_and!; [lia | done | done | by left].
      * exists (val_losses t), [], [(path_join save_dir "best_model.pth", CheckpointFile c1)].
        simpl. rewrite !app_nil_r.
        split_and!; [lia | done | done |].
        right. exists v, c1. split_and!; [done | done | | done].
        intros b Hb. by rewrite (lowest_seen_unique _ b (best_val_loss t) v Hb Hlow).
Qed.

(** C6.  A trainer is created and its loop run for [num_epochs] epochs, with any
    tensor library, loaders, directory and file system.  The run never hangs.
    What it wrote is the concatenation of what each completed epoch wrote, and
    every completed epoch followed the policy ([policy_followed]): in epoch [e]
    the best checkpoint was written exactly when the validation loss of [e] was
    strictly below the lowest validation loss of the epochs before it (infinity
    before the first), and the periodic checkpoint exactly when [e + 1] is a
    multiple of ten.  If the run returns, all [num_epochs] epochs were
    completed, and the two loss histories have exactly that many entries; if it
    raises, fewer epochs were completed, and the epoch that raised wrote
    nothing, or only the best checkpoint that the policy asked for when it was
    the write of its periodic checkpoint that failed ([epoch_cut_short]). *)
Theorem checkpoint_policy (m : module) (num_epochs : Z) (w : world) :
  match (t0 <- Trainer_init torch m ;;
         train_epochs torch t0 train_loader val_loader num_epochs save_dir) w with
  | (Returned t, w') =>
      exists segs,
        written w' = written w ++ concat segs /\
        policy_followed (val_losses t) segs /\
        length (train_losses t) = Z.to_nat num_epochs /\
        length (val_losses t) = Z.to_nat num_epochs
  | (Raised _, w') =>
      exists vals segs rest,
        (length vals < Z.to_nat num_epochs)%nat /\
        written w' = written w ++ concat segs ++ rest /\
        policy_followed vals segs /\
        epoch_cut_short (length vals) vals rest
  | (Timeout, _) => False
  end.
Proof.
  unfold Trainer_init. rewrite bind_run, bind_run, print_run, ret_run.
  unfold train_epochs, py_range.
  set (t0 := mk_trainer m _ _ [] [] PrimFloat.infinity).
  pose proof (train_loop_spec (Z.to_nat num_epochs) t0 w [] eq_refl
                lowest_seen_nil policy_followed_nil) as Hloop.
  cbn [val_losses t0 length] in Hloop.
  destruct (fold_each (Z.of_nat <$> seq 0 (Z.to_nat num_epochs)) t0
              (train_one_epoch torch train_loader val_loader save_dir) w)
    as [[t|e|] w']; [| |done].
  - destruct Hloop as (segs & Hw & Hpol & Hl & Hl'). exists segs.
    split_and!; [done | done | lia | lia].
  - destruct Hloop as (vals & segs & rest & Hl & Hw & Hpol & Hcut).
    by exists vals, segs, rest.
Qed.

End Loop.

(** ** Runs that return *)

Section Returns.
Variable torch : backend.
Variables train_loader val_loader : list (batch torch).
Variable save_dir : string.

Hypothesis train_batches : train_loader <> [].
Hypothesis val_batches : val_loader <> [].
Hypothesis fit_total :
  forall m st b, exists r, fit_batch torch m st b = inr r.
Hypothesis eval_total :
  forall m ps b, exists v, eval_batch torch m ps b = inr v.

Lemma fold_each_returns {A B} (xs : list A) (body : B -> A -> M world B) :
  (forall acc x w, exists acc', body acc x w = (Returned acc', w)) ->
  forall acc w, exists acc', fold_each xs acc body w = (Returned acc', w).
Proof.
  intros Hbody. induction xs as [|x xs IH]; intros acc w; [by exists acc|].
  rewrite fold_each_cons, bind_run.
  destruct (Hbody acc x w) as [acc' ->]. apply IH.
Qed.

Lemma mean_loss_returns total (loader : list (batch torch)) (w : world) :
  loader <> [] ->
  mean_loss total (length loader) w = (Returned (fdiv total (of_nat (length loader))), w).
Proof. intros Hne. unfold mean_loss. by destruct loader. Qed.

Lemma train_epoch_returns t w :
  exists r, train_epoch torch t train_loader w = (Returned r, w).
Proof.
  unfold train_epoch. rewrite bind_run.
  match goal with |- context [fold_each _ ?acc ?body w] =>
    assert (forall a x s, exists a', body a x s = (Returned a', s)) as Hbody;
    [| destruct (fold_each_returns train_loader body Hbody acc w) as [r ->]]
  end.
  - intros [t' total] b w'. rewrite bind_run.
    destruct (fit_total (model t') (parameters t', optimizer t') b) as [[[ps os] loss] ->].
    by eexists.
  - rewrite bind_run, mean_loss_returns by done. by eexists.
Qed.

Lemma validate_returns t w :
  exists v, validate torch t val_loader w = (Returned v, w).
Proof.
  unfold validate. rewrite bind_run.
  match goal with |- context [fold_each _ ?acc ?body w] =>
    assert (forall a x s, exists a', body a x s = (Returned a', s)) as Hbody;
    [| destruct (fold_each_returns val_loader body Hbody acc w) as [r ->]]
  end.
  - intros total b w'. rewrite bind_run.
    destruct (eval_total (model t) (parameters t) b) as [loss ->]. by eexists.
  - rewrite mean_loss_returns by done. by eexists.
Qed.

(** Both checkpoints of every epoch can be opened in [save_dir]. *)
Definition checkpoints_writable (w : world) : Prop :=
  write_error w (path_join save_dir "best_model.pth") = None /\
  forall epoch, write_error w (path_join save_dir (periodic_name epoch)) = None.

Lemma checkpoints_writable_add_file w path c :
  checkpoints_writable w -> write_error w path = None ->
  checkpoints_writable (add_file path (CheckpointFile c) w).
Proof.
  intros [Hb Hp] Hpath. split; [|intros epoch]; by apply write_error_add_file.
Qed.

Lemma train_one_epoch_returns t epoch w :
  checkpoints_writable w ->
  exists t' w',
    train_one_epoch torch train_loader val_loader save_dir t epoch w = (Returned t', w') /\
    checkpoints_writable w'.
Proof.
  intros Hw. pose proof Hw as [Hb Hp].
  unfold train_one_epoch. rewrite bind_run.
  destruct (train_epoch_returns t w) as [r ->].
  rewrite bind_run.
  destruct (validate_returns (append_train_loss r.2 r.1) w) as [v ->].
  rewrite bind_run, print_run. unfold save_checkpoint.
  destruct (fltb v _).
  - step_py. rewrite Hb. step_py.
    match goal with |- context [add_file ?p (CheckpointFile ?c) w] =>
      pose proof (checkpoints_writable_add_file w p c Hw Hb) as Hw1 end.
    case_decide.
    + step_py. rewrite (proj2 Hw1 epoch). eexists _, _. split; [reflexivity|].
      apply checkpoints_writable_add_file; [done | apply Hw1].
    + step_py. by eexists _, _.
  - step_py. case_decide.
    + step_py. rewrite (Hp epoch). eexists _, _. split; [reflexivity|].
      by apply checkpoints_writable_add_file.
    + step_py. by eexists _, _.
Qed.

(** With batches to train and to validate on, a library that raises nothing
    and a directory in which the checkpoints can be written, the loop
    completes every epoch. *)
Lemma train_epochs_returns t num_epochs w :
  checkpoints_writable w ->
  exists t' w',
    train_epochs torch t train_loader val_loader num_epochs save_dir w = (Returned t', w').
Proof.
  unfold train_epochs. generalize (py_range num_epochs) as epochs.
  intros epochs. revert t w.
  induction epochs as [|e epochs IH]; intros t w Hw; [by eexists _, _|].
  rewrite fold_each_cons, bind_run.
  destruct (train_one_epoch_returns t e w Hw) as (t1 & w1 & -> & Hw1). by apply IH.
Qed.

End Returns.

(** ** A run *)

(** A library whose validation loss follows a script: the loss of an epoch is
    the entry of the script at the number of optimisation steps taken so far. *)
Definition scripted_backend (script : list float) : backend :=
  mk_backend unit
    (fun _ => ([], []))
    (fun _ st _ => inr (("step", mk_ndarray [] []) :: st.1, st.2, 0%float))
    (fun _ ps _ => inr (nth (length ps) script 1%float))
    (fun o _ => o)
    (fun _ train_size val_size _ =>
       inr (replicate (Z.to_nat train_size) tt, replicate (Z.to_nat val_size) tt)).

Definition losses : list float :=
  [1; 5; 3; 3; nan; 4; 2; 2; 6; 1; 0.5; 7; 7]%float.

Definition bare_module : module := mk_module CorrectiveDeformerNet ∅ [].

Definition bare_world : world := mk_world (mk_scene ∅ ∅) 0 ∅ [] None None.

(** The same with a directory [models]. *)
Definition models_world : world := add_dir "models" bare_world.

(** The path and the epoch of every checkpoint of a journal. *)
Definition stamps (journal : list (string * file)) : list (string * Z) :=
  omap (fun pf => match pf.2 with
                  | CheckpointFile c => Some (pf.1, ck_epoch c)
                  | _ => None
                  end) journal.

(** Twelve epochs with the losses 5, 3, 3, nan, 4, 2, 2, 6, 1, 0.5, 7, 7: the best
    checkpoint is written in the epochs 0, 1, 5, 8 and 9, the periodic one in
    epoch 9. *)
Example twelve_epochs :
  exists t w',
    (t0 <- Trainer_init (scripted_backend losses) bare_module ;;
     train_epochs (scripted_backend losses) t0 [tt] [tt] 12 "models") models_world
    = (Returned t, w') /\
    length (train_losses t) = 12%nat /\
    val_losses t = [5; 3; 3; nan; 4; 2; 2; 6; 1; 0.5; 7; 7]%float /\
    stamps (written w')
    = [ ("models/best_model.pth", 0); ("models/best_model.pth", 1);
        ("models/best_model.pth", 5); ("models/best_model.pth", 8);
        ("models/best_model.pth", 9); ("models/checkpoint_epoch_10.pth", 9) ].
Proof. eexists _, _. split; [vm_compute; reflexivity|]. vm_compute. done. Qed.

(** The same run without the directory: the first epoch improves on infinity,
    and the write of its checkpoint fails. *)
Example twelve_epochs_without_directory :
  exists e,
    (t0 <- Trainer_init (scripted_backend losses) bare_module ;;
     train_epochs (scripted_backend losses) t0 [tt] [tt] 12 "models") bare_world
    = (Raised e, bare_world).
Proof. eexists. vm_compute. reflexivity. Qed.

(** The periodic checkpoint of the tenth epoch cannot be written where a
    directory has its name: the run ends there, after the best checkpoint of
    that epoch was written. *)
Example tenth_epoch_cut_short :
  exists e w',
    (t0 <- Trainer_init (scripted_backend losses) bare_module ;;
     train_epochs (scripted_backend losses) t0 [tt] [tt] 12 "models")
      (add_dir "models/checkpoint_epoch_10.pth" models_world)
    = (Raised e, w') /\
    stamps (written w')
    = [ ("models/best_model.pth", 0); ("models/best_model.pth", 1);
        ("models/best_model.pth", 5); ("models/best_model.pth", 8);
        ("models/best_model.pth", 9) ].
Proof. eexists _, _. split; [vm_compute; reflexivity|]. vm_compute. done. Qed.

End TrainerFacts.

(* ===================================================================== *)
(** * Further properties of the deformer *)
(* ===================================================================== *)

Module FloatZero.

(** A float that is a number other than an infinity. *)
Definition finite (x : float) : bool :=
  match Prim2SF x with
  | S754_zero _ | S754_finite _ _ _ => true
  | _ => false
  end.

Definition is_zero (x : float) : bool :=
  match Prim2SF x with
  | S754_zero _ => true
  | _ => false
  end.

(** [a == b] as Python has it, or both are NaN. *)
Definition same_number (a b : float) : Prop :=
  feqb a b = true \/ (feqb a a = false /\ feqb b b = false).

Lemma is_zero_finite x : is_zero x = true -> finite x = true.
Proof. unfold is_zero, finite. by destruct (Prim2SF x). Qed.

Lemma fmul_zero_l a b : is_zero a = true -> finite b = true -> is_zero (fmul a b) = true.
Proof.
  unfold is_zero, finite, fmul. rewrite FloatAxioms.mul_spec. unfold SF64mul.
  by destruct (Prim2SF a), (Prim2SF b).
Qed.

Lemma SFeqb_refl_number x : x <> S754_nan -> SFeqb x x = true.
Proof.
  unfold SFeqb, SFcompare. destruct x as [[]|[]| |[] m e]; try done; intros _.
  - by rewrite Z.compare_refl, Pos.compare_cont_refl.
  - by rewrite Z.compare_refl, Pos.compare_cont_refl.
Qed.

Lemma fadd_zero_r x c : is_zero c = true -> same_number x (fadd x c).
Proof.
  unfold is_zero, same_number, feqb, fadd. rewrite !FloatAxioms.eqb_spec, FloatAxioms.add_spec.
  unfold SF64add. destruct (Prim2SF c) as [sc| | |]; try done. intros _.
  destruct (Prim2SF x) as [[]|[]| |[] m e]; destruct sc; simpl;
    try (by left); try (by right).
  all: left; by apply SFeqb_refl_number.
Qed.

Lemma same_number_refl x : same_number x x.
Proof.
  unfold same_number. destruct (feqb x x) eqn:E; [by left | by right].
Qed.

End FloatZero.

Module DeformerMore.
Import Deformer DeformerFacts FloatZero.

Ltac host_cbn :=
  cbn [geometry cursor calls faults block count_call set_cursor set_geometry] in *.

Section WithSine.
Variable np_sin : float -> float.

Lemma corrected_index cs w (e : nat * point) : (corrected cs w e).1 = e.1.
Proof. unfold corrected. by destruct (cs !! e.1). Qed.

Lemma applied_to_prefix_indices n h :
  (applied_to_prefix np_sin n h).*1 = (geometry h).*1.
Proof.
  unfold applied_to_prefix. rewrite fmap_app, <- list_fmap_compose.
  rewrite <- (take_drop n (geometry h)) at 3. rewrite fmap_app. f_equal.
  apply list_fmap_ext. intros i e _. apply corrected_index.
Qed.

(** X1.  Whatever the host does -- whichever of its calls raises, enabled or
    not -- an evaluation of [deform] keeps the elements of the geometry and the
    data block: the same number of elements with the same vertex indices in the
    same order, and the same attribute values.  Only positions change. *)
Theorem deform_keeps_indices (h : host) :
  (geometry (deform np_sin h).2).*1 = (geometry h).*1 /\
  length (geometry (deform np_sin h).2) = length (geometry h) /\
  block (deform np_sin h).2 = block h.
Proof.
  destruct (deform_run np_sin h) as (r & h' & Hbody & Hnt & Hdef).
  rewrite Hdef. cbn [snd].
  destruct (deform_body_spec np_sin _ h r h' Hbody ltac:(lia))
    as (_ & _ & (n & Hn & Hg & _) & _).
  destruct (disciplined_deform_body np_sin _ h r h' Hbody) as (Hb & _ & _ & Hl & _).
  split_and!; [|done|done].
  rewrite Hg. apply applied_to_prefix_indices.
Qed.

(** X2.  On a host that raises nothing, [_compute_simple_correction] returns
    one correction per element of the iterator, in iteration order: the entry
    for the [k]-th element visited is computed from its position alone.  Every
    correction has a zero [y] component.  The geometry is left as it was, and
    the host has been called three times per element and twice more. *)
Theorem compute_simple_correction_one_per_element
  (fuel : nat) (pose_angle : float) (h : host) :
  (forall j, (calls h <= j)%nat -> faults h j = None) ->
  (length (geometry h) < fuel)%nat ->
  exists h',
    _compute_simple_correction np_sin fuel pose_angle h
    = (Returned (simple_correction np_sin pose_angle <$> (geometry h).*2), h') /\
    geometry h' = geometry h /\
    calls h' = (calls h + 3 * length (geometry h) + 2)%nat /\
    Forall (fun c : point => c.1.2 = fzero)
      (simple_correction np_sin pose_angle <$> (geometry h).*2).
Proof.
  intros Hnf Hfuel. unfold _compute_simple_correction.
  rewrite bind_run, geo_reset_run, (Hnf (calls h)) by lia.
  set (h1 := set_cursor 0 (count_call h)).
  destruct (correction_loop np_sin fuel pose_angle [] h1) as [r h'] eqn:Hloop.
  destruct (correction_loop_spec np_sin fuel pose_angle [] h1 r h' Hloop)
    as (Hg & Hnt & Hex & Hret); [simpl; lia|].
  destruct r as [cs|ex|].
  - destruct (Hret cs eq_refl) as (-> & Hcalls & _).
    exists h'. subst h1. host_cbn. rewrite drop_0, Nat.sub_0_r in *.
    split_and!; [done | done | lia |].
    apply Forall_fmap, Forall_forall. by intros [[x y] z] _.
  - destruct (Hex ex eq_refl) as (j & Hj & Hf). subst h1. host_cbn.
    rewrite Hnf in Hf by lia. done.
  - exfalso. apply Hnt; [|done]. subst h1. host_cbn. lia.
Qed.

(** ** Vertices that are not above the origin *)

(** Componentwise: the coordinates of [q] are those of [p], as numbers. *)
Definition same_point (p q : point) : Prop :=
  same_number p.1.1 q.1.1 /\ same_number p.1.2 q.1.2 /\ same_number p.2 q.2.

Lemma same_point_refl p : same_point p p.
Proof. split_and!; apply same_number_refl. Qed.

Lemma is_zero_fzero : is_zero fzero = true.
Proof. reflexivity. Qed.

Lemma finite_lit_0_1 : finite lit_0_1 = true.
Proof. reflexivity. Qed.

Lemma finite_lit_0_05 : finite lit_0_05 = true.
Proof. reflexivity. Qed.

(** The correction of a position whose [y] is not greater than zero adds
    nothing, as long as the sine and the weight are finite. *)
Lemma low_position_unmoved (pose_angle weight : float) (p : point) :
  fltb fzero p.1.2 = false ->
  finite (np_sin (radians pose_angle)) = true ->
  finite weight = true ->
  same_point p (add_weighted p (simple_correction np_sin pose_angle p) weight).
Proof.
  destruct p as [[x y] z]. cbn [fst snd]. intros Hy Hsin Hw.
  unfold simple_correction, py_max0, add_weighted, point_zip. rewrite Hy.
  cbn [fst snd].
  assert (is_zero (fmul fzero (np_sin (radians pose_angle))) = true) as H0.
  { by apply fmul_zero_l. }
  split_and!; apply fadd_zero_r, fmul_zero_l; try done.
  - apply fmul_zero_l; [done | apply finite_lit_0_1].
  - apply fmul_zero_l; [done | apply finite_lit_0_05].
Qed.

(** X3.  [deform] does not displace what is not above the origin.  Take the
    element visited [k]-th, carrying the vertex index [k], at a position whose
    [y] is not greater than zero.  If the sine of the pose angle and the
    correction weight are finite, then after the evaluation -- enabled or not,
    whichever host call raises -- the element carries coordinates equal to the
    ones it had. *)
Theorem deform_leaves_low_vertices (h : host) (k : nat) (p : point) :
  geometry h !! k = Some (k, p) ->
  fltb fzero p.1.2 = false ->
  finite (np_sin (radians (pose_angle_value (block h)))) = true ->
  finite (correction_weight_value (block h)) = true ->
  exists p', geometry (deform np_sin h).2 !! k = Some (k, p') /\ same_point p p'.
Proof.
  intros Hk Hy Hsin Hw.
  destruct (deform_run np_sin h) as (r & h' & Hbody & Hnt & Hdef).
  rewrite Hdef. cbn [snd].
  destruct (deform_body_spec np_sin _ h r h' Hbody ltac:(lia))
    as (_ & _ & (n & Hn & Hg & _) & _).
  rewrite Hg, (applied_to_prefix_lookup np_sin n h k _ Hk).
  case_decide; [|exists p; split; [done | apply same_point_refl]].
  unfold corrected, computed_corrections. cbn [fst snd].
  rewrite !list_lookup_fmap, Hk. cbn [fmap option_fmap option_map fst snd].
  eexists. split; [done|]. by apply low_position_unmoved.
Qed.

End WithSine.

End DeformerMore.

Module DeformerMoreExamples.
Import Deformer DeformerFacts FloatZero DeformerMore.

(** An element below the origin and one above it, visited in index order. *)
Definition low_and_high : list (nat * point) :=
  [ (0%nat, (1, -2, 3)%float); (1%nat, (0, 4, 0)%float) ].

Definition low_host : host :=
  mk_host (mk_block 90%float 1%float true) low_and_high 0 0 no_fault.

Lemma compute_simple_correction_one_per_element_witness :
  exists h',
    _compute_simple_correction small_angle_sine 3 90%float low_host
    = (Returned (simple_correction small_angle_sine 90%float <$> (geometry low_host).*2), h') /\
    geometry h' = geometry low_host /\
    calls h' = (calls low_host + 3 * length (geometry low_host) + 2)%nat /\
    Forall (fun c : point => c.1.2 = fzero)
      (simple_correction small_angle_sine 90%float <$> (geometry low_host).*2).
Proof.
  apply (compute_simple_correction_one_per_element small_angle_sine 3 90%float low_host).
  - intros j _. reflexivity.
  - simpl. lia.
Defined.

Lemma deform_leaves_low_vertices_witness :
  exists p', geometry (deform small_angle_sine low_host).2 !! 0%nat = Some (0%nat, p') /\
    same_point (1, -2, 3)%float p'.
Proof.
  apply (deform_leaves_low_vertices small_angle_sine low_host 0 (1, -2, 3)%float);
    reflexivity.
Defined.

End DeformerMoreExamples.

(* ===================================================================== *)
(** * Further properties of the collector *)
(* ===================================================================== *)

Module CollectorMore.
Import World Collector PathFacts CollectorFacts.

(** ** Reading the pose *)

(** The three rotation channels of a joint are in the scene. *)
Definition posable (sc : scene) (joint : string) : Prop :=
  Forall (fun axis => is_Some (attrs sc !! String.append joint (String.append "." axis)))
    rotate_axes.

Lemma getAttr_run name w :
  cmds_getAttr name w =
    match attrs (maya w) !! name with
    | Some v => (Returned v, w)
    | None => (Raised (ValueError "No object matches name"), w)
    end.
Proof. unfold cmds_getAttr. rewrite bind_run. simpl. by destruct (attrs (maya w) !! name). Qed.

Lemma joint_angles_loop_cases joints : forall angles w,
  (Forall (posable (maya w)) joints /\
   joint_angles_loop joints angles w
   = (Returned (angles ++ angles_of (attrs (maya w)) joints), w)) \/
  (Exists (fun j => ~ posable (maya w) j) joints /\
   joint_angles_loop joints angles w
   = (Raised (ValueError "No object matches name"), w)).
Proof.
  induction joints as [|j joints IH]; intros angles w.
  - left. split; [constructor|]. simpl. by rewrite app_nil_r.
  - cbn [joint_angles_loop]. rewrite bind_run, getAttr_run.
    destruct (attrs (maya w) !! String.append j ".rotateX") as [rx|] eqn:Hx; last first.
    { right. split; [|done]. left. intros Hp. inversion Hp as [|? ? H1 _]; subst.
      change (is_Some (attrs (maya w) !! String.append j ".rotateX")) in H1.
      rewrite Hx in H1. by destruct H1. }
    rewrite bind_run, getAttr_run.
    destruct (attrs (maya w) !! String.append j ".rotateY") as [ry|] eqn:Hy; last first.
    { right. split; [|done]. left. intros Hp.
      inversion Hp as [|? ? _ H2]; subst. inversion H2 as [|? ? H3 _]; subst.
      change (is_Some (attrs (maya w) !! String.append j ".rotateY")) in H3.
      rewrite Hy in H3. by destruct H3. }
    rewrite bind_run, getAttr_run.
    destruct (attrs (maya w) !! String.append j ".rotateZ") as [rz|] eqn:Hz; last first.
    { right. split; [|done]. left. intros Hp.
      inversion Hp as [|? ? _ H2]; subst. inversion H2 as [|? ? _ H3]; subst.
      inversion H3 as [|? ? H4 _]; subst.
      change (is_Some (attrs (maya w) !! String.append j ".rotateZ")) in H4.
      rewrite Hz in H4. by destruct H4. }
    destruct (IH (angles ++ [rx; ry; rz]) w) as [[Hall Hrun]|[Hex Hrun]].
    + left. split.
      * constructor; [|done]. repeat constructor; simpl; by eexists.
      * rewrite Hrun. do 2 f_equal. rewrite <- app_assoc. f_equal.
        unfold angles_of. simpl. unfold attr_value. by rewrite Hx, Hy, Hz.
    + right. split; [by right | done].
Qed.

(** X4.  [_get_joint_angles] reads the pose without touching the scene.  When
    the three rotation channels of every tracked joint exist it returns three
    angles per joint, in joint order and in the order X, Y, Z: entry [3k + o] is
    the value of axis [o] of joint [k].  Otherwise it raises the [ValueError] of
    the first missing channel. *)
Theorem get_joint_angles_three_per_joint (c : DataCollector) (w : world) :
  match _get_joint_angles c w with
  | (Returned l, w') =>
      w' = w /\
      length l = (3 * length (joints c))%nat /\
      forall k joint o axis,
        joints c !! k = Some joint -> rotate_axes !! o = Some axis ->
        l !! (3 * k + o)%nat
        = attrs (maya w) !! String.append joint (String.append "." axis) /\
        is_Some (l !! (3 * k + o)%nat)
  | (Raised e, w') =>
      w' = w /\ e = ValueError "No object matches name" /\
      Exists (fun j => ~ posable (maya w) j) (joints c)
  | (Timeout, _) => False
  end.
Proof.
  unfold _get_joint_angles.
  destruct (joint_angles_loop_cases (joints c) [] w) as [[Hall ->]|[Hex ->]];
    [|done].
  simpl. split_and!; [done | apply angles_of_length |].
  intros k joint o axis Hk Ho.
  rewrite (angles_of_lookup _ _ _ _ _ _ Hk Ho).
  pose proof (Forall_lookup_1 _ _ _ _ Hall Hk) as Hp.
  destruct (Forall_lookup_1 _ _ _ _ Hp Ho) as [v Hv].
  unfold attr_value. rewrite Hv. split; [done | by eexists].
Qed.

(** ** Capturing a sample *)

Lemma Forall_Exists_contra {A} (P : A -> Prop) (l : list A) :
  Forall P l -> Exists (fun x => ~ P x) l -> False.
Proof. induction 1 as [|x l Hx _ IH]; inversion 1; subst; eauto. Qed.

Lemma getPoints_run mesh w :
  mesh_getPoints mesh w =
    match meshes (maya w) !! mesh with
    | Some evaluate => (Returned (evaluate (attrs (maya w))), w)
    | None => (Raised (RuntimeError "(kInvalidParameter): Object does not exist"), w)
    end.
Proof.
  unfold mesh_getPoints. rewrite bind_run. simpl.
  by destruct (meshes (maya w) !! mesh).
Qed.

Lemma objExists_run name w :
  cmds_objExists name w = (Returned (bool_decide (is_Some (meshes (maya w) !! name))), w).
Proof. done. Qed.

Lemma now_run w : datetime_now w = (Returned (clock w), set_clock (S (clock w)) w).
Proof. done. Qed.

(** No corrective mesh is in use: none is named, or the name is empty, or the
    scene has no object of that name. *)
Definition no_corrective (c : DataCollector) (arg : option string) (w : world) : Prop :=
  forall t, py_or arg (corrective_mesh c) = Some t ->
    t = "" \/ meshes (maya w) !! t = None.

Lemma sample_vertex_deltas_zero target base w :
  (forall t, target = Some t -> t = "" \/ meshes (maya w) !! t = None) ->
  sample_vertex_deltas target base w = (Returned (zeros_like base), w).
Proof.
  intros H. unfold sample_vertex_deltas. destruct target as [t|]; [|done].
  destruct (H t eq_refl) as [-> | Hnone]; [done|].
  destruct (truthy (Some t)); [|done].
  rewrite bind_run, objExists_run, Hnone.
  rewrite bool_decide_eq_false_2; [done|]. by intros [? ?].
Qed.

(** X5.  Without a corrective mesh in use, a sample that [capture_sample]
    returns carries a zero displacement for every point of the base mesh, as it
    is evaluated in the current pose; a run that raises has changed nothing. *)
Theorem capture_sample_zero_deltas
  (c : DataCollector) (arg : option string) (w : world) :
  no_corrective c arg w ->
  match capture_sample c arg w with
  | (Returned (c', s), w') =>
      exists evaluate,
        meshes (maya w) !! base_mesh c = Some evaluate /\
        length (vertex_deltas s) = length (evaluate (attrs (maya w))) /\
        Forall (fun d => d = (fzero, fzero, fzero)) (vertex_deltas s)
  | (Raised e, w') => w' = w
  | (Timeout, _) => False
  end.
Proof.
  intros Hno. unfold capture_sample, _get_joint_angles, _get_vertex_positions.
  rewrite bind_run.
  destruct (joint_angles_loop_cases (joints c) [] w) as [[_ ->]|[_ ->]]; [|done].
  rewrite bind_run, getPoints_run.
  destruct (meshes (maya w) !! base_mesh c) as [evaluate|] eqn:Hbase; [|done].
  rewrite bind_run, (sample_vertex_deltas_zero _ _ _ Hno).
  rewrite bind_run, now_run, bind_run, print_run, ret_run. cbn [vertex_deltas].
  exists evaluate. unfold zeros_like. split_and!; [done | by rewrite length_fmap |].
  apply Forall_fmap, Forall_forall. by intros.
Qed.

(** X6.  A corrective mesh whose number of points differs from the base
    mesh's, neither having exactly one point, cannot be subtracted: with the
    pose readable and both meshes in the scene, [capture_sample] raises the
    [ValueError] of the subtraction and changes nothing -- no sample is stored
    and the clock is not read. *)
Theorem capture_sample_refuses_unbroadcastable
  (c : DataCollector) (arg : option string) (w : world) (t : string)
  (base corrective : gmap string float -> list point) :
  Forall (posable (maya w)) (joints c) ->
  meshes (maya w) !! base_mesh c = Some base ->
  py_or arg (corrective_mesh c) = Some t -> t <> "" ->
  meshes (maya w) !! t = Some corrective ->
  length (corrective (attrs (maya w))) <> length (base (attrs (maya w))) ->
  length (corrective (attrs (maya w))) <> 1%nat ->
  length (base (attrs (maya w))) <> 1%nat ->
  capture_sample c arg w
  = (Raised (ValueError "operands could not be broadcast together"), w).
Proof.
  intros Hpos Hbase Htarget Hne Hcorr Hlen Hc1 Hb1.
  unfold capture_sample, _get_joint_angles, _get_vertex_positions.
  rewrite bind_run.
  destruct (joint_angles_loop_cases (joints c) [] w) as [[_ ->]|[Hex _]]; last first.
  { destruct (Forall_Exists_contra _ _ Hpos Hex). }
  rewrite bind_run, getPoints_run, Hbase, bind_run, Htarget.
  unfold sample_vertex_deltas.
  assert (truthy (Some t) = true) as ->.
  { unfold truthy. by rewrite bool_decide_eq_false_2. }
  rewrite bind_run, objExists_run, Hcorr.
  rewrite bool_decide_eq_true_2 by (by eexists).
  unfold _get_vertex_positions. rewrite bind_run, getPoints_run, Hcorr.
  unfold _calculate_vertex_deltas, sub_points.
  rewrite decide_False by done.
  destruct (corrective (attrs (maya w))) as [|p [|p' a]],
           (base (attrs (maya w))) as [|q [|q' b]]; simpl in *; done.
Qed.

(** X22.  A corrective mesh of a single point is not refused: the
    subtraction repeats its point against every point of the base mesh.  With
    the pose
    readable, a base mesh of two points or more and a corrective mesh of exactly
    one point [p], [capture_sample] returns a sample with one delta per base
    point, [p - q] for the base point [q], and stores it. *)
Theorem capture_sample_broadcasts_single_point
  (c : DataCollector) (arg : option string) (w : world) (t : string)
  (base corrective : gmap string float -> list point) (p : point) :
  Forall (posable (maya w)) (joints c) ->
  meshes (maya w) !! base_mesh c = Some base ->
  py_or arg (corrective_mesh c) = Some t -> t <> "" ->
  meshes (maya w) !! t = Some corrective ->
  corrective (attrs (maya w)) = [p] ->
  (1 < length (base (attrs (maya w))))%nat ->
  exists s,
    capture_sample c arg w
    = (Returned (set_samples (samples c ++ [s]) c, s), set_clock (S (clock w)) w) /\
    vertex_deltas s = (fun q => point_zip fsub p q) <$> base (attrs (maya w)) /\
    length (vertex_deltas s) = length (base (attrs (maya w))).
Proof.
  intros Hpos Hbase Htarget Hne Hcorr Hone Hlen.
  unfold capture_sample, _get_joint_angles, _get_vertex_positions.
  rewrite bind_run.
  destruct (joint_angles_loop_cases (joints c) [] w) as [[_ ->]|[Hex _]]; last first.
  { destruct (Forall_Exists_contra _ _ Hpos Hex). }
  rewrite bind_run, getPoints_run, Hbase, bind_run, Htarget.
  unfold sample_vertex_deltas.
  assert (truthy (Some t) = true) as ->.
  { unfold truthy. by rewrite bool_decide_eq_false_2. }
  rewrite bind_run, objExists_run, Hcorr.
  rewrite bool_decide_eq_true_2 by (by eexists).
  unfold _get_vertex_positions. rewrite bind_run, getPoints_run, Hcorr, Hone.
  unfold _calculate_vertex_deltas, sub_points.
  rewrite decide_False by (simpl; lia).
  destruct (base (attrs (maya w))) as [|q [|q' b]] eqn:Hb; [simpl in Hlen; lia..|].
  rewrite ret_run, bind_run, now_run, bind_run, print_run, ret_run.
  eexists. split; [reflexivity|]. cbn [vertex_deltas].
  split; [done | by rewrite length_fmap].
Qed.

(** ** Sampling a range *)

Lemma capture_sample_needs_base c arg w :
  meshes (maya w) !! base_mesh c = None ->
  exists e, capture_sample c arg w = (Raised e, w).
Proof.
  intros Hbase. unfold capture_sample, _get_joint_angles, _get_vertex_positions.
  rewrite bind_run.
  destruct (joint_angles_loop_cases (joints c) [] w) as [[_ ->]|[_ ->]];
    [|by eexists].
  rewrite bind_run, getPoints_run, Hbase. by eexists.
Qed.

(** X7.  What [capture_pose_range] refuses before it touches the scene: a
    channel that does not exist, with the [ValueError] of [getAttr], and, for a
    channel that exists, a negative number of steps, with the [ValueError] of
    [linspace].  In both cases the world is as it was. *)
Theorem capture_pose_range_refusals
  (c : DataCollector) (joint axis : string) (start stop : float) (steps : Z)
  (w : world) :
  (attrs (maya w) !! String.append joint (String.append "." axis) = None ->
   capture_pose_range c joint axis start stop steps w
   = (Raised (ValueError "No object matches name"), w)) /\
  (is_Some (attrs (maya w) !! String.append joint (String.append "." axis)) ->
   steps < 0 ->
   capture_pose_range c joint axis start stop steps w
   = (Raised (ValueError "Number of samples must be non-negative"), w)).
Proof.
  unfold capture_pose_range. split.
  - intros Hnone. by rewrite bind_run, print_run, bind_run, getAttr_run, Hnone.
  - intros [v Hv] Hneg. rewrite bind_run, print_run, bind_run, getAttr_run, Hv.
    rewrite bind_run. unfold linspace.
    by rewrite (proj2 (Z.ltb_lt _ _) Hneg).
Qed.

(** X8.  [capture_pose_range] restores the channel only when every capture
    succeeds.  If the base mesh is not in the scene, then for one step or more
    the first capture raises, the exception leaves the method, and the channel
    stays at the first value of the range instead of the value it had; nothing
    else has changed. *)
Theorem capture_pose_range_failure_leaves_pose
  (c : DataCollector) (joint axis : string) (start stop : float) (steps : Z)
  (w : world) (original_value : float) :
  attrs (maya w) !! String.append joint (String.append "." axis) = Some original_value ->
  0 < steps ->
  meshes (maya w) !! base_mesh c = None ->
  exists e first,
    linspace_values start stop (Z.to_nat steps) !! 0%nat = Some first /\
    capture_pose_range c joint axis start stop steps w
    = (Raised e,
       set_maya (with_attr (String.append joint (String.append "." axis)) first (maya w)) w).
Proof.
  intros Hv Hsteps Hbase. unfold capture_pose_range.
  rewrite bind_run, print_run, bind_run, getAttr_run, Hv.
  rewrite bind_run, linspace_run by lia.
  pose proof (linspace_values_length start stop (Z.to_nat steps)) as Hlen.
  destruct (linspace_values start stop (Z.to_nat steps)) as [|first rest];
    [simpl in Hlen; lia|].
  rewrite bind_run, fold_each_cons, bind_run, bind_run.
  rewrite setAttr_run by (by eexists).
  rewrite bind_run. unfold cmds_refresh at 1. rewrite ret_run, bind_run.
  set (w1 := set_maya _ w).
  destruct (capture_sample_needs_base c None w1 Hbase) as [e ->].
  by exists e, first.
Qed.

End CollectorMore.

(* ===================================================================== *)
(** * What a capture checks, and the values of a range *)
(* ===================================================================== *)

Module CaptureFacts.
Import World Collector PathFacts CollectorFacts FloatZero CollectorMore.

(** ** The failures of [capture_sample] *)

(** The deltas are computed without touching the world; the only failure is
    that of the subtraction, on a corrective mesh that exists and has another
    number of points than the base mesh. *)
Lemma sample_vertex_deltas_cases (target : option string) (base : list point) (w : world) :
  match sample_vertex_deltas target base w with
  | (Returned _, w') => w' = w
  | (Raised e, w') =>
      w' = w /\
      e = ValueError "operands could not be broadcast together" /\
      exists t corrective,
        target = Some t /\ t <> "" /\
        meshes (maya w) !! t = Some corrective /\
        length (corrective (attrs (maya w))) <> length base
  | (Timeout, _) => False
  end.
Proof.
  unfold sample_vertex_deltas. destruct target as [t|]; [|done].
  destruct (truthy (Some t)) eqn:Ht; [|done].
  assert (t <> "") as Hne by (by intros ->).
  rewrite bind_run, objExists_run.
  destruct (meshes (maya w) !! t) as [corrective|] eqn:Hc.
  - rewrite bool_decide_eq_true_2 by (by eexists).
    unfold _get_vertex_positions. rewrite bind_run, getPoints_run, Hc.
    unfold _calculate_vertex_deltas, sub_points.
    case_decide as Hlen; [done|].
    destruct (corrective (attrs (maya w))) as [|p [|p' a]] eqn:Hcp,
             base as [|q [|q' b]]; try done;
      (split; [done|]; split; [done|]; exists t, corrective;
       split_and!; [done | done | done | by rewrite Hcp]).
  - rewrite bool_decide_eq_false_2 by (by intros [? ?]). done.
Qed.

(** Why a scene query of [capture_sample] fails with [e]: a rotation channel
    of a tracked joint is not in the scene; the base mesh is not in the scene;
    or the corrective mesh in use is in the scene with another number of points
    than the base mesh. *)
Definition scene_query_failure (c : DataCollector) (arg : option string) (w : world)
  (e : exn) : Prop :=
  (e = ValueError "No object matches name" /\
   Exists (fun j => ~ posable (maya w) j) (joints c)) \/
  (e = RuntimeError "(kInvalidParameter): Object does not exist" /\
   meshes (maya w) !! base_mesh c = None) \/
  (e = ValueError "operands could not be broadcast together" /\
   exists t base corrective,
     py_or arg (corrective_mesh c) = Some t /\ t <> "" /\
     meshes (maya w) !! base_mesh c = Some base /\
     meshes (maya w) !! t = Some corrective /\
     length (corrective (attrs (maya w))) <> length (base (attrs (maya w)))).

(** C4, as the code has it.  [capture_sample] checks no shape: it compares
    nothing with the samples already stored nor with the stored vertex count.
    Take any other stored samples [l] and any other vertex count [nv].  When
    [capture_sample] returns, the captured sample has been appended, its pose
    vector has three entries per tracked joint, and exactly the same sample is
    appended to [l], whatever the lengths of its samples and whatever [nv] is.
    When it raises, the world and the store are as before, the same exception is
    raised with [l] and [nv], and the exception is the failure of a scene query
    ([scene_query_failure]): the [ValueError] of a missing rotation channel, the
    [RuntimeError] of a missing base mesh, or the [ValueError] of subtracting
    point arrays of different lengths.  No failure is a verdict on the shape of
    the sample against the store. *)
Theorem capture_sample_checks_no_shape
  (c : DataCollector) (arg : option string) (w : world) (l : list sample) (nv : nat) :
  let c2 := mk_collector (base_mesh c) (joints c) (corrective_mesh c) l nv in
  match capture_sample c arg w with
  | (Returned (c', s), w') =>
      c' = set_samples (samples c ++ [s]) c /\
      length (joint_angles s) = (3 * length (joints c))%nat /\
      capture_sample c2 arg w = (Returned (set_samples (l ++ [s]) c2, s), w')
  | (Raised e, w') =>
      w' = w /\
      capture_sample c2 arg w = (Raised e, w) /\
      scene_query_failure c arg w e
  | (Timeout, _) => False
  end.
Proof.
  intros c2. subst c2.
  unfold capture_sample, _get_joint_angles, _get_vertex_positions.
  cbn [joints base_mesh corrective_mesh samples].
  rewrite !(bind_run (joint_angles_loop (joints c) [])).
  destruct (joint_angles_loop_cases (joints c) [] w) as [[Hall ->]|[Hex ->]];
    last first.
  { split_and!; [done | done |]. left. by split. }
  rewrite !(bind_run (mesh_getPoints (base_mesh c))), getPoints_run.
  destruct (meshes (maya w) !! base_mesh c) as [base|] eqn:Hbase; last first.
  { split_and!; [done | done |]. right. left. by split. }
  pose proof (sample_vertex_deltas_cases (py_or arg (corrective_mesh c))
                (base (attrs (maya w))) w) as Hvd.
  rewrite !(bind_run (sample_vertex_deltas _ _)).
  destruct (sample_vertex_deltas (py_or arg (corrective_mesh c))
              (base (attrs (maya w))) w) as [[vd|e|] w1]; [| |done].
  - subst w1. rewrite !bind_run, !now_run, !bind_run, !print_run, !ret_run.
    split_and!; [done | | done].
    cbn [joint_angles]. rewrite app_nil_l. apply angles_of_length.
  - destruct Hvd as (-> & -> & t & corrective & Ht & Hne & Hc & Hlen).
    split_and!; [done | done |]. right. right. split; [done|].
    by exists t, base, corrective.
Qed.

(** ** The values of a range *)

(** Value [i] of [n] values evenly spaced over [[start, stop]], both ends
    included, in binary64 arithmetic: [start] plus [i] steps, the step being the
    [n - 1]-th part of [stop - start]; the last value is [stop] itself.  When
    the step rounds to zero the [i]-th part of the whole interval is taken
    instead, and a single value is [start] plus no part of the interval. *)
Definition range_value (start stop : float) (n i : nat) : float :=
  let delta := fsub stop start in
  if decide (2 <= n)%nat then
    if decide (i = n - 1)%nat then stop
    else
      let step := fdiv delta (of_nat (n - 1)) in
      if feqb step fzero
      then fadd (fmul (fdiv (of_nat i) (of_nat (n - 1))) delta) start
      else fadd (fmul (of_nat i) step) start
  else fadd (fmul (of_nat i) delta) start.

(** [np.linspace] gives these values. *)
Lemma linspace_values_lookup (start stop : float) (n i : nat) :
  (i < n)%nat -> linspace_values start stop n !! i = Some (range_value start stop n i).
Proof.
  intros Hi. unfold linspace_values, range_value.
  assert (Hseq : (of_nat <$> seq 0 n) !! i = Some (of_nat i)).
  { by rewrite list_lookup_fmap, lookup_seq_lt. }
  destruct (decide (2 <= n)%nat) as [H2|H2].
  - rewrite decide_True by lia. rewrite decide_True by lia.
    destruct (decide (i = n - 1)%nat) as [->|Hne].
    + apply list_lookup_insert_eq.
      destruct (feqb _ _); rewrite !length_fmap, length_seq; lia.
    + rewrite list_lookup_insert_ne by done.
      destruct (feqb _ _); by rewrite !list_lookup_fmap, lookup_seq_lt.
  - rewrite decide_False by lia. rewrite decide_False by lia.
    by rewrite !list_lookup_fmap, lookup_seq_lt.
Qed.

Lemma fadd_zero_l (c x : float) : is_zero c = true -> same_number (fadd c x) x.
Proof.
  unfold is_zero, same_number, feqb, fadd.
  rewrite !FloatAxioms.eqb_spec, FloatAxioms.add_spec.
  unfold SF64add. destruct (Prim2SF c) as [sc| | |]; try done. intros _.
  destruct (Prim2SF x) as [[]|[]| |[] m e]; destruct sc; simpl;
    try (by left); try (by right).
  all: left; by apply SFeqb_refl_number.
Qed.

(** The first value is [start]: the sum of [start] and a zero, when the step
    is a finite number. *)
Lemma range_value_first (start stop : float) (n : nat) :
  finite (if decide (2 <= n)%nat
          then fdiv (fsub stop start) (of_nat (n - 1))
          else fsub stop start) = true ->
  feqb (fdiv (fsub stop start) (of_nat (n - 1))) fzero = false \/ (n < 2)%nat ->
  same_number (range_value start stop n 0) start.
Proof.
  intros Hfin Hstep. unfold range_value.
  assert (Hz : is_zero (of_nat 0) = true) by reflexivity.
  destruct (decide (2 <= n)%nat) as [H2|H2].
  - rewrite decide_False by lia.
    destruct Hstep as [-> | ?]; [|lia].
    apply fadd_zero_l. by apply fmul_zero_l.
  - apply fadd_zero_l. by apply fmul_zero_l.
Qed.

Lemma range_value_last (start stop : float) (n : nat) :
  (2 <= n)%nat -> range_value start stop n (n - 1) = stop.
Proof.
  intros H2. unfold range_value. rewrite decide_True by done. by rewrite decide_True.
Qed.

(** C5.  [capture_pose_range] on a channel that exists, for [steps >= 0] and a
    scene in which the capture succeeds at each value of the range.  The call
    returns and appends exactly [steps] samples.  Sample [i] is captured with
    the channel at value [i] of [steps] values evenly spaced over
    [[start, stop]] ([range_value]): its pose vector is the one read in the
    scene with the channel at that value, and when the channel is one of the
    tracked rotations the pose vector holds that value at the channel's place.
    The ends are included: for two steps or more the last value is [stop]
    itself, and the first value is [start] (as a number) whenever the step is a
    finite number other than zero.  Afterwards the scene is the scene before the
    call: the channel is back at its value, and only the clock has moved, by one
    reading per sample. *)
Theorem capture_pose_range_captures_linspace
  (c : DataCollector) (joint axis : string) (start stop : float) (steps : Z)
  (w : world) (original_value : float) :
  let channel := String.append joint (String.append "." axis) in
  let n := Z.to_nat steps in
  attrs (maya w) !! channel = Some original_value ->
  (0 <= steps)%Z ->
  (forall i, (i < n)%nat ->
     capturable c (with_attr channel (range_value start stop n i) (maya w))) ->
  exists new,
    capture_pose_range c joint axis start stop steps w
    = (Returned (set_samples (samples c ++ new) c), advance n (maya w) w) /\
    maya (advance n (maya w) w) = maya w /\
    length new = n /\
    (forall i s, new !! i = Some s ->
       joint_angles s
       = angles_of (<[channel := range_value start stop n i]> (attrs (maya w)))
           (joints c) /\
       forall k o, joints c !! k = Some joint -> rotate_axes !! o = Some axis ->
         joint_angles s !! (3 * k + o)%nat = Some (range_value start stop n i)) /\
    ((2 <= n)%nat -> range_value start stop n (n - 1) = stop) /\
    ((2 <= n)%nat ->
     finite (fdiv (fsub stop start) (of_nat (n - 1))) = true ->
     feqb (fdiv (fsub stop start) (of_nat (n - 1))) fzero = false ->
     same_number (range_value start stop n 0) start).
Proof.
  intros channel n Hch Hsteps Hcap.
  destruct (capture_pose_range_run c joint axis start stop steps w original_value
              Hch Hsteps) as (new & Hrun & Hlen & Hnew & Hchan).
  { intros angle [i Hi]%list_elem_of_lookup_1.
    pose proof (lookup_lt_Some _ _ _ Hi) as Hlt.
    rewrite linspace_values_length in Hlt.
    rewrite (linspace_values_lookup _ _ _ _ Hlt) in Hi. injection Hi as <-.
    by apply Hcap. }
  exists new. split_and!; [done | done | done | | |].
  - intros i s Hi.
    pose proof (lookup_lt_Some _ _ _ Hi) as Hlt. rewrite Hlen in Hlt.
    destruct (Hnew i s Hi) as (angle & Ha & Hja).
    rewrite (linspace_values_lookup _ _ _ _ Hlt) in Ha. injection Ha as <-.
    split; [done|]. intros k o Hk Ho.
    rewrite (Hchan k o Hk Ho i s Hi). by apply linspace_values_lookup.
  - apply range_value_last.
  - intros H2 Hfin Hstep. apply range_value_first; [|by left].
    by rewrite decide_True.
Qed.

(** The range of the specification: [capture_pose_range] from 0 to 120 in five
    steps captures the channel values 0, 30, 60, 90 and 120, and leaves the
    scene as it was. *)
Lemma capture_pose_range_captures_linspace_witness :
  exists new,
    capture_pose_range elbow_collector "elbow" "rotateZ" 0%float 120%float 5
      (studio two_points 0)
    = (Returned (set_samples new elbow_collector), studio two_points 5) /\
    maya (studio two_points 5) = maya (studio two_points 0) /\
    joint_angles <$> new
    = [ [0; 0; 0]; [0; 0; 30]; [0; 0; 60]; [0; 0; 90]; [0; 0; 120] ]%float /\
    range_value 0%float 120%float 5 <$> seq 0 5 = [0; 30; 60; 90; 120]%float.
Proof.
  destruct (capture_pose_range_captures_linspace elbow_collector "elbow" "rotateZ"
              0%float 120%float 5 (studio two_points 0) 45%float)
    as (new & Hrun & Hmaya & Hlen & Hvals & _).
  - reflexivity.
  - lia.
  - intros i _. apply capture_ready_capturable, capture_ready_with_attr.
    exact elbow_collector_ready.
  - exists new. split; [exact Hrun|]. split; [reflexivity|]. split; [|reflexivity].
    destruct new as [|s0 [|s1 [|s2 [|s3 [|s4 [|s5 new]]]]]]; try discriminate Hlen.
    cbn [fmap list_fmap].
    rewrite (proj1 (Hvals 0%nat s0 eq_refl)), (proj1 (Hvals 1%nat s1 eq_refl)),
      (proj1 (Hvals 2%nat s2 eq_refl)), (proj1 (Hvals 3%nat s3 eq_refl)),
      (proj1 (Hvals 4%nat s4 eq_refl)).
    vm_compute. reflexivity.
Defined.

End CaptureFacts.

Module CollectorMoreExamples.
Import World Collector PathFacts CollectorFacts CollectorMore.

(** A scene with the arm and a sculpted copy of three points. *)
Definition sculpt_scene : scene :=
  mk_scene
    (<["elbow.rotateX" := 0%float]>
       (<["elbow.rotateY" := 0%float]> (<["elbow.rotateZ" := 45%float]> ∅)))
    (<["arm_corrective" := fun _ => three_points]> (<["arm" := fun _ => two_points]> ∅)).

Definition sculpt_studio : world := mk_world sculpt_scene 0 ∅ [] None None.

(** A scene whose mesh has been deleted. *)
Definition bare_scene : scene :=
  mk_scene
    (<["elbow.rotateX" := 0%float]>
       (<["elbow.rotateY" := 0%float]> (<["elbow.rotateZ" := 45%float]> ∅))) ∅.

Definition bare_studio : world := mk_world bare_scene 0 ∅ [] None None.

Lemma capture_sample_zero_deltas_witness :
  match capture_sample elbow_collector None (studio two_points 0) with
  | (Returned (c', s), w') =>
      exists evaluate,
        meshes (maya (studio two_points 0)) !! base_mesh elbow_collector = Some evaluate /\
        length (vertex_deltas s) = length (evaluate (attrs (maya (studio two_points 0)))) /\
        Forall (fun d => d = (fzero, fzero, fzero)) (vertex_deltas s)
  | (Raised e, w') => w' = studio two_points 0
  | (Timeout, _) => False
  end.
Proof.
  apply (capture_sample_zero_deltas elbow_collector None (studio two_points 0)).
  intros t H. vm_compute in H. discriminate H.
Defined.

Lemma capture_sample_refuses_unbroadcastable_witness :
  capture_sample elbow_collector (Some "arm_corrective") sculpt_studio
  = (Raised (ValueError "operands could not be broadcast together"), sculpt_studio).
Proof.
  apply (capture_sample_refuses_unbroadcastable elbow_collector (Some "arm_corrective")
           sculpt_studio "arm_corrective" (fun _ => two_points) (fun _ => three_points)).
  - repeat constructor; vm_compute; by eexists.
  - reflexivity.
  - reflexivity.
  - discriminate.
  - reflexivity.
  - vm_compute. lia.
  - vm_compute. lia.
  - vm_compute. lia.
Defined.

(** A scene with the arm and a corrective locator of one point. *)
Definition locator_scene : scene :=
  mk_scene
    (<["elbow.rotateX" := 0%float]>
       (<["elbow.rotateY" := 0%float]> (<["elbow.rotateZ" := 45%float]> ∅)))
    (<["tip" := fun _ => [ (5, 0, 0)%float ]]> (<["arm" := fun _ => two_points]> ∅)).

Definition locator_studio : world := mk_world locator_scene 0 ∅ [] None None.

Lemma capture_sample_broadcasts_single_point_witness :
  exists s,
    capture_sample elbow_collector (Some "tip") locator_studio
    = (Returned (set_samples (samples elbow_collector ++ [s]) elbow_collector, s),
       set_clock (S (clock locator_studio)) locator_studio) /\
    vertex_deltas s
      = (fun q => point_zip fsub (5, 0, 0)%float q) <$> two_points /\
    length (vertex_deltas s) = length two_points.
Proof.
  apply (capture_sample_broadcasts_single_point elbow_collector (Some "tip")
           locator_studio "tip" (fun _ => two_points) (fun _ => [ (5, 0, 0)%float ])
           (5, 0, 0)%float).
  - repeat constructor; vm_compute; by eexists.
  - reflexivity.
  - reflexivity.
  - discriminate.
  - reflexivity.
  - reflexivity.
  - vm_compute. lia.
Defined.

Lemma capture_pose_range_failure_leaves_pose_witness :
  exists e first,
    linspace_values 0%float 120%float (Z.to_nat 5) !! 0%nat = Some first /\
    capture_pose_range elbow_collector "elbow" "rotateZ" 0%float 120%float 5 bare_studio
    = (Raised e,
       set_maya (with_attr (String.append "elbow" (String.append "." "rotateZ")) first
                   (maya bare_studio)) bare_studio).
Proof.
  apply (capture_pose_range_failure_leaves_pose elbow_collector "elbow" "rotateZ"
           0%float 120%float 5 bare_studio 45%float).
  - reflexivity.
  - lia.
  - reflexivity.
Defined.

(** The pose after the failed range of the witness: 0 degrees, not the 45
    degrees the elbow had. *)
Example failed_range_leaves_elbow_at_zero :
  exists e w',
    capture_pose_range elbow_collector "elbow" "rotateZ" 0%float 120%float 5 bare_studio
    = (Raised e, w') /\
    attrs (maya bare_studio) !! "elbow.rotateZ" = Some 45%float /\
    attrs (maya w') !! "elbow.rotateZ" = Some 0%float.
Proof. eexists _, _. split; [vm_compute; reflexivity|]. vm_compute. done. Qed.

End CollectorMoreExamples.

(* ===================================================================== *)
(** * Further properties of [save_dataset] *)
(* ===================================================================== *)

Module SaveMore.
Import World Collector Train PathFacts CollectorFacts LoaderFacts RoundTripFacts.

Lemma drop_while_all (f : ascii -> bool) (l : list ascii) :
  Forall (fun x => f x = true) l -> drop_while f l = [].
Proof. induction 1 as [|x l Hx _ IH]; simpl; [done|]. by rewrite Hx. Qed.

(** A name without a slash has no directory part. *)
Lemma dirname_no_slash (p : string) : slash ∉ chars p -> dirname p = "".
Proof.
  intros Hno. unfold dirname. rewrite drop_while_all; [done|].
  apply list.Forall_forall. intros x Hx. rewrite elem_of_reverse in Hx.
  apply negb_true_iff, bool_decide_eq_false_2. intros ->. by apply Hno.
Qed.

(** X9.  An empty store is not saved.  [save_dataset] on a collector without
    samples -- a new one, or one after [clear_samples] -- returns without
    creating a directory, writing a file or reading the clock; loading the
    dataset from a path where no file was then raises [FileNotFoundError]. *)
Theorem empty_store_saves_nothing (c : DataCollector) (filepath : string) (w : world) :
  files w !! npz_path filepath = None ->
  save_dataset (clear_samples c) filepath w = (Returned tt, w) /\
  (save_dataset (clear_samples c) filepath ;;
   CorrectiveDeformerDataset_init (npz_path filepath)) w
  = (Raised (FileNotFoundError (npz_path filepath)), w).
Proof.
  intros Hnone. split; [done|].
  rewrite bind_run. cbn [save_dataset clear_samples set_samples samples].
  rewrite print_run. unfold CorrectiveDeformerDataset_init, np_load.
  rewrite !bind_run. simpl. by rewrite Hnone.
Qed.

(** X10.  A file name without a directory part cannot be saved to: for a
    non-empty store of uniform samples, [save_dataset] raises the
    [FileNotFoundError] of [os.makedirs] on the empty directory name, and
    writes nothing. *)
Theorem save_dataset_bare_filename
  (c : DataCollector) (filepath : string) (w : world) (k v : nat) :
  samples c <> [] -> uniform (samples c) k v -> slash ∉ chars filepath ->
  save_dataset c filepath w = (Raised (FileNotFoundError ""), w).
Proof.
  intros Hne Hu Hno. unfold save_dataset.
  destruct (samples c) as [|s0 l] eqn:Hs; [done|]. rewrite <- Hs in *.
  assert (joint_angles <$> samples c <> []) as Hne2 by (rewrite Hs; done).
  assert (vertex_deltas <$> samples c <> []) as Hne3 by (rewrite Hs; done).
  destruct (array3_uniform (vertex_deltas <$> samples c) v w Hne3
              (uniform_deltas _ _ _ Hu)) as [rest H3].
  rewrite bind_run, (array2_uniform _ k w Hne2 (uniform_angles _ _ _ Hu)).
  rewrite bind_run, H3, bind_run.
  by rewrite (dirname_no_slash _ Hno).
Qed.

(** X11.  Samples whose pose vectors differ in length cannot be stacked:
    [save_dataset] raises before anything is written. *)
Theorem save_dataset_refuses_ragged
  (c : DataCollector) (filepath : string) (w : world) (s1 s2 : sample) :
  s1 ∈ samples c -> s2 ∈ samples c ->
  length (joint_angles s1) <> length (joint_angles s2) ->
  exists e, save_dataset c filepath w = (Raised e, w).
Proof.
  intros H1 H2 Hlen. unfold save_dataset.
  destruct (samples c) as [|s0 l] eqn:Hs; [by apply elem_of_nil in H1|].
  rewrite <- Hs in *. rewrite bind_run.
  assert (array2 (joint_angles <$> samples c) w
          = (Raised (ValueError "inhomogeneous shape"), w)) as ->; [|by eexists].
  unfold array2. rewrite Hs. cbn [fmap list_fmap].
  destruct (forallb _ _) eqn:Hall; [exfalso | done].
  rewrite forallb_forall in Hall.
  assert (forall s, s ∈ samples c -> length (joint_angles s) = length (joint_angles s0))
    as Hsame.
  { intros s Hin. apply Nat.eqb_eq, Hall, list_elem_of_In.
    rewrite Hs in Hin. change (joint_angles s ∈ joint_angles <$> (s0 :: l)).
    by apply list_elem_of_fmap_2. }
  by rewrite (Hsame s1), (Hsame s2) in Hlen.
Qed.



End SaveMore.

Module SaveMoreExamples.
Import World Collector Train PathFacts CollectorFacts LoaderFacts RoundTripFacts SaveMore.

(** A store whose second sample tracks a joint more than the first. *)
Definition ragged_store : DataCollector :=
  mk_collector "arm" ["elbow"] None
    [ mk_sample [0; 0; 90]%float [ (0, 0, 0)%float ] "0";
      mk_sample [0; 0; 90; 0; 0; 10]%float [ (0, 0, 0)%float ] "1" ] 1.

Lemma empty_store_saves_nothing_witness :
  save_dataset (clear_samples bent_store) "data/poses.npz" (studio two_points 1)
  = (Returned tt, studio two_points 1) /\
  (save_dataset (clear_samples bent_store) "data/poses.npz" ;;
   CorrectiveDeformerDataset_init (npz_path "data/poses.npz")) (studio two_points 1)
  = (Raised (FileNotFoundError (npz_path "data/poses.npz")), studio two_points 1).
Proof.
  apply (empty_store_saves_nothing bent_store "data/poses.npz" (studio two_points 1)).
  reflexivity.
Defined.

Lemma save_dataset_bare_filename_witness :
  save_dataset bent_store "poses.npz" (studio two_points 1)
  = (Raised (FileNotFoundError ""), studio two_points 1).
Proof.
  apply (save_dataset_bare_filename bent_store "poses.npz" (studio two_points 1) 3 2).
  - discriminate.
  - repeat constructor.
  - apply (bool_decide_unpack _). vm_compute. exact I.
Defined.

Lemma save_dataset_refuses_ragged_witness :
  exists e, save_dataset ragged_store "data/poses.npz" (studio two_points 1)
            = (Raised e, studio two_points 1).
Proof.
  apply (save_dataset_refuses_ragged ragged_store "data/poses.npz" (studio two_points 1)
           (mk_sample [0; 0; 90]%float [ (0, 0, 0)%float ] "0")
           (mk_sample [0; 0; 90; 0; 0; 10]%float [ (0, 0, 0)%float ] "1")).
  - simpl. left.
  - simpl. right. left.
  - simpl. lia.
Defined.



(** The files of the witness. *)
Example saved_paths :
  npz_path "data/poses.npz" = "data/poses.npz" /\
  metadata_path "data/poses.npz" = "data/poses_metadata.json" /\
  npz_path "data/poses" = "data/poses.npz" /\
  metadata_path "data/poses" = "data/poses".
Proof. vm_compute. done. Qed.

End SaveMoreExamples.

(* ===================================================================== *)
(** * Further properties of the models *)
(* ===================================================================== *)

Module ModelMore.
Import Model ModelFacts.

(** The layers the loop over [hidden_layers] appends, from input size
    [input_size] on. *)
Fixpoint hidden_stack (with_dropout : bool) (input_size : Z) (hidden_layers : list Z)
  : list layer :=
  match hidden_layers with
  | [] => []
  | hidden_size :: rest =>
      [Linear input_size hidden_size; ReLU]
      ++ (if with_dropout then [Dropout dropout_p] else [])
      ++ hidden_stack with_dropout hidden_size rest
  end.

(** The block [_make_residual_block] builds. *)
Definition residual_block (hidden_size : Z) : layer :=
  Sequential [Linear hidden_size hidden_size; ReLU;
              Linear hidden_size hidden_size; ReLU].

(** Weights and biases of a linear layer. *)
Definition weights_and_biases (io : Z * Z) : Z := io.1 * io.2 + io.2.

Lemma hidden_stack_chain with_dropout hs : forall i,
  concat (linear_modules <$> hidden_stack with_dropout i hs) = zip (i :: hs) hs.
Proof.
  induction hs as [|h hs IH]; intros i; [done|].
  cbn [hidden_stack]. rewrite !fmap_app, !concat_app, IH.
  by destruct with_dropout.
Qed.

Lemma last_cons_default {A} (x : A) (l : list A) (d d' : A) :
  List.last (x :: l) d = List.last (x :: l) d'.
Proof. revert x. induction l as [|y l IH]; intros x; [done|]. apply (IH y). Qed.

Lemma zip_chain_snoc (hs : list Z) : forall i o,
  zip (i :: hs) hs ++ [(List.last hs i, o)] = zip (i :: hs) (hs ++ [o]).
Proof.
  induction hs as [|h hs IH]; intros i o; [done|].
  change (((i, h) :: zip (h :: hs) hs) ++ [(List.last (h :: hs) i, o)]
          = (i, h) :: zip (h :: hs) (hs ++ [o])).
  rewrite <- (IH h o). simpl. do 4 f_equal.
  destruct hs as [|x hs]; [done|]. apply last_cons_default.
Qed.

Lemma network_linear_modules (layers : list layer) :
  concat ((fun sub : string * layer => linear_modules sub.2)
            <$> [("network", Sequential layers)])
  = concat (linear_modules <$> layers).
Proof. simpl. by rewrite app_nil_r. Qed.

Lemma count_as_sum (l : list (Z * Z)) :
  foldr (fun io acc => io.1 * io.2 + io.2 + acc) 0 l
  = foldr Z.add 0 (weights_and_biases <$> l).
Proof. induction l as [|io l IH]; simpl; [done|]. by rewrite IH. Qed.

Section Torch.
Variables linear_fault xavier_fault : Z -> Z -> option exn.
Context {S : Type}.

Lemma nn_Linear_returns i o (s s' : S) l :
  nn_Linear linear_fault i o s = (Returned l, s') -> l = Linear i o /\ s' = s.
Proof. unfold nn_Linear. destruct (linear_fault i o); by intros [= <- <-]. Qed.

Lemma stack_hidden_returns with_dropout hs : forall layers input (s s' : S) r,
  stack_hidden linear_fault with_dropout hs layers input s = (Returned r, s') ->
  r = (layers ++ hidden_stack with_dropout input hs, List.last hs input) /\ s' = s.
Proof.
  induction hs as [|h hs IH]; intros layers input s s' r.
  - cbn. intros [= <- <-]. by rewrite app_nil_r.
  - cbn [stack_hidden]. rewrite bind_run.
    destruct (nn_Linear linear_fault input h s) as [[l| |] s1] eqn:Hl; try done.
    apply nn_Linear_returns in Hl as [-> ->].
    intros Hrun. apply IH in Hrun as [-> ->]. split; [|done].
    f_equal.
    + cbn [hidden_stack]. destruct with_dropout; by rewrite <- !app_assoc.
    + destruct hs as [|x hs]; [done|].
      change (List.last (x :: hs) h = List.last (x :: hs) input).
      apply last_cons_default.
Qed.

Lemma initialize_weights_returns subs (s s' : S) u :
  _initialize_weights xavier_fault subs s = (Returned u, s') -> s' = s.
Proof.
  unfold _initialize_weights. generalize (concat ((fun x => linear_modules x.2) <$> subs)).
  intros l. revert s. induction l as [|io l IH]; intros s; [by intros [= _ <-]|].
  cbn [for_each]. rewrite bind_run.
  destruct (xavier_fault io.1 io.2); [done|]. simpl. apply IH.
Qed.

(** X14.  What [create_model('standard', ...)] builds when the tensor library
    refuses no layer: one [Sequential] in which every hidden size contributes a
    linear layer, a ReLU and a dropout of 0.1, closed by a linear layer; the
    linear layers are chained -- each takes the size the one before it gives,
    the first takes [num_joints] and the last gives [3 * num_vertices] -- and
    [count_parameters] is the sum of their weights and biases.  The three
    attributes are set, and nothing else is changed. *)
Theorem standard_model_is_chained
  (num_joints num_vertices : Z) (kw : kwargs) (s : S) :
  match create_model linear_fault xavier_fault "standard" num_joints num_vertices kw s with
  | (Returned m, s') =>
      let hs := kwargs_get (kw_hidden_layers kw) [256; 512; 512; 256] in
      s' = s /\
      cls m = CorrectiveDeformerNet /\
      submodules m
        = [("network",
            Sequential (hidden_stack true num_joints hs
                        ++ [Linear (List.last hs num_joints) (num_vertices * 3)]))] /\
      concat ((fun sub => linear_modules sub.2) <$> submodules m)
        = zip (num_joints :: hs) (hs ++ [num_vertices * 3]) /\
      count_parameters m
        = foldr Z.add 0 (weights_and_biases
                           <$> zip (num_joints :: hs) (hs ++ [num_vertices * 3])) /\
      attributes m !! "num_joints" = Some num_joints /\
      attributes m !! "num_vertices" = Some num_vertices /\
      attributes m !! "output_size" = Some (num_vertices * 3)
  | _ => True
  end.
Proof.
  unfold create_model. rewrite decide_True by done.
  set (hs := kwargs_get (kw_hidden_layers kw) [256; 512; 512; 256]).
  rewrite bind_run. unfold CorrectiveDeformerNet_init. rewrite bind_run.
  destruct (stack_hidden linear_fault true hs [] num_joints s) as [[st| |] s1] eqn:Hst;
    try done.
  apply stack_hidden_returns in Hst as [-> ->]. cbn [fst snd app].
  rewrite bind_run.
  destruct (nn_Linear linear_fault (List.last hs num_joints) (num_vertices * 3) s)
    as [[out| |] s2] eqn:Hout; try done.
  apply nn_Linear_returns in Hout as [-> ->].
  rewrite bind_run.
  destruct (_initialize_weights xavier_fault _ s) as [[[]| |] s3] eqn:Hinit; try done.
  apply initialize_weights_returns in Hinit as ->.
  unfold ret, print, bind. cbv beta iota zeta.
  assert (concat ((fun sub : string * layer => linear_modules sub.2) <$>
            [("network",
              Sequential (hidden_stack true num_joints hs
                          ++ [Linear (List.last hs num_joints) (num_vertices * 3)]))])
          = zip (num_joints :: hs) (hs ++ [num_vertices * 3])) as Hchain.
  { rewrite network_linear_modules, fmap_app, concat_app, hidden_stack_chain.
    apply zip_chain_snoc. }
  cbv zeta. split_and!; try done.
  unfold count_parameters. cbn [submodules]. by rewrite Hchain, count_as_sum.
Qed.

Lemma residual_blocks_returns n hidden_size : forall (s s' : S) bs,
  residual_blocks linear_fault n hidden_size s = (Returned bs, s') ->
  bs = replicate n (residual_block hidden_size) /\ s' = s.
Proof.
  induction n as [|n IH]; intros s s' bs.
  - cbn. by intros [= <- <-].
  - cbn [residual_blocks]. rewrite bind_run. unfold _make_residual_block.
    rewrite bind_run.
    destruct (nn_Linear linear_fault hidden_size hidden_size s) as [[l1| |] s1] eqn:H1;
      try done.
    apply nn_Linear_returns in H1 as [-> ->]. rewrite bind_run.
    destruct (nn_Linear linear_fault hidden_size hidden_size s) as [[l2| |] s1] eqn:H2;
      try done.
    apply nn_Linear_returns in H2 as [-> ->]. rewrite ret_run, bind_run.
    destruct (residual_blocks linear_fault n hidden_size s) as [[bs'| |] s1] eqn:Hbs;
      try done.
    apply IH in Hbs as [-> ->]. by intros [= <- <-].
Qed.

Lemma replicate_block_count n hidden_size acc :
  foldr (fun io acc => io.1 * io.2 + io.2 + acc) acc
    (concat (linear_modules <$> replicate n (residual_block hidden_size)))
  = Z.of_nat n * (2 * (hidden_size * hidden_size + hidden_size)) + acc.
Proof.
  induction n as [|n IH]; [simpl; lia|].
  cbn [replicate fmap list_fmap concat]. rewrite foldr_app, IH.
  cbn [residual_block linear_modules fmap list_fmap concat app foldr fst snd]. lia.
Qed.

(** X15.  What [create_model('residual', ...)] builds when the tensor library
    refuses no layer: an input projection from [num_joints] to the hidden size,
    as many residual blocks as [num_blocks] says -- none for a negative number
    -- each of two square linear layers with a ReLU after each, and an output
    projection to [3 * num_vertices]; [count_parameters] is given in closed
    form.  The module has [num_vertices] and [output_size], and no
    [num_joints]. *)
Theorem residual_model_layout
  (num_joints num_vertices : Z) (kw : kwargs) (s : S) :
  match create_model linear_fault xavier_fault "residual" num_joints num_vertices kw s with
  | (Returned m, s') =>
      let h := kwargs_get (kw_hidden_size kw) 512 in
      let blocks := Z.to_nat (kwargs_get (kw_num_blocks kw) 4) in
      s' = s /\
      cls m = ResidualCorrectiveNet /\
      submodules m
        = [ ("input_proj", Linear num_joints h);
            ("blocks", Sequential (replicate blocks (residual_block h)));
            ("output_proj", Linear h (num_vertices * 3)) ] /\
      count_parameters m
        = (num_joints * h + h) + Z.of_nat blocks * (2 * (h * h + h))
          + (h * (num_vertices * 3) + num_vertices * 3) /\
      attributes m !! "num_joints" = None /\
      attributes m !! "num_vertices" = Some num_vertices /\
      attributes m !! "output_size" = Some (num_vertices * 3)
  | _ => True
  end.
Proof.
  unfold create_model.
  rewrite decide_False by done. rewrite decide_False by done.
  rewrite decide_True by done.
  set (h := kwargs_get (kw_hidden_size kw) 512).
  set (nb := kwargs_get (kw_num_blocks kw) 4).
  rewrite bind_run. unfold ResidualCorrectiveNet_init. rewrite bind_run.
  destruct (nn_Linear linear_fault num_joints h s) as [[ip| |] s1] eqn:Hip; try done.
  apply nn_Linear_returns in Hip as [-> ->]. rewrite bind_run.
  destruct (residual_blocks linear_fault (Z.to_nat nb) h s) as [[bs| |] s1] eqn:Hbs;
    try done.
  apply residual_blocks_returns in Hbs as [-> ->]. rewrite bind_run.
  destruct (nn_Linear linear_fault h (num_vertices * 3) s) as [[op| |] s1] eqn:Hop;
    try done.
  apply nn_Linear_returns in Hop as [-> ->]. rewrite bind_run.
  destruct (_initialize_weights xavier_fault _ s) as [[[]| |] s3] eqn:Hinit; try done.
  apply initialize_weights_returns in Hinit as ->.
  unfold ret, print, bind. cbv beta iota zeta.
  split_and!; try done.
  unfold count_parameters.
  cbn [submodules fmap list_fmap concat snd linear_modules app foldr fst].
  rewrite foldr_app. cbn [foldr fst snd].
  rewrite replicate_block_count. lia.
Qed.

End Torch.

End ModelMore.

(* ===================================================================== *)
(** * Further properties of the export *)
(* ===================================================================== *)

Module ExportMore.
Import World Model Train ModelFacts ExportFacts TrainerFacts ModelMore.

Section Torch.
Variables linear_fault xavier_fault : Z -> Z -> option exn.

Lemma create_model_standard_inv {S} nj nv kw (s s' : S) m :
  create_model linear_fault xavier_fault "standard" nj nv kw s = (Returned m, s') ->
  CorrectiveDeformerNet_init linear_fault xavier_fault nj nv
    (kwargs_get (kw_hidden_layers kw) [256; 512; 512; 256]) s = (Returned m, s').
Proof.
  unfold create_model. rewrite decide_True by done. rewrite bind_run.
  destruct (CorrectiveDeformerNet_init _ _ _ _ _ s) as [[m'| |] s1];
    first [done | by intros [= <- <-]].
Qed.

Lemma create_model_compact_inv {S} nj nv kw (s s' : S) m :
  create_model linear_fault xavier_fault "compact" nj nv kw s = (Returned m, s') ->
  CompactCorrectiveNet_init linear_fault xavier_fault nj
    (kwargs_get (kw_pca_components kw) 50)
    (kwargs_get (kw_hidden_layers kw) [128; 256; 128]) s = (Returned m, s').
Proof.
  unfold create_model. rewrite decide_False by done. rewrite decide_True by done.
  rewrite bind_run.
  destruct (CompactCorrectiveNet_init _ _ _ _ _ s) as [[m'| |] s1];
    first [done | by intros [= <- <-]].
Qed.

Lemma standard_model_attributes {S} nj nv hidden (s s' : S) m :
  CorrectiveDeformerNet_init linear_fault xavier_fault nj nv hidden s = (Returned m, s') ->
  attributes m !! "num_joints" = Some nj /\ attributes m !! "num_vertices" = Some nv.
Proof.
  unfold CorrectiveDeformerNet_init. rewrite !bind_run.
  destruct (stack_hidden linear_fault true hidden [] nj s) as [[st|?|] s1]; try done.
  rewrite !bind_run.
  destruct (nn_Linear linear_fault st.2 (nv * 3) s1) as [[op|?|] s3]; try done.
  rewrite !bind_run.
  destruct (_initialize_weights xavier_fault _ s3) as [[[]|?|] s4]; try done.
  intros [= <- <-]. done.
Qed.

Lemma compact_model_num_joints {S} nj pca hidden (s s' : S) m :
  CompactCorrectiveNet_init linear_fault xavier_fault nj pca hidden s = (Returned m, s') ->
  attributes m !! "num_joints" = Some nj.
Proof.
  unfold CompactCorrectiveNet_init. rewrite !bind_run.
  destruct (stack_hidden linear_fault false hidden [] nj s) as [[st|?|] s1]; try done.
  rewrite !bind_run.
  destruct (nn_Linear linear_fault st.2 pca s1) as [[op|?|] s3]; try done.
  rewrite !bind_run.
  destruct (_initialize_weights xavier_fault _ s3) as [[[]|?|] s4]; try done.
  intros [= <- <-]. done.
Qed.

End Torch.

Lemma metadata_path_not_torchscript save_dir :
  path_join save_dir "model_metadata.json" <> path_join save_dir "model_torchscript.pt".
Proof.
  unfold path_join. simpl.
  destruct (bool_decide (save_dir = "") || ends_with "/" save_dir);
    intros H%append_inj_l; discriminate.
Qed.

Lemma metadata_path_not_onnx save_dir :
  path_join save_dir "model_metadata.json" <> path_join save_dir "model.onnx".
Proof.
  unfold path_join. simpl.
  destruct (bool_decide (save_dir = "") || ends_with "/" save_dir);
    intros H%append_inj_l; discriminate.
Qed.

Lemma export_for_maya_without_num_vertices (t : Trainer) (save_dir : string) (w : world)
  (num_joints : Z) :
  attributes (model t) !! "num_joints" = Some num_joints ->
  attributes (model t) !! "num_vertices" = None ->
  0 <= num_joints ->
  exists w',
    export_for_maya t save_dir w = (Raised (AttributeError "num_vertices"), w') /\
    written w' = written w ++ exported_formats t save_dir w /\
    files w' !! path_join save_dir "model_metadata.json"
      = files w !! path_join save_dir "model_metadata.json" /\
    clock w' = clock w.
Proof.
  intros Hj Hv Hpos.
  pose proof (metadata_path_not_torchscript save_dir) as H1.
  pose proof (metadata_path_not_onnx save_dir) as H2.
  rewrite (export_for_maya_formats _ _ _ _ Hj Hpos).
  destruct (write_all_frame (exported_formats t save_dir w) w)
    as (_ & Hck & Hwr & _ & _).
  unfold getattr. rewrite bind_run, Hv.
  eexists. split; [reflexivity|]. split_and!; [done | | done].
  unfold exported_formats, format_export, write_all.
  repeat match goal with
         | |- context [match torchscript_fault ?a with _ => _ end] =>
             destruct (torchscript_fault a); simpl
         | |- context [match onnx_fault ?a with _ => _ end] =>
             destruct (onnx_fault a); simpl
         | |- context [match write_error ?a ?b with _ => _ end] =>
             destruct (write_error a b); simpl
         end;
    rewrite ?lookup_insert_ne; done.
Qed.

(** X16.  For the standard architecture the export keeps its promise wherever
    the metadata file can be opened.  [export_for_maya] does not make
    [save_dir], and opens the metadata file outside both [try] blocks.  With a
    non-negative [num_joints], for the model [create_model('standard', ...)]
    returns and whichever of the two exports fails: if the metadata path can be
    opened for writing, [export_for_maya] returns, each format whose export
    does not fail is written, a failure of one does not stop the other, and
    the metadata is written last, with the sizes of the model and the trainer's
    best loss; if it cannot be opened once the formats were attempted, the
    error of [open] leaves the method, and no metadata is written. *)
Theorem export_for_maya_standard_writes_metadata
  (lf xf : Z -> Z -> option exn) (num_joints num_vertices : Z) (kw : kwargs)
  (params opt : state_dict) (train_hist val_hist : list float) (best : float)
  (save_dir : string) (w w1 : world) (m : module) :
  0 <= num_joints ->
  create_model lf xf "standard" num_joints num_vertices kw w = (Returned m, w1) ->
  let t := mk_trainer m params opt train_hist val_hist best in
  let metadata_file := path_join save_dir "model_metadata.json" in
  (write_error w1 metadata_file = None ->
   exists w',
     export_for_maya t save_dir w1 = (Returned tt, w') /\
     written w' =
       written w1 ++ exported_formats t save_dir w1 ++
       [(metadata_file, export_metadata t num_joints num_vertices (clock w1))] /\
     files w' !! metadata_file
       = Some (export_metadata t num_joints num_vertices (clock w1))) /\
  (forall e,
     write_error (write_all (exported_formats t save_dir w1) w1) metadata_file = Some e ->
     exists w',
       export_for_maya t save_dir w1 = (Raised e, w') /\
       written w' = written w1 ++ exported_formats t save_dir w1).
Proof.
  intros Hpos Hm t metadata_file.
  apply create_model_standard_inv, standard_model_attributes in Hm as [Hj Hv].
  split.
  - intros Hmeta.
    by apply (export_for_maya_with_attributes t save_dir w1 num_joints num_vertices).
  - intros e He.
    rewrite (export_for_maya_metadata_error t save_dir w1 num_joints num_vertices e)
      by done.
    eexists. split; [reflexivity|]. simpl.
    by destruct (write_all_frame (exported_formats t save_dir w1) w1)
      as (_ & _ & -> & _ & _).
Qed.

(** X17.  For the compact architecture the export cannot finish.  With a
    non-negative [num_joints], for whatever model [create_model('compact', ...)]
    returns, [export_for_maya] attempts both formats, then raises
    [AttributeError] on [num_vertices], which that class never sets: the
    formats that did not fail are on disk, the metadata file is not written,
    and the clock has not been read. *)
Theorem export_for_maya_compact_raises
  (lf xf : Z -> Z -> option exn) (num_joints num_vertices : Z) (kw : kwargs)
  (params opt : state_dict) (train_hist val_hist : list float) (best : float)
  (save_dir : string) (w : world) :
  0 <= num_joints ->
  match create_model lf xf "compact" num_joints num_vertices kw w with
  | (Returned m, w1) =>
      let t := mk_trainer m params opt train_hist val_hist best in
      exists w',
        export_for_maya t save_dir w1 = (Raised (AttributeError "num_vertices"), w') /\
        written w' = written w1 ++ exported_formats t save_dir w1 /\
        files w' !! path_join save_dir "model_metadata.json"
          = files w1 !! path_join save_dir "model_metadata.json" /\
        clock w' = clock w1
  | _ => True
  end.
Proof.
  intros Hpos.
  destruct (create_model lf xf "compact" num_joints num_vertices kw w)
    as [[m| |] w1] eqn:Hm; try done.
  apply create_model_compact_inv in Hm.
  pose proof (compact_model_num_joints _ _ _ _ _ _ _ _ Hm) as Hj.
  pose proof (compact_model_has_no_num_vertices _ _ _ _ _ _ _ _ Hm) as Hv.
  cbv zeta. by apply (export_for_maya_without_num_vertices _ save_dir w1 num_joints).
Qed.

(** The model [create_model('standard', 6, 100)] returns. *)
Definition standard_model : module :=
  match create_model no_layer_fault no_layer_fault "standard" 6 100 no_kwargs bare_world with
  | (Returned m, _) => m
  | _ => bare_module
  end.

Lemma export_for_maya_standard_writes_metadata_witness :
  let t := mk_trainer standard_model [] [] [] [] 1%float in
  (exists w',
     export_for_maya t "models" models_world = (Returned tt, w') /\
     (written w').*1 =
       ["models/model_torchscript.pt"; "models/model.onnx"; "models/model_metadata.json"]) /\
  (exists w',
     export_for_maya t "models" bare_world
     = (Raised (FileNotFoundError "models/model_metadata.json"), w') /\
     written w' = []).
Proof.
  intros t.
  assert (Hpos : 0 <= 6) by lia.
  assert (Hm1 : create_model no_layer_fault no_layer_fault "standard" 6 100 no_kwargs
                  models_world = (Returned standard_model, models_world))
    by (vm_compute; reflexivity).
  assert (Hm2 : create_model no_layer_fault no_layer_fault "standard" 6 100 no_kwargs
                  bare_world = (Returned standard_model, bare_world))
    by (vm_compute; reflexivity).
  split.
  - destruct (export_for_maya_standard_writes_metadata no_layer_fault no_layer_fault
                6 100 no_kwargs [] [] [] [] 1%float "models" models_world models_world
                standard_model Hpos Hm1) as [Hok _].
    destruct Hok as (w' & Hrun & Hwr & _); [vm_compute; reflexivity|].
    exists w'. split; [exact Hrun|]. rewrite Hwr. vm_compute. reflexivity.
  - destruct (export_for_maya_standard_writes_metadata no_layer_fault no_layer_fault
                6 100 no_kwargs [] [] [] [] 1%float "models" bare_world bare_world
                standard_model Hpos Hm2) as [_ Hfail].
    destruct (Hfail (FileNotFoundError "models/model_metadata.json")) as (w' & Hrun & Hwr);
      [vm_compute; reflexivity|].
    exists w'. split; [exact Hrun|]. rewrite Hwr. vm_compute. reflexivity.
Defined.

Lemma export_for_maya_compact_raises_witness :
  match create_model no_layer_fault no_layer_fault "compact" 6 100 no_kwargs bare_world with
  | (Returned m, w1) =>
      let t := mk_trainer m [] [] [] [] 1%float in
      exists w',
        export_for_maya t "models" w1 = (Raised (AttributeError "num_vertices"), w') /\
        written w' = written w1 ++ exported_formats t "models" w1 /\
        files w' !! path_join "models" "model_metadata.json"
          = files w1 !! path_join "models" "model_metadata.json" /\
        clock w' = clock w1
  | _ => True
  end.
Proof.
  apply (export_for_maya_compact_raises no_layer_fault no_layer_fault 6 100
           no_kwargs [] [] [] [] 1%float "models" bare_world).
  lia.
Defined.

(** The run of the witness: both formats are written, then the export raises. *)
Example compact_export_run :
  exists m w',
    create_model no_layer_fault no_layer_fault "compact" 6 100 no_kwargs bare_world
    = (Returned m, bare_world) /\
    export_for_maya (mk_trainer m [] [] [] [] 1%float) "models" models_world
    = (Raised (AttributeError "num_vertices"), w') /\
    (written w').*1 = ["models/model_torchscript.pt"; "models/model.onnx"].
Proof. eexists _, _. split_and!; vm_compute; reflexivity. Qed.

End ExportMore.

(* ===================================================================== *)
(** * Further properties of the training loop *)
(* ===================================================================== *)

Module TrainMore.
Import World Model Train FloatOrder TrainerFacts.

(** The dictionary [save_checkpoint] saves for trainer [t] in [epoch] with
    validation loss [v]. *)
Definition checkpoint_of (t : Trainer) (epoch : Z) (v : float) : checkpoint :=
  mk_checkpoint epoch (parameters t) (optimizer t) v (train_losses t) (val_losses t).

Section Loop.
Variable torch : backend.
Variables train_loader val_loader : list (batch torch).
Variable save_dir : string.

Definition best_path : string := path_join save_dir "best_model.pth".
Definition periodic_path (epoch : Z) : string := path_join save_dir (periodic_name epoch).

(** The files after an epoch that ends with trainer [t'] and loss [v]. *)
Definition files_after_epoch (t' : Trainer) (epoch : Z) (v : float) (improved : bool)
  (fs : gmap string file) : gmap string file :=
  let fs := if improved then <[best_path := CheckpointFile (checkpoint_of t' epoch v)]> fs
            else fs in
  if decide ((epoch + 1) mod 10 = 0)
  then <[periodic_path epoch := CheckpointFile (checkpoint_of t' epoch v)]> fs
  else fs.

Lemma train_one_epoch_files t epoch w :
  match train_one_epoch torch train_loader val_loader save_dir t epoch w with
  | (Returned t', w') =>
      exists v train_loss,
        val_losses t' = val_losses t ++ [v] /\
        train_losses t' = train_losses t ++ [train_loss] /\
        best_val_loss t' = (if fltb v (best_val_loss t) then v else best_val_loss t) /\
        files w' = files_after_epoch t' epoch v (fltb v (best_val_loss t)) (files w) /\
        maya w' = maya w /\ clock w' = clock w
  | (Raised _, w') => True
  | (Timeout, _) => False
  end.
Proof.
  unfold train_one_epoch. rewrite bind_run.
  destruct (stateless_cases (train_epoch torch t train_loader) w
              (stateless_train_epoch torch train_loader t)) as [[r Hr] | [e Hr]];
    rewrite Hr; [|done].
  destruct (train_epoch_keeps_record _ _ _ _ _ _ Hr) as (Htl & Hvl & Hbest).
  destruct r as [t1 train_loss]. simpl in Htl, Hvl, Hbest. cbn [fst snd].
  rewrite bind_run.
  destruct (stateless_cases
              (validate torch (append_train_loss train_loss t1) val_loader) w
              (stateless_validate torch val_loader _)) as [[v Hv] | [e Hv]];
    rewrite Hv; [|done].
  rewrite bind_run, print_run.
  change (best_val_loss (set_optimizer _ (append_val_loss v (append_train_loss train_loss t1))))
    with (best_val_loss t1).
  rewrite Hbest.
  unfold files_after_epoch, checkpoint_of, best_path, periodic_path, save_checkpoint.
  destruct (fltb v (best_val_loss t)) eqn:Hlt.
  - step_py. destruct (write_error w (path_join save_dir "best_model.pth")); [done|].
    step_py. case_decide.
    + step_py.
      destruct (write_error _ (path_join save_dir (periodic_name epoch))); [done|].
      exists v, train_loss. rewrite Hlt. simpl. split_and!;
        [ by rewrite <- Hvl | by rewrite <- Htl | done | done | done | done ].
    + step_py. exists v, train_loss. rewrite Hlt. simpl. split_and!;
        [ by rewrite <- Hvl | by rewrite <- Htl | done | done | done | done ].
  - step_py. case_decide.
    + step_py.
      destruct (write_error _ (path_join save_dir (periodic_name epoch))); [done|].
      exists v, train_loss. rewrite Hlt. simpl. split_and!;
        [ by rewrite <- Hvl | by rewrite <- Htl | done | done | done | done ].
    + step_py. exists v, train_loss. rewrite Hlt. simpl. split_and!;
        [ by rewrite <- Hvl | by rewrite <- Htl | done | done | done | done ].
Qed.

(** What the disk holds at the best path, for trainer [t], when it held [old]
    before the run: either no epoch has improved, or the checkpoint of the
    epoch that set the best loss. *)
Definition best_on_disk (old : option file) (t : Trainer) (fs : gmap string file) : Prop :=
  (best_val_loss t = PrimFloat.infinity /\ fs !! best_path = old) \/
  (exists c,
     fs !! best_path = Some (CheckpointFile c) /\
     ck_val_loss c = best_val_loss t /\
     0 <= ck_epoch c /\
     val_losses t !! Z.to_nat (ck_epoch c) = Some (best_val_loss t) /\
     ck_val_losses c = take (S (Z.to_nat (ck_epoch c))) (val_losses t) /\
     fltb (best_val_loss t) PrimFloat.infinity = true).

Lemma best_on_disk_step old t t' v fs :
  best_on_disk old t fs ->
  val_losses t' = val_losses t ++ [v] ->
  best_val_loss t' = (if fltb v (best_val_loss t) then v else best_val_loss t) ->
  best_on_disk old t'
    (files_after_epoch t' (Z.of_nat (length (val_losses t))) v
       (fltb v (best_val_loss t)) fs).
Proof.
  intros Hinv Hvl Hbest. unfold files_after_epoch.
  set (k := length (val_losses t)).
  assert (forall fs' : gmap string file,
            (if decide ((Z.of_nat k + 1) mod 10 = 0)
             then <[periodic_path (Z.of_nat k) :=
                      CheckpointFile (checkpoint_of t' (Z.of_nat k) v)]> fs'
             else fs') !! best_path = fs' !! best_path) as Hperiodic.
  { intros fs'. case_decide; [|done]. apply lookup_insert_ne.
    intros Heq. symmetry in Heq. by apply best_path_not_periodic in Heq. }
  unfold best_on_disk. rewrite Hbest. destruct (fltb v (best_val_loss t)) eqn:Hlt.
  - right. exists (checkpoint_of t' (Z.of_nat k) v).
    rewrite Hperiodic, lookup_insert_eq. cbn [checkpoint_of ck_val_loss ck_epoch ck_val_losses].
    rewrite Nat2Z.id, Hvl. split_and!; [done | done | lia | | |].
    + by rewrite lookup_app_r, Nat.sub_diag.
    + rewrite take_ge; [done|]. rewrite length_app. simpl. lia.
    + destruct Hinv as [[Hinf _] | (c & _ & _ & _ & _ & _ & Hfin)].
      * by rewrite <- Hinf.
      * by apply (fltb_trans _ (best_val_loss t)).
  - rewrite Hperiodic. destruct Hinv as [[Hinf Hold] | (c & Hc & Hv & Hpos & Hlk & Htk & Hfin)].
    + by left.
    + right. exists c. rewrite Hvl.
      pose proof (lookup_lt_Some _ _ _ Hlk) as Hlen.
      split_and!; [done | done | done | | | done].
      * by rewrite lookup_app_l.
      * rewrite take_app_le by lia. done.
Qed.

Lemma best_on_disk_loop (old : option file) (n : nat) :
  forall t w,
    best_on_disk old t (files w) ->
    match fold_each (Z.of_nat <$> seq (length (val_losses t)) n) t
            (train_one_epoch torch train_loader val_loader save_dir) w with
    | (Returned t', w') => best_on_disk old t' (files w')
    | _ => True
    end.
Proof.
  induction n as [|n IH]; intros t w Hinv; [done|].
  cbn [seq fmap list_fmap]. rewrite fold_each_cons, bind_run.
  pose proof (train_one_epoch_files t (Z.of_nat (length (val_losses t))) w) as Hstep.
  destruct (train_one_epoch torch train_loader val_loader save_dir t
              (Z.of_nat (length (val_losses t))) w) as [[t1|e|] w1]; [|done|done].
  destruct Hstep as (v & tr & Hvl & Htl & Hbest & Hfiles & _).
  assert (length (val_losses t1) = S (length (val_losses t))) as Hlen1.
  { rewrite Hvl, length_app. simpl. lia. }
  specialize (IH t1 w1). rewrite Hlen1 in IH. apply IH.
  rewrite Hfiles. by apply best_on_disk_step.
Qed.

(** X18.  What [best_model.pth] holds after training.  When the loop of a new
    trainer returns, either no epoch had a loss below infinity, the best loss
    is still infinity and the file at the best path is whatever was there
    before; or the file is the checkpoint of the epoch that set the trainer's
    best loss: its [val_loss] is the best loss, its [epoch] is a position of
    that loss in the validation history, and its own history ends with that
    epoch. *)
Theorem best_checkpoint_holds_best_loss (m : module) (num_epochs : Z) (w : world) :
  match (t0 <- Trainer_init torch m ;;
         train_epochs torch t0 train_loader val_loader num_epochs save_dir) w with
  | (Returned t, w') => best_on_disk (files w !! best_path) t (files w')
  | _ => True
  end.
Proof.
  unfold Trainer_init. rewrite bind_run, bind_run, print_run, ret_run.
  unfold train_epochs, py_range.
  set (t0 := mk_trainer m _ _ [] [] PrimFloat.infinity).
  apply (best_on_disk_loop (files w !! best_path) (Z.to_nat num_epochs) t0 w).
  by left.
Qed.

(** ** The periodic checkpoints *)

Lemma append_inj_r (a b s : string) : String.append a s = String.append b s -> a = b.
Proof.
  intros H. apply PathFacts.chars_inj.
  apply (f_equal chars) in H. rewrite !PathFacts.chars_append in H.
  by apply app_inv_tail in H.
Qed.

Lemma periodic_name_inj (e e' : Z) : periodic_name e = periodic_name e' -> e = e'.
Proof.
  unfold periodic_name. intros H%append_inj_l%append_inj_r.
  apply (inj pretty) in H. lia.
Qed.

Lemma periodic_path_inj (e e' : Z) : periodic_path e = periodic_path e' -> e = e'.
Proof.
  unfold periodic_path, path_join.
  assert (forall x, is_prefix [slash] (chars (periodic_name x)) = false) as Hrel by done.
  rewrite !Hrel.
  destruct (bool_decide (save_dir = "") || ends_with "/" save_dir).
  - by intros H%append_inj_l%periodic_name_inj.
  - by intros H%append_inj_l%append_inj_l%periodic_name_inj.
Qed.

(** Every tenth epoch completed so far has its checkpoint on disk. *)
Definition periodic_on_disk (t : Trainer) (fs : gmap string file) : Prop :=
  forall e : nat,
    (e < length (val_losses t))%nat -> (Z.of_nat e + 1) mod 10 = 0 ->
    exists c,
      fs !! periodic_path (Z.of_nat e) = Some (CheckpointFile c) /\
      ck_epoch c = Z.of_nat e /\
      ck_val_losses c = take (S e) (val_losses t) /\
      val_losses t !! e = Some (ck_val_loss c).

Lemma periodic_on_disk_step t t' v fs :
  periodic_on_disk t fs ->
  val_losses t' = val_losses t ++ [v] ->
  periodic_on_disk t'
    (files_after_epoch t' (Z.of_nat (length (val_losses t))) v
       (fltb v (best_val_loss t)) fs).
Proof.
  intros Hinv Hvl e He Hmod. rewrite Hvl, length_app in He. simpl in He.
  unfold files_after_epoch. set (k := length (val_losses t)) in *.
  destruct (decide (e = k)) as [->|Hne].
  - rewrite decide_True by done.
    exists (checkpoint_of t' (Z.of_nat k) v). rewrite lookup_insert_eq.
    cbn [checkpoint_of ck_epoch ck_val_losses ck_val_loss]. rewrite Hvl.
    split_and!; [done | done | |].
    + rewrite take_ge; [done|]. rewrite length_app. simpl. lia.
    + by rewrite lookup_app_r, Nat.sub_diag.
  - destruct (Hinv e ltac:(lia) Hmod) as (c & Hc & Hep & Hvs & Hv).
    exists c. rewrite Hvl. split_and!; [ | done | | ].
    + assert (periodic_path (Z.of_nat e) <> periodic_path (Z.of_nat k)) as Hpk.
      { intros Heq%periodic_path_inj. lia. }
      assert (periodic_path (Z.of_nat e) <> best_path) as Hpb.
      { intros Heq. symmetry in Heq. by apply best_path_not_periodic in Heq. }
      case_decide; destruct (fltb v (best_val_loss t));
        rewrite ?lookup_insert_ne; done.
    + rewrite take_app_le by lia. done.
    + rewrite lookup_app_l by lia. done.
Qed.

Lemma periodic_on_disk_loop (n : nat) :
  forall t w,
    periodic_on_disk t (files w) ->
    match fold_each (Z.of_nat <$> seq (length (val_losses t)) n) t
            (train_one_epoch torch train_loader val_loader save_dir) w with
    | (Returned t', w') =>
        periodic_on_disk t' (files w') /\
        length (val_losses t') = (length (val_losses t) + n)%nat
    | _ => True
    end.
Proof.
  induction n as [|n IH]; intros t w Hinv; [simpl; split; [done | lia]|].
  cbn [seq fmap list_fmap]. rewrite fold_each_cons, bind_run.
  pose proof (train_one_epoch_files t (Z.of_nat (length (val_losses t))) w) as Hstep.
  destruct (train_one_epoch torch train_loader val_loader save_dir t
              (Z.of_nat (length (val_losses t))) w) as [[t1|e|] w1]; [|done|done].
  destruct Hstep as (v & tr & Hvl & Htl & Hbest & Hfiles & _).
  assert (length (val_losses t1) = S (length (val_losses t))) as Hlen1.
  { rewrite Hvl, length_app. simpl. lia. }
  specialize (IH t1 w1). rewrite Hlen1 in IH.
  assert (periodic_on_disk t1 (files w1)) as Hinv1.
  { rewrite Hfiles. by apply periodic_on_disk_step. }
  specialize (IH Hinv1).
  destruct (fold_each _ t1 _ w1) as [[t2|e|] w2]; [|done|done].
  destruct IH as [IH1 IH2]. split; [done | lia].
Qed.

(** X20.  The periodic checkpoints stay on disk.  When the loop of a new
    trainer returns, all [num_epochs] epochs are in the validation history, and
    for every epoch [e] (counted from zero) with [e + 1] a multiple of ten the
    file [checkpoint_epoch_<e+1>.pth] holds the checkpoint written in that
    epoch: it is stamped [e], its validation history is the first [e + 1]
    losses of the run, and its [val_loss] is the loss of epoch [e].  No later
    epoch overwrites it. *)
Theorem periodic_checkpoints_persist (m : module) (num_epochs : Z) (w : world) :
  match (t0 <- Trainer_init torch m ;;
         train_epochs torch t0 train_loader val_loader num_epochs save_dir) w with
  | (Returned t, w') =>
      length (val_losses t) = Z.to_nat num_epochs /\
      periodic_on_disk t (files w')
  | _ => True
  end.
Proof.
  unfold Trainer_init. rewrite bind_run, bind_run, print_run, ret_run.
  unfold train_epochs, py_range.
  set (t0 := mk_trainer m _ _ [] [] PrimFloat.infinity).
  pose proof (periodic_on_disk_loop (Z.to_nat num_epochs) t0 w) as Hloop.
  cbn [val_losses t0 length] in Hloop.
  destruct (fold_each (Z.of_nat <$> seq 0 (Z.to_nat num_epochs)) t0
              (train_one_epoch torch train_loader val_loader save_dir) w)
    as [[t|e|] w']; [|done|done].
  destruct Hloop as [H1 H2]; [|split; [lia | done]].
  intros e He. simpl in He. lia.
Qed.

End Loop.

(** ** Loaders without batches *)

(** X19.  Training needs batches on both sides.  For one epoch or more and a
    directory that [os.makedirs] can make ([w1] is the world with it), [train]
    raises [ZeroDivisionError] in the first epoch when the training loader
    yields no batch, and also when the validation loader yields none and the
    optimisation steps raise nothing -- the averages divide by the number of
    batches.  No checkpoint is written and nothing is exported: the world is as
    [os.makedirs] left it, with no file written. *)
Theorem train_without_batches (torch : backend) (t : Trainer)
  (train_loader val_loader : list (batch torch)) (num_epochs : Z)
  (save_dir : string) (w w1 : world) :
  0 < num_epochs ->
  os_makedirs save_dir w = (Returned tt, w1) ->
  train_loader = [] \/
  (val_loader = [] /\ forall m st b, exists r, fit_batch torch m st b = inr r) ->
  train torch t train_loader val_loader num_epochs save_dir w
  = (Raised ZeroDivisionError, w1) /\
  written w1 = written w.
Proof.
  intros Hn Hmk Hcase.
  destruct (os_makedirs_frame _ _ _ _ Hmk) as (_ & _ & Hwr & _).
  split; [|done]. unfold train.
  rewrite bind_run, Hmk, bind_run, print_run, bind_run.
  unfold train_epochs, py_range.
  destruct (Z.to_nat num_epochs) as [|n] eqn:Hnat; [lia|].
  cbn [seq fmap list_fmap]. rewrite fold_each_cons, bind_run.
  unfold train_one_epoch. rewrite bind_run.
  destruct train_loader as [|b train_loader]; [done|].
  destruct Hcase as [? | [-> Hfit]]; [done|].
  destruct (train_epoch_returns torch (b :: train_loader) ltac:(done) Hfit t w1) as [r ->].
  rewrite bind_run. done.
Qed.

(** X23.  Training for no epoch still exports.  With [num_epochs] zero or
    negative, a directory that [os.makedirs] can make ([w1] is the world with
    it), in which the metadata file can be opened, and a model that has a
    non-negative [num_joints] and a [num_vertices], [train] runs no epoch and
    writes no checkpoint, returns the trainer as it was, and exports: the
    formats that do not fail, then the metadata, whose [best_val_loss] is the
    one the trainer started with -- infinity for a new trainer. *)
Theorem train_no_epochs (torch : backend) (t : Trainer)
  (train_loader val_loader : list (batch torch)) (num_epochs : Z)
  (save_dir : string) (w w1 : world) (num_joints num_vertices : Z) :
  num_epochs <= 0 ->
  os_makedirs save_dir w = (Returned tt, w1) ->
  write_error w1 (path_join save_dir "model_metadata.json") = None ->
  attributes (model t) !! "num_joints" = Some num_joints ->
  attributes (model t) !! "num_vertices" = Some num_vertices ->
  0 <= num_joints ->
  exists w',
    train torch t train_loader val_loader num_epochs save_dir w = (Returned t, w') /\
    written w' =
      written w ++ ExportFacts.exported_formats t save_dir w1 ++
      [(path_join save_dir "model_metadata.json",
        ExportFacts.export_metadata t num_joints num_vertices (clock w))] /\
    files w' !! path_join save_dir "model_metadata.json"
      = Some (ExportFacts.export_metadata t num_joints num_vertices (clock w)).
Proof.
  intros Hn Hmk Hmeta Hj Hv Hpos.
  destruct (os_makedirs_frame _ _ _ _ Hmk) as (_ & Hck & Hwr & _).
  unfold train.
  rewrite bind_run, Hmk, bind_run, print_run, bind_run.
  unfold train_epochs, py_range.
  replace (Z.to_nat num_epochs) with 0%nat by lia.
  cbn [seq fmap list_fmap]. rewrite fold_each_nil, ret_run, bind_run, print_run, bind_run.
  destruct (ExportFacts.export_for_maya_with_attributes t save_dir w1 num_joints
              num_vertices Hj Hv Hpos Hmeta) as (w' & -> & Hw & Hf).
  exists w'. rewrite <- Hck, <- Hwr. done.
Qed.

Lemma train_no_epochs_witness :
  exists w',
    train ExportFacts.idle_backend
      (mk_trainer
         (mk_module CorrectiveDeformerNet
            (<["num_vertices" := 100]> (<["num_joints" := 6]> ∅)) [])
         [] [] [] [] PrimFloat.infinity)
      [tt] [tt] 0 "models" bare_world
    = (Returned
         (mk_trainer
            (mk_module CorrectiveDeformerNet
               (<["num_vertices" := 100]> (<["num_joints" := 6]> ∅)) [])
            [] [] [] [] PrimFloat.infinity), w') /\
    written w' =
      written bare_world
      ++ ExportFacts.exported_formats
           (mk_trainer
              (mk_module CorrectiveDeformerNet
                 (<["num_vertices" := 100]> (<["num_joints" := 6]> ∅)) [])
              [] [] [] [] PrimFloat.infinity) "models" models_world
      ++ [(path_join "models" "model_metadata.json",
           ExportFacts.export_metadata
             (mk_trainer
                (mk_module CorrectiveDeformerNet
                   (<["num_vertices" := 100]> (<["num_joints" := 6]> ∅)) [])
                [] [] [] [] PrimFloat.infinity) 6 100 (clock bare_world))] /\
    files w' !! path_join "models" "model_metadata.json"
      = Some (ExportFacts.export_metadata
                (mk_trainer
                   (mk_module CorrectiveDeformerNet
                      (<["num_vertices" := 100]> (<["num_joints" := 6]> ∅)) [])
                   [] [] [] [] PrimFloat.infinity) 6 100 (clock bare_world)).
Proof.
  apply (train_no_epochs ExportFacts.idle_backend
           (mk_trainer
              (mk_module CorrectiveDeformerNet
                 (<["num_vertices" := 100]> (<["num_joints" := 6]> ∅)) [])
              [] [] [] [] PrimFloat.infinity)
           [tt] [tt] 0 "models" bare_world models_world 6 100).
  - lia.
  - vm_compute. reflexivity.
  - vm_compute. reflexivity.
  - reflexivity.
  - reflexivity.
  - lia.
Defined.

Lemma train_without_batches_witness :
  train ExportFacts.idle_backend
    (mk_trainer bare_module [] [] [] [] PrimFloat.infinity) [tt] [] 1 "models" bare_world
  = (Raised ZeroDivisionError, models_world) /\
  written models_world = written bare_world.
Proof.
  apply (train_without_batches ExportFacts.idle_backend
           (mk_trainer bare_module [] [] [] [] PrimFloat.infinity) [tt] [] 1 "models"
           bare_world models_world).
  - lia.
  - vm_compute. reflexivity.
  - right. split; [reflexivity|]. intros m st b. by eexists.
Defined.

(** The files of the run without an epoch. *)
Example train_no_epochs_files :
  ExportFacts.exported_formats
    (mk_trainer
       (mk_module CorrectiveDeformerNet
          (<["num_vertices" := 100]> (<["num_joints" := 6]> ∅)) [])
       [] [] [] [] PrimFloat.infinity) "models" models_world
  = [ ("models/model_torchscript.pt",
       TorchScriptFile
         (mk_module CorrectiveDeformerNet
            (<["num_vertices" := 100]> (<["num_joints" := 6]> ∅)) []) []);
      ("models/model.onnx",
       OnnxFile
         (mk_module CorrectiveDeformerNet
            (<["num_vertices" := 100]> (<["num_joints" := 6]> ∅)) []) []) ].
Proof. vm_compute. reflexivity. Qed.

(** With the default split of 0.2, a dataset of fewer than five samples has no
    validation sample: [int(len(dataset) * val_split)] is zero. *)
Example small_datasets_have_no_validation_sample :
  (fun n => (py_int (fmul (of_nat n) 0x1.999999999999ap-3%float) bare_world).1)
    <$> [1; 2; 3; 4; 5; 9; 10]%nat
  = Returned <$> [0; 0; 0; 0; 1; 1; 2].
Proof. vm_compute. reflexivity. Qed.

End TrainMore.

(* ===================================================================== *)
(** * Further properties of the dataset items *)
(* ===================================================================== *)

Module DatasetItemsFacts.
Import World Collector Train PathFacts CollectorFacts LoaderFacts RoundTripFacts.
Import SaveMore DatasetItems.






End DatasetItemsFacts.

Module DatasetItemsExamples.
Import World Collector Train PathFacts CollectorFacts LoaderFacts RoundTripFacts.
Import SaveMore DatasetItems DatasetItemsFacts.


(** The dataset of a file whose arrays disagree: three poses and two delta
    blocks.  Its length is three, and its last item cannot be read. *)
Example inconsistent_dataset_items :
  exists ds,
    CorrectiveDeformerDataset_init "data/bad.npz" inconsistent_world
    = (Returned ds, inconsistent_world) /\
    Dataset_len ds = 3%nat /\
    (exists item, Dataset_getitem ds 1 inconsistent_world
                  = (Returned item, inconsistent_world)) /\
    Dataset_getitem ds 2 inconsistent_world
    = (Raised (IndexError "index is out of bounds for dimension 0"), inconsistent_world).
Proof.
  eexists. split; [vm_compute; reflexivity|].
  split_and!; [reflexivity | eexists; vm_compute; reflexivity | vm_compute; reflexivity].
Qed.

End DatasetItemsExamples.
